(** * FbrefAPI: the table-extraction and normalisation pipeline

    A shallow embedding of the scraping core of FbrefAPI
    ([src/scraper/fbref_scraper.py] and the scrapers built on it) and the
    properties of it that the specification states.

    Conventions of the embedding.
    - A Python [str] is a list of characters ([pystr]); characters are the
      code points below 256.
    - A Python [dict] is an insertion-ordered association list with unique
      keys ([odict]): assignment to an existing key keeps its position,
      assignment to a new key appends.
    - Code that can raise returns a [result]; the exception classes that the
      modelled code can raise are the constructors of [exn].
    - A parsed HTML table is the part of the BeautifulSoup tree the code
      looks at: the caption text, and per row the [class] attribute, the
      text of its [th]/[td] cells and the [href] of its anchors.
    - A regular expression is represented by what [re.findall] computes
      with it ([pattern]); the expressions the repository fixes are given
      by hand-written matchers next to the function that uses them. *)

From Stdlib Require Import List Ascii String ZArith Lia Bool Arith PeanoNat.
From Stdlib Require Import DecimalNat DecimalString PrimFloat Uint63.
Import ListNotations.

Set Implicit Arguments.
Set Warnings "-register-all".

(* ================================================================== *)
(** * Python values, strings and dictionaries *)
(* ================================================================== *)

Module Py.

Definition pystr := list ascii.

(** String literals of the source. *)
Definition str (s : string) : pystr := list_ascii_of_string s.

(** The exceptions of the modelled code.  [InvalidCountryCode] is the
    [ValueError] that the leagues scraper raises itself, kept apart from the
    [ValueError] of [int] and [float] by its message. *)
Inductive exn : Type :=
| IndexError
| KeyError
| ValueError
| TypeError
| AttributeError
| OverflowError
| UnboundLocalError
| InvalidCountryCode.

Inductive result (A : Type) : Type :=
| Ok (a : A)
| Raise (e : exn).

Arguments Ok {A} a.
Arguments Raise {A} e.

Definition bind {A B} (c : result A) (k : A -> result B) : result B :=
  match c with
  | Ok a => k a
  | Raise e => Raise e
  end.

Definition of_option {A} (e : exn) (o : option A) : result A :=
  match o with
  | Some a => Ok a
  | None => Raise e
  end.

(** [[f(x) for x in l]] for an [f] that can raise: the first exception,
    in list order, aborts the comprehension. *)
Fixpoint mapM {A B} (f : A -> result B) (l : list A) : result (list B) :=
  match l with
  | [] => Ok []
  | x :: t =>
      match f x with
      | Ok y =>
          match mapM f t with
          | Ok ys => Ok (y :: ys)
          | Raise e => Raise e
          end
      | Raise e => Raise e
      end
  end.

(** A [for] loop over [l] threading the state [s], aborted by the first
    exception. *)
Fixpoint foldM {A S} (f : S -> A -> result S) (l : list A) (s : S) : result S :=
  match l with
  | [] => Ok s
  | x :: t =>
      match f s x with
      | Ok s' => foldM f t s'
      | Raise e => Raise e
      end
  end.

(** ** Strings *)

Fixpoint str_eqb (a b : pystr) : bool :=
  match a, b with
  | [], [] => true
  | x :: a', y :: b' => Ascii.eqb x y && str_eqb a' b'
  | _, _ => false
  end.

(** [x in l] for a list of strings. *)
Definition str_in (x : pystr) (l : list pystr) : bool := existsb (str_eqb x) l.

Fixpoint strs_eqb (a b : list pystr) : bool :=
  match a, b with
  | [], [] => true
  | x :: a', y :: b' => str_eqb x y && strs_eqb a' b'
  | _, _ => false
  end.

(** [s.startswith(p)] *)
Fixpoint startswith (p s : pystr) : bool :=
  match p, s with
  | [], _ => true
  | x :: p', y :: s' => Ascii.eqb x y && startswith p' s'
  | _ :: _, [] => false
  end.

(** [sub in s] for strings. *)
Fixpoint contains (sub s : pystr) : bool :=
  startswith sub s ||
  match s with
  | [] => false
  | _ :: s' => contains sub s'
  end.

(** [str.isspace] on one character: the ASCII white space, the four
    separators U+001C..U+001F, NEL and the no-break space. *)
Definition is_space (c : ascii) : bool :=
  let n := nat_of_ascii c in
  ((9 <=? n) && (n <=? 13)) || ((28 <=? n) && (n <=? 32))
  || (n =? 133) || (n =? 160).

(** [\d] of [re] on one character. *)
Definition is_digit (c : ascii) : bool :=
  let n := nat_of_ascii c in (48 <=? n) && (n <=? 57).

Fixpoint lstrip (s : pystr) : pystr :=
  match s with
  | c :: s' => if is_space c then lstrip s' else s
  | [] => []
  end.

Definition rstrip (s : pystr) : pystr := rev (lstrip (rev s)).

(** [s.strip()] *)
Definition strip (s : pystr) : pystr := rstrip (lstrip s).

(** [str.lower] on one character (code points below 256). *)
Definition lower_char (c : ascii) : ascii :=
  let n := nat_of_ascii c in
  if ((65 <=? n) && (n <=? 90))
     || ((192 <=? n) && (n <=? 222) && negb (n =? 215))
  then ascii_of_nat (n + 32) else c.

Definition lower (s : pystr) : pystr := map lower_char s.

(** [s.replace(old, new)] for a non-empty [old]: the occurrences are found
    from the left and do not overlap.  [skip] counts the characters of an
    occurrence that are still to be passed over. *)
Fixpoint replace_from (skip : nat) (old new s : pystr) : pystr :=
  match s with
  | [] => []
  | c :: s' =>
      match skip with
      | S k => replace_from k old new s'
      | O =>
          if startswith old s
          then new ++ replace_from (List.length old - 1) old new s'
          else c :: replace_from 0 old new s'
      end
  end.

Definition replace (old new s : pystr) : pystr := replace_from 0 old new s.

(** [s.split(sep)] for a one-character separator; never the empty list. *)
Fixpoint split (sep : ascii) (s : pystr) : list pystr :=
  match s with
  | [] => [[]]
  | c :: s' =>
      if Ascii.eqb c sep then [] :: split sep s'
      else
        match split sep s' with
        | w :: ws => (c :: w) :: ws
        | [] => [[c]]
        end
  end.

(** [sep.join(l)] *)
Fixpoint join (sep : pystr) (l : list pystr) : pystr :=
  match l with
  | [] => []
  | [w] => w
  | w :: ws => w ++ sep ++ join sep ws
  end.

(** [str(n)] for a natural number, as an f-string prints it. *)
Definition str_of_nat (n : nat) : pystr :=
  list_ascii_of_string (NilEmpty.string_of_uint (Nat.to_uint n)).

(** [l[:-1]], all but the last element. *)
Definition but_last {A} (l : list A) : list A := removelast l.

(** [l[:-k]] for [k > 0]. *)
Definition drop_last {A} (k : nat) (l : list A) : list A :=
  firstn (List.length l - k) l.

(** ** Values *)

Inductive pyval : Type :=
| PNone
| PStr (s : pystr)
| PInt (z : Z)
| PFloat (f : float)
| PList (l : list pyval)
| PDict (d : list (pystr * pyval)).

Definition is_none (v : pyval) : bool :=
  match v with
  | PNone => true
  | _ => false
  end.

(** ** Insertion-ordered dictionaries *)

Definition odict (V : Type) := list (pystr * V).

Definition keys {V} (d : odict V) : list pystr := map fst d.


Fixpoint get {V} (k : pystr) (d : odict V) : option V :=
  match d with
  | [] => None
  | (k', v) :: d' => if str_eqb k k' then Some v else get k d'
  end.

(** [d[k] = v] *)
Fixpoint set {V} (k : pystr) (v : V) (d : odict V) : odict V :=
  match d with
  | [] => [(k, v)]
  | (k', v') :: d' =>
      if str_eqb k k' then (k', v) :: d' else (k', v') :: set k v d'
  end.

(** [d.pop(k)] without its result: the entry of [k] removed. *)
Fixpoint remove {V} (k : pystr) (d : odict V) : odict V :=
  match d with
  | [] => []
  | (k', v') :: d' =>
      if str_eqb k k' then d' else (k', v') :: remove k d'
  end.

(** A well-formed dictionary has each key once. *)
Definition wf {V} (d : odict V) : Prop := NoDup (keys d).

End Py.

Import Py.

Arguments str : simpl never.

Declare Scope py_scope.
Notation "x <- c1 ;; c2" := (bind c1 (fun x => c2))
  (at level 61, c1 at next level, right associativity) : py_scope.
Open Scope py_scope.

(* ================================================================== *)
(** * Parsed HTML *)
(* ================================================================== *)

Module Html.

(** A [tr] element: its [class] attribute when it has one, the stripped
    text of its [th] and [td] cells in document order
    ([entry.get_text(strip=True)]), and, for each [a] element,
    [a.get('href')]. *)
Record row : Type := mk_row {
  row_class : option (list pystr);
  row_cells : list pystr;
  row_hrefs : list (option pystr)
}.

(** A [table] element: [table.caption.text] when there is a caption, and
    [table.find_all('tr')]. *)
Record table : Type := mk_table {
  caption : option pystr;
  table_rows : list row
}.

(** A compiled regular expression, as [re.findall(pattern, .)]: the list
    of its matches (of its group, when it has one) from left to right. *)
Definition pattern : Type := pystr -> list pystr.

Definition findall (p : pattern) (s : pystr) : list pystr := p s.

(** [re.findall] for an expression that is a literal text without
    metacharacters: one copy of the text per occurrence, the occurrences
    taken from the left without overlap. *)
Fixpoint literal_from (skip : nat) (lit s : pystr) : list pystr :=
  match s with
  | [] => []
  | _ :: s' =>
      match skip with
      | S k => literal_from k lit s'
      | O =>
          if startswith lit s
          then lit :: literal_from (List.length lit - 1) lit s'
          else literal_from 0 lit s'
      end
  end.

Definition literal (lit : pystr) : pattern := literal_from 0 lit.

(** [re.findall] for an anchored matcher: [match_at s] is the match that
    starts at the first character of [s], as its captured text and its
    (positive) length.  The scan tries every start from the left and
    resumes after a match. *)
Fixpoint scan {A} (match_at : pystr -> option (A * nat)) (skip : nat)
  (s : pystr) : list A :=
  match s with
  | [] => []
  | _ :: s' =>
      match skip with
      | S k => scan match_at k s'
      | O =>
          match match_at s with
          | Some (g, len) => g :: scan match_at (len - 1) s'
          | None => scan match_at 0 s'
          end
      end
  end.

(** The longest prefix of characters satisfying [p], and what follows. *)
Fixpoint span (p : ascii -> bool) (s : pystr) : pystr * pystr :=
  match s with
  | [] => ([], [])
  | c :: s' =>
      if p c then let '(a, b) := span p s' in (c :: a, b) else ([], s)
  end.

End Html.

Import Html.

(* ================================================================== *)
(** * [FbrefScraper] ([src/scraper/fbref_scraper.py]) *)
(* ================================================================== *)

Module FbrefScraper.

(** ** Rows and cells *)

(** [parse_table_rows]: the rows that are not spacers,
    ['class' not in row.attrs or 'spacer' not in row['class']]. *)
Definition is_clean_row (r : row) : bool :=
  match row_class r with
  | None => true
  | Some classes => negb (str_in (str "spacer") classes)
  end.

Definition parse_table_rows (t : table) : list row :=
  filter is_clean_row (table_rows t).

Definition parse_row_data (clean_row : row) : list pystr := row_cells clean_row.

Definition parse_all_row_data (clean_rows : list row) : list (list pystr) :=
  map parse_row_data clean_rows.

(** [format_field]: [field.strip().lower().replace(" ", "_")]. *)
Definition format_field (field : pystr) : pystr :=
  replace (str " ") (str "_") (lower (strip field)).

(** ** Header de-duplication *)

(** One iteration of the loop of [add_suffix_to_repeat_headers] on the
    state [(header_count, result)]. *)
Definition suffix_step (st : odict nat * list pystr) (header : pystr)
  : odict nat * list pystr :=
  let '(header_count, result) := st in
  match get header header_count with
  | Some n =>
      (set header (n + 1) header_count,
       result ++ [header ++ str_of_nat (n + 1 - 1)])
  | None =>
      (set header 1 header_count, result ++ [header])
  end.

Definition add_suffix_to_repeat_headers (headers : list pystr) : list pystr :=
  snd (fold_left suffix_step headers ([], [])).

(** ** Rows to columns *)

Fixpoint heads {A} (rows : list (list A)) : option (list A) :=
  match rows with
  | [] => Some []
  | [] :: _ => None
  | (x :: _) :: rows' =>
      match heads rows' with
      | Some xs => Some (x :: xs)
      | None => None
      end
  end.

(** [zip(first, *rest)]: the tuples of the cells at the same position,
    up to the end of the shortest row. *)
Fixpoint zip_with_first {A} (first : list A) (rest : list (list A))
  : list (list A) :=
  match first with
  | [] => []
  | x :: first' =>
      match heads rest with
      | Some xs => (x :: xs) :: zip_with_first first' (map (@tl A) rest)
      | None => []
      end
  end.

(** [zip] applied to the rows as its arguments, as the source calls it
    with the unpacked [row_data]. *)
Definition zip_star {A} (rows : list (list A)) : list (list A) :=
  match rows with
  | [] => []
  | first :: rest => zip_with_first first rest
  end.

(** The assignments [data_dict[ch] = list(row_data)] of a loop over
    [pairs], in order. *)
Definition assign_all {V} (pairs : list (pystr * V)) (d : odict V) : odict V :=
  fold_left (fun acc p => set (fst p) (snd p) acc) pairs d.

Definition convert_row_data_to_dict (all_row_data : list (list pystr))
  : result (odict (list pystr)) :=
  match all_row_data with
  | [] => Raise IndexError
  | headers :: row_data =>
      let clean_headers :=
        add_suffix_to_repeat_headers (map format_field headers) in
      Ok (assign_all (combine clean_headers (zip_star row_data)) [])
  end.

(** ** Totals rows *)

(** The loop of [detect_totals_rows]; iteration [i] looks at
    [all_row_data[-(i+1)]], the [i]-th row of the reversed list, and
    [check = row[0]] raises on a row without cells. *)
Fixpoint detect_totals_loop (reversed : list (list pystr)) (totals_rows : nat)
  : result nat :=
  match reversed with
  | [] => Ok totals_rows
  | r :: rest =>
      match r with
      | [] => Raise IndexError
      | check :: _ =>
          if contains (str "Total") check
          then detect_totals_loop rest (totals_rows + 1)
          else Ok totals_rows
      end
  end.

Definition detect_totals_rows (all_row_data : list (list pystr)) : result nat :=
  detect_totals_loop (rev all_row_data) 0.

(** The part of [parse_table_data] after the rows have been read. *)
Definition parse_rows (all_row_data : list (list pystr)) (skip_row : bool)
  (drop_rows : Z) (exclude_totals : bool) : result (odict (list pystr)) :=
  let all_row_data := if skip_row then tl all_row_data else all_row_data in
  drop_rows <- (if exclude_totals
                then totals_rows <- detect_totals_rows all_row_data ;;
                     Ok (Z.of_nat totals_rows)
                else Ok drop_rows) ;;
  let all_row_data :=
    if (0 <? drop_rows)%Z
    then drop_last (Z.to_nat drop_rows) all_row_data
    else all_row_data in
  convert_row_data_to_dict all_row_data.

Definition parse_table_data (t : table) (skip_row : bool) (drop_rows : Z)
  (exclude_totals : bool) : result (odict (list pystr)) :=
  let clean_rows := parse_table_rows t in
  let all_row_data := parse_all_row_data clean_rows in
  parse_rows all_row_data skip_row drop_rows exclude_totals.

(** ** Captions *)

(** [get_table_name]: [None] for a table without caption. *)
Definition get_table_name (t : table) (remove_table : bool) : option pystr :=
  match caption t with
  | None => None
  | Some text =>
      let table_name := strip text in
      if contains (str "Table") table_name && remove_table
      then Some (strip (replace (str "Table") [] table_name))
      else Some table_name
  end.

(** [x in l] for a list of [re.findall] results. *)
Definition match_in (x : list pystr) (l : list (list pystr)) : bool :=
  existsb (strs_eqb x) l.

(** The body of the inner loop of [get_tables_from_caption] on the state
    [(tables, table_names)]; [re.findall] raises on the [None] that
    [get_table_name] gives for a table without caption. *)
Definition caption_step (t : table)
  (st : list table * list (list pystr)) (regex_pattern : pattern)
  : result (list table * list (list pystr)) :=
  let '(tables, table_names) := st in
  match get_table_name t true with
  | None => Raise TypeError
  | Some name =>
      let table_name := findall regex_pattern name in
      match table_name with
      | [] => Ok (tables, table_names)
      | _ :: _ =>
          if negb (match_in table_name table_names)
          then Ok (tables ++ [t], table_names ++ [table_name])
          else Ok (tables, table_names)
      end
  end.

(** The two nested loops of [get_tables_from_caption]. *)
Definition select_tables (all_tables : list table)
  (regex_patterns : list pattern)
  : result (list table * list (list pystr)) :=
  foldM (fun st t => foldM (caption_step t) regex_patterns st)
        all_tables ([], []).

Definition get_tables_from_caption (all_tables : list table)
  (regex_patterns : list pattern) : result (option (list table)) :=
  st <- select_tables all_tables regex_patterns ;;
  match fst st with
  | [] => Ok None
  | tables => Ok (Some tables)
  end.

(** ** Identifiers embedded in URLs *)

(** The loop of [parse_pattern_from_url]; [last] is the local variable
    [match], unbound before the first iteration.  After the loop the
    function reads [match]. *)
Fixpoint pattern_loop (patterns : list pattern) (url : pystr)
  (last : option (list pystr)) : result (option pystr) :=
  match patterns with
  | [] =>
      match last with
      | None => Raise UnboundLocalError
      | Some _ => Ok None
      end
  | p :: patterns' =>
      let m := findall p url in
      match m with
      | item :: _ => Ok (Some item)
      | [] => pattern_loop patterns' url (Some m)
      end
  end.

Definition parse_pattern_from_url (patterns : list pattern) (url : pystr)
  : result (option pystr) :=
  pattern_loop patterns url None.

(** [[a.get('href') for a in row.find_all('a') if a.get('href')]] *)
Definition row_links (r : row) : list pystr :=
  flat_map (fun h => match h with
                     | Some (c :: u) => [c :: u]
                     | _ => []
                     end) (row_hrefs r).

(** The loop over the hrefs of one row: the first truthy item, at which
    the loop breaks. *)
Fixpoint href_loop (patterns : list pattern) (hrefs : list pystr)
  : result (option pystr) :=
  match hrefs with
  | [] => Ok None
  | href :: hrefs' =>
      item <- parse_pattern_from_url patterns href ;;
      match item with
      | Some (c :: i) => Ok (Some (c :: i))
      | _ => href_loop patterns hrefs'
      end
  end.

(** The loop over the rows, shared by [get_all_items_from_table_urls] and
    [get_all_items_from_stat_table_urls]. *)
Definition items_step (patterns : list pattern) (items : list pystr) (r : row)
  : result (list pystr) :=
  found <- href_loop patterns (row_links r) ;;
  match found with
  | Some item => Ok (items ++ [item])
  | None => Ok items
  end.

Definition get_all_items_from_table_urls (t : table) (patterns : list pattern)
  : result (list pystr) :=
  let clean_rows := parse_table_rows t in
  foldM (items_step patterns) clean_rows [].

(** ** Dictionary keys *)

(** [{k: data_dict[k] for k in new_order if k in data_dict}] *)
Definition reorder_dict_keys {V} (data_dict : odict V) (new_order : list pystr)
  : odict V :=
  fold_left (fun acc k => match get k data_dict with
                          | Some v => set k v acc
                          | None => acc
                          end) new_order [].

(** ** Type coercion *)

(** The digits of an integer literal, which may be separated by single
    underscores; [prev_digit] tells whether the previous character was a
    digit. *)
Fixpoint digits_ok (prev_digit : bool) (s : pystr) : bool :=
  match s with
  | [] => prev_digit
  | c :: s' =>
      if is_digit c then digits_ok true s'
      else if Ascii.eqb c "_" then prev_digit && digits_ok false s'
      else false
  end.

Definition digit_value (c : ascii) : Z := Z.of_nat (nat_of_ascii c - 48).

Definition decimal_value (digits : pystr) : Z :=
  fold_left (fun acc c => (acc * 10 + digit_value c)%Z) digits 0%Z.

(** [int(s)] for a string, base ten: white space around the literal is
    ignored, one sign may precede the digits.  [None] stands for the
    [ValueError] of a string that is no integer literal. *)
Definition int_of_str (s : pystr) : option Z :=
  let t := strip s in
  let '(negative, body) :=
    match t with
    | c :: r =>
        if Ascii.eqb c "-" then (true, r)
        else if Ascii.eqb c "+" then (false, r)
        else (false, t)
    | [] => (false, [])
    end in
  if digits_ok false body
  then
    let n := decimal_value (filter is_digit body) in
    Some (if negative then (- n)%Z else n)
  else None.

(** The conversions of Python that involve binary floating point are not
    computed here: they are taken from the environment.  [float_of_str]
    gives [None] where [float(s)] raises [ValueError]. *)
Record float_builtins : Type := mk_float_builtins {
  float_of_str : pystr -> option float;
  float_of_int : Z -> result float;
  int_of_float : float -> result Z
}.

Section Coercion.

Variable fb : float_builtins.

(** [int(x)] *)
Definition py_int (x : pyval) : result pyval :=
  match x with
  | PStr s =>
      match int_of_str s with
      | Some z => Ok (PInt z)
      | None => Raise ValueError
      end
  | PInt z => Ok (PInt z)
  | PFloat f => z <- int_of_float fb f ;; Ok (PInt z)
  | PNone | PList _ | PDict _ => Raise TypeError
  end.

(** [float(x)] *)
Definition py_float (x : pyval) : result pyval :=
  match x with
  | PStr s =>
      match float_of_str fb s with
      | Some f => Ok (PFloat f)
      | None => Raise ValueError
      end
  | PInt z => f <- float_of_int fb z ;; Ok (PFloat f)
  | PFloat f => Ok (PFloat f)
  | PNone | PList _ | PDict _ => Raise TypeError
  end.

(** [x] is the empty string. *)
Definition is_empty_str (x : pyval) : bool :=
  match x with
  | PStr [] => true
  | _ => false
  end.

(** [conv(x)] if [x] is neither [None] nor the empty string, else [None]. *)
Definition convert_cell (conv : pyval -> result pyval) (x : pyval)
  : result pyval :=
  if negb (is_none x) && negb (is_empty_str x) then conv x else Ok PNone.

Definition convert_list_from_str (list_of_strings : list pyval)
  (convert_to : pystr) : result (list pyval) :=
  if str_eqb convert_to (str "int")
  then mapM (convert_cell py_int) list_of_strings
  else if str_eqb convert_to (str "float")
  then mapM (convert_cell py_float) list_of_strings
  else Ok list_of_strings.

(** The body of the loop of [convert_dict_dtypes] for the key [k]. *)
Definition dtypes_step (int_keys float_keys : list pystr)
  (data_dict : odict (list pyval)) (k : pystr) : result (odict (list pyval)) :=
  if str_in k int_keys
  then
    column <- of_option KeyError (get k data_dict) ;;
    converted <- convert_list_from_str column (str "int") ;;
    Ok (set k converted data_dict)
  else if str_in k float_keys
  then
    column <- of_option KeyError (get k data_dict) ;;
    converted <- convert_list_from_str column (str "float") ;;
    Ok (set k converted data_dict)
  else Ok data_dict.

Definition convert_dict_dtypes (data_dict : odict (list pyval))
  (int_keys float_keys : list pystr) : result (odict (list pyval)) :=
  foldM (dtypes_step int_keys float_keys) (keys data_dict) data_dict.

End Coercion.

(** ** Scalar cleaners *)

Definition is_lower_az (c : ascii) : bool :=
  let n := nat_of_ascii c in (97 <=? n) && (n <=? 122).

(** The text that [.*] takes: up to the first line feed. *)
Definition rest_of_line (s : pystr) : pystr :=
  fst (span (fun c => negb (Ascii.eqb c "010")) s).

(** [re.findall] of [team_name] with the expression of [clean_team_name]:
    the start of the string, two or three letters of [a-z], and a group
    that takes the rest of the line.  The counted repetition takes a third
    letter when there is one, and the group accepts any text, so the first
    attempt is the match. *)
Definition team_prefix_findall (team_name : pystr) : list pystr :=
  match team_name with
  | a :: b :: rest =>
      if is_lower_az a && is_lower_az b
      then
        match rest with
        | c :: rest' =>
            if is_lower_az c then [rest_of_line rest'] else [rest_of_line rest]
        | [] => [[]]
        end
      else []
  | _ => []
  end.

Definition clean_team_name (team_name : pystr) : pystr :=
  let team_name :=
    match team_prefix_findall team_name with
    | g :: _ => g
    | [] => team_name
    end in
  if 1 <? List.length (split "-" team_name)
  then join (str " ") (but_last (split "-" team_name))
  else team_name.

(** The match of [(\d+)\s*\((\d+)\)] that starts at the first character of
    [s]: its two groups and its length.  Each repetition takes the longest
    run; a shorter run would be followed by a character of the same class,
    which the next element of the expression rejects, so no shorter run
    leads to a match. *)
Definition shootout_at (s : pystr) : option ((pystr * pystr) * nat) :=
  let '(x, after_x) := span is_digit s in
  match x with
  | [] => None
  | _ :: _ =>
      let '(ws, after_ws) := span is_space after_x in
      match after_ws with
      | c :: after_open =>
          if Ascii.eqb c "("
          then
            let '(y, after_y) := span is_digit after_open in
            match y, after_y with
            | _ :: _, c' :: _ =>
                if Ascii.eqb c' ")"
                then Some ((x, y),
                           List.length x + List.length ws + 1
                           + List.length y + 1)
                else None
            | _, _ => None
            end
          else None
      | [] => None
      end
  end.

(** [re.findall] of [gf_ga] with [(\d+)\s*\((\d+)\)]. *)
Definition shootout_findall (gf_ga : pystr) : list (pystr * pystr) :=
  scan shootout_at 0 gf_ga.

Definition clean_gf_ga (gf_ga : pystr) : pystr :=
  let check := shootout_findall gf_ga in
  match check with
  | (x, _) :: _ => x
  | [] => gf_ga
  end.

(** ** More dictionary helpers *)

(** [data_dict[new_key] = data_dict.pop(old_key)] *)
Definition rename_dict_key {V} (data_dict : odict V) (old_key new_key : pystr)
  : result (odict V) :=
  match get old_key data_dict with
  | None => Raise KeyError
  | Some v => Ok (set new_key v (remove old_key data_dict))
  end.

(** The loop of [delete_dict_keys]: a key is popped when it is in the
    dictionary. *)
Definition delete_dict_keys {V} (data_dict : odict V)
  (keys_to_delete : list pystr) : odict V :=
  fold_left (fun d key => match get key d with
                          | Some _ => remove key d
                          | None => d
                          end) keys_to_delete data_dict.

(** [process_value] of [change_dict_orientation] for the row [i]: a list
    is indexed, a dictionary is processed value by value, any other value
    is kept. *)
Fixpoint process_value (i : nat) (value : pyval) : result pyval :=
  match value with
  | PList l => of_option IndexError (nth_error l i)
  | PDict d =>
      fields <-
        (fix process_items (items : list (pystr * pyval))
           : result (list (pystr * pyval)) :=
           match items with
           | [] => Ok []
           | (k2, v2) :: rest =>
               v <- process_value i v2 ;;
               rest' <- process_items rest ;;
               Ok ((k2, v) :: rest')
           end) d ;;
      Ok (PDict fields)
  | _ => Ok value
  end.

(** [{k: process_value(v) for k, v in input_dict.items()}] *)
Fixpoint process_items (i : nat) (items : odict pyval) : result (odict pyval) :=
  match items with
  | [] => Ok []
  | (k, v) :: rest =>
      v' <- process_value i v ;;
      rest' <- process_items i rest ;;
      Ok ((k, v') :: rest')
  end.

(** The number of iterations of [enumerate(value)]; [None] and numbers
    cannot be iterated. *)
Definition iterations (value : pyval) : result nat :=
  match value with
  | PList l => Ok (List.length l)
  | PStr s => Ok (List.length s)
  | PDict d => Ok (List.length d)
  | PNone | PInt _ | PFloat _ => Raise TypeError
  end.

(** [change_dict_orientation]; the result is the list under the key
    ['data']. *)
Definition change_dict_orientation (input_dict : odict pyval) (id_key : pystr)
  : result (list (odict pyval)) :=
  id_key_vals <- of_option KeyError (get id_key input_dict) ;;
  n <- iterations id_key_vals ;;
  mapM (fun i => process_items i input_dict) (seq 0 n).

End FbrefScraper.

Import FbrefScraper.

(* ================================================================== *)
(** * [FbrefStatsScraper] ([src/scraper/fbref_stats_scraper.py]) *)
(* ================================================================== *)

Module FbrefStatsScraper.

(** [parse_stat_table_rows]: the header row and the data rows that have as
    many cells as the header row. *)
Definition parse_stat_table_rows (stat_table : table) (skip_row : bool)
  : result (list row) :=
  let clean_rows := parse_table_rows stat_table in
  let split_rows :=
    if skip_row
    then match clean_rows with
         | _ :: header_row :: data_rows => Ok (header_row, data_rows)
         | _ => Raise IndexError
         end
    else match clean_rows with
         | header_row :: data_rows => Ok (header_row, data_rows)
         | [] => Raise IndexError
         end in
  hd <- split_rows ;;
  let '(header_row, data_rows) := hd in
  let num_headers := List.length (row_cells header_row) in
  Ok (header_row ::
      filter (fun r => List.length (row_cells r) =? num_headers) data_rows).

(** The rows whose index is not in [drop], the list of the indices of the
    rows that are not as long as the first one. *)
Definition drop_mismatched (all_row_data : list (list pystr))
  : result (list (list pystr)) :=
  match all_row_data with
  | [] => Raise IndexError
  | header :: _ =>
      let header_len := List.length header in
      Ok (filter (fun r => List.length r =? header_len) all_row_data)
  end.

Definition parse_stat_table_data (stat_table : table) (skip_row : bool)
  (drop_rows : Z) (exclude_totals : bool) : result (odict (list pystr)) :=
  cleaner_rows <- parse_stat_table_rows stat_table skip_row ;;
  let all_row_data := parse_all_row_data cleaner_rows in
  drop_rows <- (if exclude_totals
                then totals_rows <- detect_totals_rows all_row_data ;;
                     Ok (Z.of_nat totals_rows)
                else Ok drop_rows) ;;
  let all_row_data :=
    if (0 <? drop_rows)%Z
    then drop_last (Z.to_nat drop_rows) all_row_data
    else all_row_data in
  all_row_data <- drop_mismatched all_row_data ;;
  convert_row_data_to_dict all_row_data.

Definition get_all_items_from_stat_table_urls (stat_table : table)
  (patterns : list pattern) (skip_row : bool) : result (list pystr) :=
  cleaner_rows <- parse_stat_table_rows stat_table skip_row ;;
  foldM (items_step patterns) cleaner_rows [].

(** ** Column cleaners

    The cleaners are written for strings; on another value the string
    method they call is missing ([AttributeError]) or [re.findall] rejects
    its argument ([TypeError]). *)

Definition clean_player_position (position : pyval) : result pyval :=
  match position with
  | PStr s =>
      if 1 <? List.length (split "," s)
      then Ok (PList (map PStr (split "," s)))
      else Ok (PStr s)
  | _ => Raise AttributeError
  end.

Definition clean_player_age (age : pyval) : result pyval :=
  match age with
  | PStr s =>
      if 1 <? List.length (split "-" s)
      then Ok (PStr (hd [] (split "-" s)))
      else Ok (PStr s)
  | _ => Raise AttributeError
  end.

Definition clean_player_min (min : pyval) : result pyval :=
  match min with
  | PStr s => Ok (PStr (replace (str ",") [] s))
  | _ => Raise AttributeError
  end.

Definition clean_team_name_value (team_name : pyval) : result pyval :=
  match team_name with
  | PStr s => Ok (PStr (clean_team_name s))
  | _ => Raise TypeError
  end.

Definition clean_gf_ga_value (gf_ga : pyval) : result pyval :=
  match gf_ga with
  | PStr s => Ok (PStr (clean_gf_ga s))
  | _ => Raise TypeError
  end.

Definition cleaning_map : list (pystr * (pyval -> result pyval)) :=
  [ (str "positions", clean_player_position);
    (str "age", clean_player_age);
    (str "min", clean_player_min);
    (str "opponent", clean_team_name_value);
    (str "squad", clean_team_name_value);
    (str "gf", clean_gf_ga_value);
    (str "ga", clean_gf_ga_value);
    (str "team_name", clean_team_name_value) ].

(** The body of the loop of [clean_stat_dict_columns]. *)
Definition clean_column_step (sub_stat_dict : odict (list pyval))
  (entry : pystr * (pyval -> result pyval)) : result (odict (list pyval)) :=
  let '(column, method) := entry in
  match get column sub_stat_dict with
  | Some cells =>
      cleaned <- mapM method cells ;;
      Ok (set column cleaned sub_stat_dict)
  | None => Ok sub_stat_dict
  end.

Definition clean_stat_dict_columns (sub_stat_dict : odict (list pyval))
  : result (odict (list pyval)) :=
  foldM clean_column_step cleaning_map sub_stat_dict.

(** ** Reassembly

    The loop that [change_tms_dict_orientation],
    [change_tss_dict_orientation] and the other stat scrapers repeat. *)

(** The record of one unit of observation: [{'meta_data': .., 'stats': ..}]. *)
Record entity : Type := mk_entity {
  meta_data : odict pyval;
  stats : odict (odict pyval)
}.

(** The state of the loop over the fields of one category: the
    [meta_data] dictionary, the dictionary [stats[stat_id]] and
    [used_cols]. *)
Definition field_state : Type := (odict pyval * odict pyval * list pystr)%type.

(** [category[stat][i]]; [None] where the expression raises. *)
Definition cell_at (category : odict (list pyval)) (stat : pystr) (i : nat)
  : option pyval :=
  match get stat category with
  | Some column => nth_error column i
  | None => None
  end.

(** The body of the loop over [category.keys()]. *)
Definition field_step (meta_names : list pystr)
  (category : odict (list pyval)) (i : nat) (st : field_state) (stat : pystr)
  : field_state :=
  let '(meta, sub, used_cols) := st in
  if str_in stat meta_names
  then
    match cell_at category stat i with
    | Some v => (set stat v meta, sub, used_cols)
    | None => (set stat PNone meta, sub, used_cols)
    end
  else if str_in stat used_cols
  then st
  else
    match cell_at category stat i with
    | Some v => (meta, set stat v sub, used_cols ++ [stat])
    | None => (meta, set stat PNone sub, used_cols)
    end.

(** The state of the loop over the categories: [meta_data], [stats] and
    [used_cols]. *)
Definition record_state : Type :=
  (odict pyval * odict (odict pyval) * list pystr)%type.

(** The body of the loop over the categories.  [stats[stat_id]] starts
    empty and only this iteration writes to it. *)
Definition category_step (meta_names : list pystr)
  (d : odict (odict (list pyval))) (i : nat) (st : record_state)
  (stat_id : pystr) : record_state :=
  let '(meta, all_stats, used_cols) := st in
  match get stat_id d with
  | Some category =>
      let '(meta', sub, used_cols') :=
        fold_left (field_step meta_names category i) (keys category)
                  (meta, [], used_cols) in
      (meta', set stat_id sub all_stats, used_cols')
  | None => st
  end.

(** The record of row [i]. *)
Definition build_record (meta_names : list pystr)
  (d : odict (odict (list pyval))) (i : nat) : entity :=
  let '(meta, all_stats, _) :=
    fold_left (category_step meta_names d i) (keys d) ([], [], []) in
  mk_entity meta all_stats.

(** [len(d[category][key])] *)
Definition reference_length (d : odict (odict (list pyval)))
  (category key : pystr) : result nat :=
  c <- of_option KeyError (get category d) ;;
  column <- of_option KeyError (get key c) ;;
  Ok (List.length column).

(** ** Column maps

    The entry of one statistic category in [column_map_final.json], under
    the mode ['advanced'] or ['non_advanced']. *)
Record stat_config : Type := mk_stat_config {
  drop_columns : list pystr;
  name_mapping : odict pystr;
  final_order : list pystr;
  int_columns : list pystr;
  float_columns : list pystr
}.

(** [self.column_map]: the categories of the two modes and the shared list
    of meta-data fields ([column_map['advanced']['meta_data']]). *)
Record column_map : Type := mk_column_map {
  advanced : odict stat_config;
  non_advanced : odict stat_config;
  meta_data_fields : list pystr
}.

(** [get_adv_or_nadv_cmap] *)
Definition get_adv_or_nadv_cmap {V} (cm : column_map) (stat_dict : odict V)
  (threshold : nat) : odict stat_config :=
  if threshold <? List.length (keys stat_dict)
  then advanced cm
  else non_advanced cm.

Section SubStatDict.

Variable fb : float_builtins.

Definition delete_sub_stat_dict_keys (sub_stat_dict : odict (list pyval))
  (stat_id_key : pystr) (cmap : odict stat_config)
  : result (odict (list pyval)) :=
  config <- of_option KeyError (get stat_id_key cmap) ;;
  Ok (delete_dict_keys sub_stat_dict (drop_columns config)).

(** The body of the loop of [change_name_sub_stat_dict_keys] over the
    original keys. *)
Definition change_name_step (convert_dict : odict pystr)
  (sub_stat_dict : odict (list pyval)) (key2 : pystr)
  : result (odict (list pyval)) :=
  match get key2 convert_dict with
  | Some new_key => rename_dict_key sub_stat_dict key2 new_key
  | None => Ok sub_stat_dict
  end.

Definition change_name_sub_stat_dict_keys (sub_stat_dict : odict (list pyval))
  (stat_id_key : pystr) (cmap : odict stat_config)
  : result (odict (list pyval)) :=
  config <- of_option KeyError (get stat_id_key cmap) ;;
  let original_keys := keys sub_stat_dict in
  foldM (change_name_step (name_mapping config)) original_keys sub_stat_dict.

Definition reorder_sub_stat_dict_keys (sub_stat_dict : odict (list pyval))
  (stat_id_key : pystr) (cmap : odict stat_config)
  : result (odict (list pyval)) :=
  config <- of_option KeyError (get stat_id_key cmap) ;;
  Ok (reorder_dict_keys sub_stat_dict (final_order config)).

Definition convert_sub_stat_dict_keys_dtypes
  (sub_stat_dict : odict (list pyval)) (stat_id_key : pystr)
  (cmap : odict stat_config) : result (odict (list pyval)) :=
  config <- of_option KeyError (get stat_id_key cmap) ;;
  convert_dict_dtypes fb sub_stat_dict (int_columns config)
                      (float_columns config).

Definition delete_rename_order_convert_sub_stat_dict
  (sub_stat_dict : odict (list pyval)) (stat_id_key : pystr)
  (cmap : odict stat_config) : result (odict (list pyval)) :=
  sub_stat_dict <- delete_sub_stat_dict_keys sub_stat_dict stat_id_key cmap ;;
  sub_stat_dict <- change_name_sub_stat_dict_keys sub_stat_dict stat_id_key
                     cmap ;;
  sub_stat_dict <- reorder_sub_stat_dict_keys sub_stat_dict stat_id_key cmap ;;
  convert_sub_stat_dict_keys_dtypes sub_stat_dict stat_id_key cmap.

(** The body of the loop that [clean_team_match_stats] and
    [clean_team_season_stats] share: the category [key] is cleaned and put
    back. *)
Definition clean_category_step (cmap : odict stat_config)
  (stats_dict : odict (odict (list pyval))) (key : pystr)
  : result (odict (odict (list pyval))) :=
  sub_stat_dict <- of_option KeyError (get key stats_dict) ;;
  sub_stat_dict <- clean_stat_dict_columns sub_stat_dict ;;
  cleaned <- delete_rename_order_convert_sub_stat_dict sub_stat_dict key cmap ;;
  Ok (set key cleaned stats_dict).

End SubStatDict.

End FbrefStatsScraper.

Import FbrefStatsScraper.

(** [src/scraper/fbref_team_match_stats_scraper.py]; the result is the
    list under the key ['data'], and [meta_names] is
    [column_map['advanced']['meta_data']]. *)
Module FbrefTeamMatchStatsScraper.

Definition change_tms_dict_orientation (meta_names : list pystr)
  (team_match_stats_dict_clean : odict (odict (list pyval)))
  : result (list entity) :=
  num_matches <- reference_length team_match_stats_dict_clean
                   (str "schedule") (str "match_id") ;;
  Ok (map (build_record meta_names team_match_stats_dict_clean)
          (seq 0 num_matches)).

(** [clean_team_match_stats]: the categories are cleaned in order, then
    the mapping is reoriented. *)
Definition clean_team_match_stats (fb : float_builtins) (cm : column_map)
  (team_match_stats_dict : odict (odict (list pyval))) : result (list entity) :=
  let cmap := get_adv_or_nadv_cmap cm team_match_stats_dict 5 in
  cleaned <- foldM (clean_category_step fb cmap)
                   (keys team_match_stats_dict) team_match_stats_dict ;;
  change_tms_dict_orientation (meta_data_fields cm) cleaned.

End FbrefTeamMatchStatsScraper.

(** [src/scraper/fbref_team_season_stats_scraper.py] *)
Module FbrefTeamSeasonStatsScraper.

Definition change_tss_dict_orientation (meta_names : list pystr)
  (team_season_stats_dict_clean : odict (odict (list pyval)))
  : result (list entity) :=
  num_teams <- reference_length team_season_stats_dict_clean
                 (str "stats") (str "team_id") ;;
  Ok (map (build_record meta_names team_season_stats_dict_clean)
          (seq 0 num_teams)).

(** ** Scraping a league page *)

Definition get_stat_ids (has_adv_stats : pystr) : result (list pystr) :=
  if str_eqb has_adv_stats (str "yes")
  then Ok (map str ["stats"; "keepers"; "keepersadv"; "shooting"; "passing";
                    "passing_types"; "gca"; "defense"; "possession";
                    "playingtime"; "misc"]%string)
  else if str_eqb has_adv_stats (str "no")
  then Ok (map str ["stats"; "keepers"; "shooting"; "playingtime";
                    "misc"]%string)
  else Raise ValueError.

(** The expressions of the scraper: the caption patterns of the two modes
    (eleven and five, in the order of the stat ids) and the pattern of the
    team identifier. *)
Record league_stat_patterns : Type := mk_league_stat_patterns {
  advanced_stat_patterns : list pattern;
  non_advanced_stat_patterns : list pattern;
  team_id_pattern : pattern
}.

Definition get_league_stat_patterns (sp : league_stat_patterns)
  (has_adv_stats : pystr) : result (list pattern) :=
  if str_eqb has_adv_stats (str "yes") then Ok (advanced_stat_patterns sp)
  else if str_eqb has_adv_stats (str "no")
  then Ok (non_advanced_stat_patterns sp)
  else Raise ValueError.

(** [l.remove(x)]: the first occurrence is removed, and a list without
    [x] raises [ValueError]. *)
Fixpoint list_remove (x : pystr) (l : list pystr) : result (list pystr) :=
  match l with
  | [] => Raise ValueError
  | y :: l' =>
      if str_eqb y x then Ok l'
      else l'' <- list_remove x l' ;; Ok (y :: l'')
  end.

(** The body of the loop over [enumerate(all_stat_tables)]. *)
Definition league_table_step (sp : league_stat_patterns)
  (stat_ids : list pystr) (stats_dict : odict (odict (list pystr)))
  (e : nat * table) : result (odict (odict (list pystr))) :=
  let '(i, stat_table) := e in
  stat_dict <- parse_stat_table_data stat_table true 0 false ;;
  team_ids <- get_all_items_from_stat_table_urls stat_table
                [team_id_pattern sp] true ;;
  let stat_dict := set (str "team_id") team_ids stat_dict in
  stat_id <- of_option IndexError (nth_error stat_ids i) ;;
  Ok (set stat_id stat_dict stats_dict).

(** [scrape_stats_from_league] once the registry has given
    [has_adv_stats] and the page its tables.  Both operands of the test
    for the special case are evaluated, so the length of [None] is
    taken when no table matches. *)
Definition scrape_stats_from_league (sp : league_stat_patterns)
  (has_adv_stats : pystr) (all_tables : list table)
  : result (odict (odict (list pystr))) :=
  stat_ids <- get_stat_ids has_adv_stats ;;
  stat_patterns <- get_league_stat_patterns sp has_adv_stats ;;
  all_stat_tables <- get_tables_from_caption all_tables stat_patterns ;;
  tables <- of_option TypeError all_stat_tables ;;
  stat_ids <- (if str_eqb has_adv_stats (str "no")
                  && (List.length tables =? 4)
               then list_remove (str "passing") stat_ids
               else Ok stat_ids) ;;
  foldM (league_table_step sp stat_ids)
        (combine (seq 0 (List.length tables)) tables) [].

End FbrefTeamSeasonStatsScraper.

(* ================================================================== *)
(** * [FbrefLeaguesScraper] ([src/scraper/fbref_leagues_scraper.py]) *)
(* ================================================================== *)

Module FbrefLeaguesScraper.

Section Leagues.

Variable fb : float_builtins.











(** ** Scraping

    The expressions of the scraper, in the order in which it uses them:
    the captions of the domestic leagues and cups ([Domestic\sLeagues],
    [Domestic\sCups]) and of the national teams, the league identifier
    ([comps/(\d+)/]) and the two expressions for a competition name. *)
Record league_patterns : Type := mk_league_patterns {
  domestic_leagues_caption : pattern;
  domestic_cups_caption : pattern;
  mens_national_caption : pattern;
  womens_national_caption : pattern;
  league_id_pattern : pattern;
  league_name_patterns : list pattern
}.

Variable lp : league_patterns.

















End Leagues.


End FbrefLeaguesScraper.

(* ================================================================== *)
(** * [FbrefLeagueStandingsScraper]
      ([src/scraper/fbref_league_standings_scraper.py]) *)
(* ================================================================== *)

Module FbrefLeagueStandingsScraper.

(** The body of the loop of [clean_top_scorer] over the raw top scorers,
    on the lists [player] and [goals_scored]. *)
Definition top_scorer_step (st : list pyval * list pyval) (scorer : pyval)
  : result (list pyval * list pyval) :=
  let '(player, goals_scored) := st in
  match scorer with
  | PStr s =>
      let p_n := split "-" s in
      let names := join (str " ") (but_last p_n) in
      let player :=
        if 1 <? List.length (split "," names)
        then player ++ [PList (map PStr (split "," names))]
        else player ++ [PStr names] in
      match int_of_str (last p_n []) with
      | Some goals => Ok (player, goals_scored ++ [PInt goals])
      | None => Raise ValueError
      end
  | _ => Raise AttributeError
  end.

Definition clean_top_scorer (league_standings_data_dict : odict pyval)
  : result (odict pyval) :=
  let d := league_standings_data_dict in
  popped <- of_option KeyError (get (str "top_team_scorer") d) ;;
  let d := remove (str "top_team_scorer") d in
  let raw_top_scorer := [popped] in
  let d := set (str "raw_top_scorer") (PList raw_top_scorer) d in
  let d := set (str "top_team_scorer")
               (PDict [(str "player", PList []);
                       (str "goals_scored", PList [])]) d in
  st <- foldM top_scorer_step raw_top_scorer ([], []) ;;
  let '(player, goals_scored) := st in
  let d := remove (str "raw_top_scorer") d in
  let goals_value :=
    match goals_scored with
    | [g] => g
    | _ => PList goals_scored
    end in
  Ok (set (str "top_team_scorer")
          (PDict [(str "player", PList player);
                  (str "goals_scored", goals_value)]) d).

(** ** Cleaning a standings table *)

Section Standings.

Variable fb : float_builtins.

Definition standings_key_order : list pystr :=
  map str ["rk"; "team_name"; "team_id"; "mp"; "w"; "d"; "l"; "gf"; "ga";
           "gd"; "pts"; "pts/mp"; "xg"; "xga"; "xgd"; "xgd/90";
           "attendance"; "goalkeeper"; "top_team_scorer"]%string.

Definition convert_standings_dict_dtypes
  (league_standings_data_dict : odict (list pyval))
  : result (odict (list pyval)) :=
  let int_keys := map str ["rk"; "mp"; "w"; "d"; "l"; "gf"; "ga"; "pts"]%string in
  let float_keys := map str ["pts/mp"; "xg"; "xga"]%string in
  foldM (dtypes_step fb int_keys float_keys)
        (keys league_standings_data_dict) league_standings_data_dict.

Definition reorder_standings_dict_keys
  (league_standings_data_dict : odict (list pyval)) : odict (list pyval) :=
  reorder_dict_keys league_standings_data_dict standings_key_order.

(** The record of team [i]: every column indexed at [i]. *)
Definition team_record (columns : odict (list pyval)) (i : nat)
  : result (odict pyval) :=
  foldM (fun team_dict key =>
           column <- of_option KeyError (get key columns) ;;
           v <- of_option IndexError (nth_error column i) ;;
           Ok (set key v team_dict))
        (keys columns) [].

Definition change_league_standings_dict_orientation
  (league_standings_sub_data_dict : odict (list pyval))
  : result (list (odict pyval)) :=
  rk <- of_option KeyError (get (str "rk") league_standings_sub_data_dict) ;;
  let num_teams := List.length rk in
  mapM (team_record league_standings_sub_data_dict) (seq 0 num_teams).

(** The body of the loop of [clean_league_standings] for one standings
    table, up to the list of its records. *)
Definition clean_standings_table (sub_dict : odict (list pyval))
  : result (list (odict pyval)) :=
  sub_dict <- convert_standings_dict_dtypes sub_dict ;;
  let sub_dict :=
    match get (str "notes") sub_dict with
    | Some _ => remove (str "notes") sub_dict
    | None => sub_dict
    end in
  sub_dict <- match get (str "squad") sub_dict with
              | Some _ => rename_dict_key sub_dict (str "squad") (str "team_name")
              | None => Ok sub_dict
              end ;;
  names <- of_option KeyError (get (str "team_name") sub_dict) ;;
  cleaned <- mapM clean_team_name_value names ;;
  let sub_dict := set (str "team_name") cleaned sub_dict in
  let sub_dict := reorder_standings_dict_keys sub_dict in
  standings_list <- change_league_standings_dict_orientation sub_dict ;;
  mapM (fun d => match get (str "top_team_scorer") d with
                 | Some _ => clean_top_scorer d
                 | None => Ok d
                 end) standings_list.

(** One entry of the ['data'] list of [clean_league_standings]. *)
Record standings_group : Type := mk_standings_group {
  standings_type : pystr;
  standings : list (odict pyval)
}.

Definition clean_league_standings
  (league_standings_data_dict : odict (odict (list pyval)))
  : result (list standings_group) :=
  foldM (fun data key =>
           sub_dict <- of_option KeyError (get key league_standings_data_dict) ;;
           standings_list <- clean_standings_table sub_dict ;;
           Ok (data ++ [mk_standings_group key standings_list]))
        (keys league_standings_data_dict) [].

End Standings.

End FbrefLeagueStandingsScraper.

Import FbrefTeamMatchStatsScraper FbrefTeamSeasonStatsScraper.
Import FbrefLeaguesScraper FbrefLeagueStandingsScraper.

(* ================================================================== *)
(** * The expressions of the scrapers *)
(* ================================================================== *)

Module Patterns.

(** [\w] of [re] on one character: the letters, the digits and the other
    numeric characters below 256, and the underscore. *)
Definition is_word (c : ascii) : bool :=
  let n := nat_of_ascii c in
  ((48 <=? n) && (n <=? 57)) || ((65 <=? n) && (n <=? 90))
  || ((97 <=? n) && (n <=? 122)) || (n =? 95)
  || (n =? 170) || (n =? 178) || (n =? 179) || (n =? 181) || (n =? 185)
  || (n =? 186) || ((188 <=? n) && (n <=? 190))
  || ((192 <=? n) && (n <=? 214)) || ((216 <=? n) && (n <=? 246))
  || (248 <=? n).

(** The match of [squads/(\w{8})/] at the start of [s]: the literal text,
    exactly eight word characters, a slash. *)
Definition squad_id_at (s : pystr) : option (pystr * nat) :=
  if startswith (str "squads/") s
  then
    let rest := skipn 7 s in
    let id := firstn 8 rest in
    if (List.length id =? 8) && forallb is_word id
       && startswith (str "/") (skipn 8 rest)
    then Some (id, 16)
    else None
  else None.

(** [team_id_patterns] of the standings and the team-season scrapers,
    [opponent_id_patterns] of the team-match scraper. *)
Definition squad_id_pattern : pattern := scan squad_id_at 0.

(** The match of [Regular\sseason] at the start of [s]; the matched text
    is the value. *)
Definition regular_season_at (s : pystr) : option (pystr * nat) :=
  if startswith (str "Regular") s
  then
    match skipn 7 s with
    | c :: rest =>
        if is_space c && startswith (str "season") rest
        then Some (firstn 14 s, 14)
        else None
    | [] => None
    end
  else None.

(** Two of the patterns of [get_standings_tables_from_caption]. *)
Definition regular_season_pattern : pattern := scan regular_season_at 0.

Definition conference_pattern : pattern := literal (str "Conference").


(** The caption expressions of the stat tables: a circumflex, then
    letters, with [\s] between the words.  An atom is one character of
    the expression. *)
Inductive atom : Type :=
| Lit (c : ascii)
| Whitespace.

(** The match of the atoms at the first character of [s]. *)
Fixpoint match_atoms (atoms : list atom) (s : pystr) : option pystr :=
  match atoms, s with
  | [], _ => Some []
  | _ :: _, [] => None
  | a :: atoms', c :: s' =>
      if match a with
         | Lit x => Ascii.eqb c x
         | Whitespace => is_space c
         end
      then option_map (cons c) (match_atoms atoms' s')
      else None
  end.

(** [re.findall] of an expression anchored at the start of the string. *)
Definition anchored (atoms : list atom) : pattern :=
  fun s => match match_atoms atoms s with
           | Some m => [m]
           | None => []
           end.

(** The atoms of words separated by [\s]. *)
Fixpoint word_atoms (ws : list string) : list atom :=
  match ws with
  | [] => []
  | [w] => map Lit (str w)
  | w :: ws' => map Lit (str w) ++ Whitespace :: word_atoms ws'
  end.

(** The five expressions of [get_league_stat_patterns] for a league
    without advanced statistics. *)
Definition non_advanced_patterns : list pattern :=
  map (fun ws => anchored (word_atoms ws))
      [ ["Squad"; "Standard"]; ["Squad"; "Goalkeeping"];
        ["Squad"; "Shooting"]; ["Squad"; "Playing"; "Time"];
        ["Squad"; "Miscellaneous"] ]%string.

(** The eleven expressions for a league with advanced statistics. *)
Definition advanced_patterns : list pattern :=
  map (fun ws => anchored (word_atoms ws))
      [ ["Squad"; "Standard"]; ["Squad"; "Goalkeeping"];
        ["Squad"; "Advanced"; "Goalkeeping"]; ["Squad"; "Shooting"];
        ["Squad"; "Passing"]; ["Squad"; "Pass"; "Types"];
        ["Squad"; "Goal"; "and"; "Shot"; "Creation"];
        ["Squad"; "Defensive"; "Actions"]; ["Squad"; "Possession"];
        ["Squad"; "Playing"; "Time"]; ["Squad"; "Miscellaneous"] ]%string.

Definition league_page_patterns : league_stat_patterns :=
  mk_league_stat_patterns advanced_patterns non_advanced_patterns
                          squad_id_pattern.

End Patterns.

Import Patterns.

(* ================================================================== *)
(** * Specification-level definitions *)
(* ================================================================== *)

Module Spec.

(** The number of entries of [l] equal to [h]. *)
Definition occurrences (h : pystr) (l : list pystr) : nat :=
  List.length (filter (str_eqb h) l).

(** The name a header gets when [seen] are the headers before it: the
    bare name at its first occurrence, the name followed by the number of
    earlier occurrences at a repeat. *)
Definition numbered (seen : list pystr) (h : pystr) : pystr :=
  match occurrences h seen with
  | O => h
  | S k => h ++ str_of_nat (S k)
  end.

Fixpoint number_repeats (seen headers : list pystr) : list pystr :=
  match headers with
  | [] => []
  | h :: rest => numbered seen h :: number_repeats (seen ++ [h]) rest
  end.

(** ** Header counts *)

(** [header_count] holds, for every name, the number of its occurrences
    among the headers seen so far. *)
Definition counts (header_count : odict nat) (seen : list pystr) : Prop :=
  forall h, get h header_count =
            match occurrences h seen with
            | O => None
            | S k => Some (S k)
            end.

(** ** Totals rows *)

(** A row whose first cell contains the text Total. *)
Definition totals_row (r : list pystr) : Prop :=
  exists check cells, r = check :: cells /\ contains (str "Total") check = true.

(** A row with a first cell that does not contain the text Total. *)
Definition plain_row (r : list pystr) : Prop :=
  exists check cells, r = check :: cells /\ contains (str "Total") check = false.

(** [rows] does not end with a totals row: the block after it is maximal. *)
Definition ends_plain (rows : list (list pystr)) : Prop :=
  rows = [] \/ exists before r, rows = before ++ [r] /\ plain_row r.

(** A table of four rows that ends with two totals rows. *)
Definition totals_example : table :=
  mk_table (Some (str "Squad Standard Stats Table"))
    [ mk_row None [str "Squad"; str "Gls"] [];
      mk_row None [str "Arsenal"; str "3"] [Some (str "/en/squads/18bb7c10/")];
      mk_row None [str "Total"; str "3"] [];
      mk_row None [str "Total2"; str "3"] [] ].

(** ** Rows and columns *)

(** The cells at position [j] of the rows, in row order. *)
Definition column (j : nat) (rows : list (list pystr)) : list pystr :=
  map (fun r => nth j r []) rows.

(** The column-oriented mapping of [rows] under [headers]: the header at
    position [j], formatted and numbered, is given the cells at position
    [j]. *)
Definition columns_of (headers : list pystr) (rows : list (list pystr))
  : odict (list pystr) :=
  assign_all
    (combine (add_suffix_to_repeat_headers (map format_field headers))
             (map (fun j => column j rows) (seq 0 (List.length headers))))
    [].

(** The data rows that have as many cells as the header row. *)
Definition matching (header : row) (data : list row) : list row :=
  filter (fun r => List.length (row_cells r) =? List.length (row_cells header))
         data.

(** The table without the data rows that do not match its first row. *)
Definition without_mismatched (t : table) : table :=
  match table_rows t with
  | [] => t
  | header :: data => mk_table (caption t) (header :: matching header data)
  end.

(** A table whose second data row has one cell where the header has two. *)
Definition short_row_example : table :=
  mk_table (Some (str "Scores"))
    [ mk_row None [str "A"; str "B"] [];
      mk_row None [str "1"; str "2"] [];
      mk_row None [str "3"] [];
      mk_row None [str "4"; str "5"] [] ].

(** ** Identifiers embedded in URLs *)

(** The first match, in pattern order, of any pattern in [url]. *)
Definition first_match (patterns : list pattern) (url : pystr) : option pystr :=
  hd_error (flat_map (fun p => findall p url) patterns).

(** A match counts when it is not the empty string. *)
Definition truthy (o : option pystr) : option pystr :=
  match o with
  | Some (c :: s) => Some (c :: s)
  | _ => None
  end.

Fixpoint first_some {A B} (f : A -> option B) (l : list A) : option B :=
  match l with
  | [] => None
  | x :: rest =>
      match f x with
      | Some y => Some y
      | None => first_some f rest
      end
  end.

(** The item of a row: the first match of its first href that has one. *)
Definition row_item (patterns : list pattern) (r : row) : option pystr :=
  first_some (fun url => truthy (first_match patterns url)) (row_links r).

Definition has_item (patterns : list pattern) (r : row) : bool :=
  match row_item patterns r with
  | Some _ => true
  | None => false
  end.

(** The items of the rows that have one, in row order. *)
Definition items_of (patterns : list pattern) (rows : list row) : list pystr :=
  flat_map (fun r => match row_item patterns r with
                     | Some item => [item]
                     | None => []
                     end) rows.

(** Three rows; the first and the third link to a squad, the second has
    no link. *)
Definition ids_example : table :=
  mk_table (Some (str "Regular season Table"))
    [ mk_row None [str "Arsenal"; str "3"]
        [Some (str "/en/squads/18bb7c10/Arsenal-Stats")];
      mk_row None [str "Average"; str "2"] [];
      mk_row None [str "Chelsea"; str "1"]
        [Some (str "/en/squads/cff3d9bb/Chelsea-Stats")] ].

(** ** Captions *)

(** What [re.findall] gives for pattern [p] on the name of [t]. *)
Definition caption_match (p : pattern) (t : table) : list pystr :=
  match get_table_name t true with
  | Some name => findall p name
  | None => []
  end.

(** Table [t] yields the match value [v] under some pattern. *)
Definition yields (patterns : list pattern) (t : table) (v : list pystr)
  : Prop :=
  v <> [] /\ exists p, In p patterns /\ caption_match p t = v.

(** [t] is the first table of [tables], in document order, to yield [v]. *)
Definition first_yielding (tables : list table) (patterns : list pattern)
  (t : table) (v : list pystr) : Prop :=
  exists before after,
    tables = before ++ t :: after
    /\ yields patterns t v
    /\ forall t', In t' before -> ~ yields patterns t' v.

(** The non-empty match of one table under one pattern. *)
Definition hit (t : table) (p : pattern) : list (table * list pystr) :=
  match caption_match p t with
  | [] => []
  | v => [(t, v)]
  end.

(** The matches in the order of the two loops. *)
Definition hits (tables : list table) (patterns : list pattern)
  : list (table * list pystr) :=
  flat_map (fun t => flat_map (hit t) patterns) tables.

(** The state [(tables, table_names)] after the matches [hs]. *)
Definition extend (st : list table * list (list pystr))
  (hs : list (table * list pystr)) : list table * list (list pystr) :=
  fold_left (fun st h =>
               if match_in (snd h) (snd st) then st
               else (fst st ++ [fst h], snd st ++ [snd h])) hs st.

(** The selection agrees with the matches [done] seen so far. *)
Definition selection_ok (st : list table * list (list pystr))
  (done : list (table * list pystr)) : Prop :=
  List.length (fst st) = List.length (snd st)
  /\ NoDup (snd st)
  /\ (forall t v, In (t, v) (combine (fst st) (snd st)) ->
                  exists h1 h2, done = h1 ++ (t, v) :: h2
                                /\ ~ In v (map snd h1))
  /\ (forall t v, In (t, v) done -> In v (snd st)).

(** Two standings tables: the caption of the second contains the text
    that the first one is selected for, and one more. *)
Definition regular_season_table : table :=
  mk_table (Some (str "Regular season Table")) [].

Definition conference_table : table :=
  mk_table (Some (str "Regular season Eastern Conference Table")) [].

(** A table without caption. *)
Definition captionless_table : table := mk_table None [].

(** ** Type coercion *)







(** The [convert_to] argument that [convert_dict_dtypes] passes for the
    column [k]; the empty text stands for no conversion. *)
Definition convert_to_of (int_keys float_keys : list pystr) (k : pystr)
  : pystr :=
  if str_in k int_keys then str "int"
  else if str_in k float_keys then str "float"
  else [].

(** Float conversions for the examples: the strings of decimal digits
    below [2^53], which are floats exactly. *)
Definition small_float_of_str (s : pystr) : option float :=
  match s with
  | [] => None
  | _ :: _ =>
      if forallb is_digit s && (decimal_value s <? 9007199254740992)%Z
      then Some (PrimFloat.of_uint63 (Uint63.of_Z (decimal_value s)))
      else None
  end.

Definition example_builtins : float_builtins :=
  mk_float_builtins small_float_of_str
    (fun _ => Raise OverflowError) (fun _ => Raise OverflowError).


(** ** Shoot-out scores *)

(** A non-empty run of digits. *)
Definition digits (s : pystr) : Prop := s <> [] /\ forallb is_digit s = true.




(** A match-log mapping with a shoot-out result. *)
Definition shootout_example : odict (list pyval) :=
  [ (str "date", [PStr (str "2023-05-01"); PStr (str "2023-05-08")]);
    (str "gf", [PStr (str "2"); PStr (str "1 (4)")]);
    (str "ga", [PStr (str "0"); PStr (str "1 (3)")]) ].

(** ** Top scorers *)

(** The text [s] does not contain the character [c]. *)
Definition without_char (c : ascii) (s : pystr) : Prop :=
  forallb (fun x => negb (Ascii.eqb x c)) s = true.



(** ** Reassembly *)

(** The value that the reassembly stores for field [f] of [category] at
    row [i]: the cell, or [None] when there is none. *)
Definition cell_or_none (category : odict (list pyval)) (f : pystr) (i : nat)
  : pyval :=
  match cell_at category f i with
  | Some v => v
  | None => PNone
  end.

Definition has_cell (category : odict (list pyval)) (f : pystr) (i : nat)
  : bool :=
  match cell_at category f i with
  | Some _ => true
  | None => false
  end.

(** The body of the loop over the categories, on an entry of the
    dictionary instead of its key. *)
Definition entry_step (meta_names : list pystr) (i : nat) (st : record_state)
  (entry : pystr * odict (list pyval)) : record_state :=
  let '(meta, all_stats, used_cols) := st in
  let '(meta', sub, used_cols') :=
    fold_left (field_step meta_names (snd entry) i) (keys (snd entry))
              (meta, [], used_cols) in
  (meta', set (fst entry) sub all_stats, used_cols').

(** Two categories of a team's match log that both hold the date. *)
Definition two_categories : odict (odict (list pyval)) :=
  [ (str "schedule",
     [ (str "match_id", [PStr (str "a1b2c3d4")]);
       (str "date", [PStr (str "2023-05-01")]);
       (str "gf", [PInt 2]) ]);
    (str "keeper",
     [ (str "date", [PStr (str "2023-05-02")]);
       (str "gf", [PInt 9]);
       (str "saves", [PInt 3]) ]) ].

Definition two_meta_names : list pystr := [str "match_id"; str "date"].

(** The characters of a decimal number, most significant digit first. *)
Definition uint_chars (d : Decimal.uint) : pystr :=
  list_ascii_of_string (NilEmpty.string_of_uint d).

(** A flat mapping of two list columns and one scalar, and its rows. *)
Definition orientation_example : odict pyval :=
  [ (str "league_id", PList [PInt 9; PInt 12]);
    (str "league_name", PList [PStr (str "Premier League"); PStr (str "La Liga")]);
    (str "gender", PStr (str "M")) ].

Definition orientation_example_rows : list (odict pyval) :=
  [ [ (str "league_id", PInt 9);
      (str "league_name", PStr (str "Premier League"));
      (str "gender", PStr (str "M")) ];
    [ (str "league_id", PInt 12);
      (str "league_name", PStr (str "La Liga"));
      (str "gender", PStr (str "M")) ] ].

(** A league page without advanced statistics that has four of the five
    squad tables: the shooting table is missing. *)
Definition four_tables_page : list table :=
  [ mk_table (Some (str "Squad Standard Stats Table")) [];
    mk_table (Some (str "League Table")) [];
    mk_table (Some (str "Squad Goalkeeping Table")) [];
    mk_table (Some (str "Squad Playing Time Table")) [];
    mk_table (Some (str "Squad Miscellaneous Stats Table")) [] ].

(** A squad table: a row of column groups, the header row and one row
    per team, with the link of the team. *)
Definition squad_table (name : string) (header : string) : table :=
  mk_table (Some (str name))
    [ mk_row None [str ""; str "Playing Time"] [];
      mk_row None [str "Squad"; str header] [];
      mk_row None [str "Arsenal"; str "38"]
             [Some (str "/en/squads/18bb7c10/Arsenal-Stats")];
      mk_row None [str "Chelsea"; str "37"]
             [Some (str "/en/squads/cff3d9bb/Chelsea-Stats")] ].

(** A page whose goalkeeping table is missing. *)
Definition two_tables_page : list table :=
  [ squad_table "Squad Standard Stats Table" "MP";
    squad_table "Squad Shooting Table" "Sh" ].

Definition two_tables_stats : odict (odict (list pystr)) :=
  [ (str "stats",
     [ (str "squad", [str "Arsenal"; str "Chelsea"]);
       (str "mp", [str "38"; str "37"]);
       (str "team_id", [str "18bb7c10"; str "cff3d9bb"]) ]);
    (str "keepers",
     [ (str "squad", [str "Arsenal"; str "Chelsea"]);
       (str "sh", [str "38"; str "37"]);
       (str "team_id", [str "18bb7c10"; str "cff3d9bb"]) ]) ].

End Spec.

Import Spec.

(* ================================================================== *)
(** * Properties *)
(* ================================================================== *)

(** ** Strings and dictionaries *)

Section PyFacts.

Lemma str_eqb_refl (a : pystr) : str_eqb a a = true.
Proof.
  induction a as [|c a IH]; simpl; [reflexivity|].
  now rewrite Ascii.eqb_refl, IH.
Qed.

Lemma str_eqb_eq (a b : pystr) : str_eqb a b = true <-> a = b.
Proof.
  split.
  - revert b; induction a as [|c a IH]; intros [|d b]; simpl;
      try discriminate; try reflexivity.
    intros H. apply andb_true_iff in H as [Hc Hr].
    apply Ascii.eqb_eq in Hc. apply IH in Hr. now subst.
  - intros ->. apply str_eqb_refl.
Qed.

Lemma str_eqb_neq (a b : pystr) : str_eqb a b = false <-> a <> b.
Proof.
  split.
  - intros H E. subst. now rewrite str_eqb_refl in H.
  - intros H. destruct (str_eqb a b) eqn:E; [|reflexivity].
    apply str_eqb_eq in E. contradiction.
Qed.

Lemma strs_eqb_eq (a b : list pystr) : strs_eqb a b = true <-> a = b.
Proof.
  split.
  - revert b; induction a as [|x a IH]; intros [|y b]; simpl;
      try discriminate; try reflexivity.
    intros H. apply andb_true_iff in H as [Hx Hr].
    apply str_eqb_eq in Hx. apply IH in Hr. now subst.
  - intros ->. induction b as [|y b IH]; simpl; [reflexivity|].
    now rewrite str_eqb_refl, IH.
Qed.

Lemma str_in_In (x : pystr) (l : list pystr) : str_in x l = true <-> In x l.
Proof.
  unfold str_in. rewrite existsb_exists. split.
  - intros [y [Hy E]]. apply str_eqb_eq in E. now subst.
  - intros H. exists x. split; [assumption | apply str_eqb_refl].
Qed.

Lemma str_in_not_In (x : pystr) (l : list pystr) :
  str_in x l = false <-> ~ In x l.
Proof.
  rewrite <- str_in_In. destruct (str_in x l); split; congruence.
Qed.

Variable V : Type.

Lemma get_set_same (k : pystr) (v : V) (d : odict V) :
  get k (set k v d) = Some v.
Proof.
  induction d as [|[k' v'] d IH]; simpl.
  - now rewrite str_eqb_refl.
  - destruct (str_eqb k k') eqn:E; simpl; rewrite E; [reflexivity | exact IH].
Qed.

Lemma get_set_other (k k0 : pystr) (v : V) (d : odict V) :
  k0 <> k -> get k0 (set k v d) = get k0 d.
Proof.
  intros Hne. induction d as [|[k' v'] d IH]; simpl.
  - apply str_eqb_neq in Hne. now rewrite Hne.
  - destruct (str_eqb k k') eqn:E; simpl.
    + apply str_eqb_eq in E. subst k'.
      apply str_eqb_neq in Hne. now rewrite Hne.
    + destruct (str_eqb k0 k'); [reflexivity | exact IH].
Qed.

Lemma get_In_keys (k : pystr) (d : odict V) :
  get k d <> None <-> In k (keys d).
Proof.
  induction d as [|[k' v'] d IH]; simpl.
  - split; [congruence | tauto].
  - destruct (str_eqb k k') eqn:E.
    + apply str_eqb_eq in E. subst. split; [auto | congruence].
    + apply str_eqb_neq in E. rewrite IH. split; [auto|].
      intros [H|H]; [congruence | assumption].
Qed.

Lemma get_None_keys (k : pystr) (d : odict V) :
  get k d = None <-> ~ In k (keys d).
Proof.
  rewrite <- get_In_keys. destruct (get k d) as [v|].
  - split; [discriminate|]. intros H. exfalso. apply H. discriminate.
  - split; [intros _ H; now apply H | reflexivity].
Qed.

Lemma keys_set_in (k : pystr) (v : V) (d : odict V) :
  In k (keys d) -> keys (set k v d) = keys d.
Proof.
  induction d as [|[k' v'] d IH]; simpl; [tauto|].
  intros H. destruct (str_eqb k k') eqn:E; simpl; [reflexivity|].
  apply str_eqb_neq in E. f_equal. apply IH.
  destruct H as [H|H]; [congruence | assumption].
Qed.

End PyFacts.

(** ** Header de-duplication *)

Section HeaderDedup.

Lemma occurrences_snoc (h x : pystr) (seen : list pystr) :
  occurrences h (seen ++ [x]) =
  occurrences h seen + (if str_eqb h x then 1 else 0).
Proof.
  unfold occurrences. rewrite filter_app, length_app. simpl.
  destruct (str_eqb h x); reflexivity.
Qed.

Lemma suffix_step_counts (hc : odict nat) (res seen : list pystr) (h : pystr) :
  counts hc seen ->
  exists hc',
    suffix_step (hc, res) h = (hc', res ++ [numbered seen h]) /\
    counts hc' (seen ++ [h]).
Proof.
  intros Hc. unfold suffix_step, numbered. pose proof (Hc h) as Hh.
  destruct (occurrences h seen) as [|k] eqn:Eo; rewrite Hh.
  - eexists; split; [reflexivity|]. intros x.
    rewrite occurrences_snoc. destruct (str_eqb x h) eqn:E.
    + apply str_eqb_eq in E. subst x. rewrite get_set_same, Eo. reflexivity.
    + apply str_eqb_neq in E. rewrite get_set_other by assumption.
      rewrite Hc, Nat.add_0_r. reflexivity.
  - eexists; split.
    + replace (S k + 1 - 1) with (S k) by lia. reflexivity.
    + intros x. rewrite occurrences_snoc. destruct (str_eqb x h) eqn:E.
      * apply str_eqb_eq in E. subst x. rewrite get_set_same, Eo.
        replace (S k + 1) with (S (S k)) by lia. reflexivity.
      * apply str_eqb_neq in E. rewrite get_set_other by assumption.
        rewrite Hc, Nat.add_0_r. reflexivity.
Qed.

Lemma suffix_loop_refines (headers : list pystr) :
  forall hc res seen,
    counts hc seen ->
    snd (fold_left suffix_step headers (hc, res)) =
    res ++ number_repeats seen headers.
Proof.
  induction headers as [|h rest IH]; intros hc res seen Hc; cbn [fold_left].
  - simpl. now rewrite app_nil_r.
  - destruct (suffix_step_counts res h Hc) as [hc' [Hs Hc']].
    rewrite Hs, (IH _ _ _ Hc'), <- app_assoc. reflexivity.
Qed.

Lemma add_suffix_refines (headers : list pystr) :
  add_suffix_to_repeat_headers headers = number_repeats [] headers.
Proof.
  unfold add_suffix_to_repeat_headers.
  apply (@suffix_loop_refines headers [] [] []).
  intros h. reflexivity.
Qed.

Lemma number_repeats_length (headers seen : list pystr) :
  List.length (number_repeats seen headers) = List.length headers.
Proof.
  revert seen; induction headers as [|h rest IH]; intros seen; simpl;
    [reflexivity | now rewrite IH].
Qed.

Lemma number_repeats_nth (pre : list pystr) :
  forall seen h post,
    nth_error (number_repeats seen (pre ++ h :: post)) (List.length pre) =
    Some (numbered (seen ++ pre) h).
Proof.
  induction pre as [|x pre IH]; intros seen h post; simpl.
  - now rewrite app_nil_r.
  - rewrite IH, <- app_assoc. reflexivity.
Qed.

(** C9.  [add_suffix_to_repeat_headers] keeps the length of the header
    list; the header at any position keeps its bare name when the name does
    not occur before it, and otherwise gets the number of its earlier
    occurrences (1 for the second occurrence, 2 for the third, ...) as a
    suffix; the headers gls, gls, ast become gls, gls1, ast. *)
Theorem add_suffix_to_repeat_headers_numbers_repeats :
  (forall headers,
      List.length (add_suffix_to_repeat_headers headers) = List.length headers)
  /\ (forall pre h post,
         nth_error (add_suffix_to_repeat_headers (pre ++ h :: post))
                   (List.length pre)
         = Some (match occurrences h pre with
                 | O => h
                 | S k => h ++ str_of_nat (S k)
                 end))
  /\ add_suffix_to_repeat_headers [str "gls"; str "gls"; str "ast"]
     = [str "gls"; str "gls1"; str "ast"].
Proof.
  split; [|split].
  - intros headers. rewrite add_suffix_refines. apply number_repeats_length.
  - intros pre h post. rewrite add_suffix_refines, number_repeats_nth.
    reflexivity.
  - reflexivity.
Qed.

End HeaderDedup.

(** ** Totals rows *)

Section Totals.








End Totals.


(** ** Rows of unequal length *)

Section RowLength.

Lemma heads_uniform (rest : list (list pystr)) (n : nat) :
  Forall (fun r => List.length r = S n) rest ->
  heads rest = Some (column 0 rest).
Proof.
  induction 1 as [|r rest Hr _ IH]; simpl; [reflexivity|].
  destruct r as [|x r]; [discriminate|]. now rewrite IH.
Qed.

Lemma column_S_tl (j : nat) (rows : list (list pystr)) :
  column (S j) rows = column j (map (@tl pystr) rows).
Proof.
  unfold column. rewrite map_map. apply map_ext.
  intros [|x r]; simpl; [now destruct j | reflexivity].
Qed.

Lemma zip_with_first_uniform (first : list pystr) :
  forall rest,
    Forall (fun r => List.length r = List.length first) rest ->
    zip_with_first first rest =
    map (fun j => column j (first :: rest)) (seq 0 (List.length first)).
Proof.
  induction first as [|x first IH]; intros rest H; [reflexivity|].
  cbn [zip_with_first List.length seq map].
  rewrite (heads_uniform H). f_equal.
  rewrite IH.
  - rewrite <- seq_shift, map_map. apply map_ext. intros j.
    now rewrite (column_S_tl j ((x :: first) :: rest)).
  - apply Forall_map. revert H. apply Forall_impl.
    intros [|y r]; simpl; [discriminate | congruence].
Qed.

(** Rows that all have the length of the header row are transposed:
    nothing is lost. *)
Lemma convert_uniform_rows (headers : list pystr) (rows : list (list pystr)) :
  rows <> [] ->
  Forall (fun r => List.length r = List.length headers) rows ->
  convert_row_data_to_dict (headers :: rows) = Ok (columns_of headers rows).
Proof.
  intros Hne H. unfold convert_row_data_to_dict, columns_of.
  destruct rows as [|first rest]; [contradiction|].
  pose proof (Forall_inv H) as Hfirst. apply Forall_inv_tail in H.
  cbn [zip_star]. rewrite zip_with_first_uniform.
  - now rewrite Hfirst.
  - revert H. apply Forall_impl. intros r Hr. congruence.
Qed.

Lemma filter_all_true {A} (f : A -> bool) (l : list A) :
  Forall (fun x => f x = true) l -> filter f l = l.
Proof.
  induction 1 as [|x l Hx _ IH]; simpl; [reflexivity|].
  now rewrite Hx, IH.
Qed.

Lemma matching_cells (header : row) (data : list row) :
  Forall (fun r => List.length r = List.length (row_cells header))
         (map row_cells (matching header data)).
Proof.
  apply Forall_map, Forall_forall. intros r Hr.
  apply filter_In in Hr as [_ Hr]. now apply Nat.eqb_eq in Hr.
Qed.

(** C4, as amended.  In [parse_stat_table_data], a data row whose number
    of cells differs from the header row's is dropped, and the other data
    rows are parsed into the column-oriented mapping, one entry per
    surviving row and in the original order.  [skipped] is the leading row
    that [skip_row] passes over. *)
Theorem parse_stat_table_data_drops_mismatched_rows
  (t : table) (skip_row : bool) (skipped : list row) (header : row)
  (data : list row) :
  parse_table_rows t = skipped ++ header :: data ->
  List.length skipped = (if skip_row then 1 else 0) ->
  matching header data <> [] ->
  parse_stat_table_data t skip_row 0 false =
  Ok (columns_of (row_cells header) (map row_cells (matching header data))).
Proof.
  intros Ht Hs Hne.
  assert (Hrows : parse_stat_table_rows t skip_row
                  = Ok (header :: matching header data)).
  { unfold parse_stat_table_rows. rewrite Ht.
    destruct skip_row; destruct skipped as [|s [|s' skipped]];
      try discriminate; reflexivity. }
  unfold parse_stat_table_data. rewrite Hrows. cbn [bind Z.ltb Z.compare].
  unfold drop_mismatched, parse_all_row_data. cbn [map bind filter].
  unfold parse_row_data at 1 2. rewrite Nat.eqb_refl.
  rewrite filter_all_true.
  - apply convert_uniform_rows.
    + destruct (matching header data); [contradiction | discriminate].
    + apply matching_cells.
  - pose proof (matching_cells header data) as H. revert H.
    apply Forall_impl. intros r Hr. now apply Nat.eqb_eq.
Qed.

End RowLength.

(** The stat parser on [short_row_example]: the short row is gone. *)
Lemma parse_stat_table_data_drops_mismatched_rows_witness :
  parse_stat_table_data short_row_example false 0 false
  = Ok [(str "a", [str "1"; str "4"]); (str "b", [str "2"; str "5"])].
Proof.
  apply (@parse_stat_table_data_drops_mismatched_rows short_row_example false []
           (mk_row None [str "A"; str "B"] [])
           [ mk_row None [str "1"; str "2"] [];
             mk_row None [str "3"] [];
             mk_row None [str "4"; str "5"] [] ]).
  - reflexivity.
  - reflexivity.
  - discriminate.
Defined.

(** C4, as stated, fails for [parse_table_data]: on [short_row_example]
    the short row is kept, every row is cut to its length and the column
    [b] is lost, where the claim expects the mapping of the table without
    the short row. *)
Lemma parse_table_data_keeps_mismatched_row :
  parse_table_data short_row_example false 0 false
  = Ok [(str "a", [str "1"; str "3"; str "4"])]
  /\ parse_table_data (without_mismatched short_row_example) false 0 false
     = Ok [(str "a", [str "1"; str "4"]); (str "b", [str "2"; str "5"])]
  /\ parse_table_data short_row_example false 0 false
     <> parse_table_data (without_mismatched short_row_example) false 0 false.
Proof.
  split; [reflexivity | split; [reflexivity | discriminate]].
Qed.

(** ** Identifiers embedded in URLs *)

Section UrlItems.

Variable patterns : list pattern.

Lemma pattern_loop_bound (url : pystr) (ps : list pattern) (m : list pystr) :
  pattern_loop ps url (Some m) = Ok (first_match ps url).
Proof.
  revert m. induction ps as [|p ps IH]; intros m; [reflexivity|].
  unfold first_match in *. cbn [pattern_loop flat_map].
  destruct (findall p url) as [|item rest]; [apply IH | reflexivity].
Qed.

Lemma parse_pattern_from_url_first_match (url : pystr) :
  patterns <> [] ->
  parse_pattern_from_url patterns url = Ok (first_match patterns url).
Proof.
  unfold parse_pattern_from_url. destruct patterns as [|p ps]; [congruence|].
  intros _. unfold first_match. cbn [pattern_loop flat_map].
  destruct (findall p url) as [|item rest] eqn:E; [|reflexivity].
  rewrite pattern_loop_bound. reflexivity.
Qed.

Lemma href_loop_first (hrefs : list pystr) :
  patterns <> [] ->
  href_loop patterns hrefs =
  Ok (first_some (fun url => truthy (first_match patterns url)) hrefs).
Proof.
  intros Hne. induction hrefs as [|href hrefs IH]; [reflexivity|].
  cbn [href_loop first_some].
  rewrite parse_pattern_from_url_first_match by assumption. cbn [bind].
  destruct (first_match patterns href) as [[|c i]|]; simpl; try exact IH.
  reflexivity.
Qed.

Lemma items_loop (rows : list row) :
  patterns <> [] ->
  forall items,
    foldM (items_step patterns) rows items =
    Ok (items ++ items_of patterns rows).
Proof.
  intros Hne. induction rows as [|r rows IH]; intros items.
  - simpl. now rewrite app_nil_r.
  - cbn [foldM]. unfold items_step at 1.
    rewrite href_loop_first by assumption. cbn [bind].
    unfold items_of. cbn [flat_map]. fold (items_of patterns rows).
    unfold row_item.
    destruct (first_some _ (row_links r)) as [item|].
    + rewrite IH, <- app_assoc. reflexivity.
    + rewrite IH. reflexivity.
Qed.

Lemma items_of_length (rows : list row) :
  List.length (items_of patterns rows)
  = List.length (filter (has_item patterns) rows)
  /\ List.length (items_of patterns rows) <= List.length rows.
Proof.
  induction rows as [|r rows [IH1 IH2]]; [split; reflexivity|].
  unfold items_of, has_item in *. cbn [flat_map filter].
  destruct (row_item patterns r); simpl; split; lia.
Qed.

(** C1, as amended.  With at least one pattern, both extractors return
    the items of the rows that have a matching href, in row order; a row
    without one contributes no entry, so the list has as many entries as
    there are rows with a match, at most the number of rows. *)
Theorem get_all_items_one_entry_per_matching_row (t : table) :
  patterns <> [] ->
  get_all_items_from_table_urls t patterns
  = Ok (items_of patterns (parse_table_rows t))
  /\ (forall skip_row rows,
         parse_stat_table_rows t skip_row = Ok rows ->
         get_all_items_from_stat_table_urls t patterns skip_row
         = Ok (items_of patterns rows))
  /\ (forall rows,
         List.length (items_of patterns rows)
         = List.length (filter (has_item patterns) rows)
         /\ List.length (items_of patterns rows) <= List.length rows).
Proof.
  intros Hne. split; [|split].
  - unfold get_all_items_from_table_urls.
    now rewrite items_loop.
  - intros skip_row rows Hrows.
    unfold get_all_items_from_stat_table_urls. rewrite Hrows. cbn [bind].
    now rewrite items_loop.
  - apply items_of_length.
Qed.

End UrlItems.

(** On [ids_example] the squad identifiers of the first and third rows
    are returned. *)
Lemma get_all_items_one_entry_per_matching_row_witness :
  get_all_items_from_table_urls ids_example [squad_id_pattern]
  = Ok [str "18bb7c10"; str "cff3d9bb"].
Proof.
  apply (@get_all_items_one_entry_per_matching_row
           [squad_id_pattern] ids_example).
  discriminate.
Defined.

(** C1, as stated, fails: [ids_example] has three rows, of which the
    second has no link; both extractors return two entries, and no entry
    stands for the second row. *)
Lemma get_all_items_skips_rows_without_match :
  List.length (parse_table_rows ids_example) = 3
  /\ get_all_items_from_table_urls ids_example [squad_id_pattern]
     = Ok [str "18bb7c10"; str "cff3d9bb"]
  /\ parse_stat_table_rows ids_example false = Ok (table_rows ids_example)
  /\ get_all_items_from_stat_table_urls ids_example [squad_id_pattern] false
     = Ok [str "18bb7c10"; str "cff3d9bb"]
  /\ ~ (exists items,
          get_all_items_from_table_urls ids_example [squad_id_pattern]
          = Ok items
          /\ List.length items = List.length (parse_table_rows ids_example)).
Proof.
  split; [reflexivity|]. split; [reflexivity|]. split; [reflexivity|].
  split; [reflexivity|].
  intros (items & Hitems & Hlen).
  assert (E : get_all_items_from_table_urls ids_example [squad_id_pattern]
              = Ok [str "18bb7c10"; str "cff3d9bb"]) by reflexivity.
  rewrite E in Hitems. inversion Hitems; subst items. discriminate Hlen.
Qed.

(** ** Tables by caption *)

Section Captions.

Variable patterns : list pattern.

Lemma match_in_In (v : list pystr) (l : list (list pystr)) :
  match_in v l = true <-> In v l.
Proof.
  unfold match_in. rewrite existsb_exists. split.
  - intros [w [Hw E]]. apply strs_eqb_eq in E. now subst.
  - intros H. exists v. split; [assumption | now apply strs_eqb_eq].
Qed.

Lemma NoDup_snoc {A} (l : list A) (x : A) :
  NoDup l -> ~ In x l -> NoDup (l ++ [x]).
Proof.
  intros Hnd Hx. induction Hnd as [|y l Hy Hnd IH]; simpl.
  - constructor; [intros [] | constructor].
  - constructor.
    + intros Hin. apply in_app_or in Hin as [Hin|[Hin|[]]]; [tauto|].
      subst. apply Hx. now left.
    + apply IH. intros Hin. apply Hx. now right.
Qed.

Lemma combine_snoc {A B} (l : list A) (l' : list B) (x : A) (y : B) :
  List.length l = List.length l' ->
  combine (l ++ [x]) (l' ++ [y]) = combine l l' ++ [(x, y)].
Proof.
  revert l'. induction l as [|a l IH]; intros [|b l'] H; simpl in *;
    try discriminate; [reflexivity|].
  f_equal. apply IH. congruence.
Qed.

Lemma extend_app (st : list table * list (list pystr))
  (a b : list (table * list pystr)) :
  extend st (a ++ b) = extend (extend st a) b.
Proof. unfold extend. apply fold_left_app. Qed.

Lemma caption_step_extend (t : table) (st : list table * list (list pystr))
  (p : pattern) :
  caption t <> None ->
  caption_step t st p = Ok (extend st (hit t p)).
Proof.
  intros Hc. destruct st as [ts names].
  unfold caption_step, hit, caption_match, get_table_name.
  destruct (caption t) as [text|]; [|congruence].
  match goal with
  | |- context [if ?b then Some ?x else Some ?y] =>
      replace (if b then Some x else Some y)
        with (Some (if b then x else y)) by (destruct b; reflexivity);
      generalize (if b then x else y); intros name
  end.
  destruct (findall p name) as [|v vs]; [reflexivity|].
  unfold extend. cbn [fold_left fst snd].
  destruct (match_in (v :: vs) names); reflexivity.
Qed.

Lemma pattern_loop_extend (t : table) (ps : list pattern) :
  caption t <> None ->
  forall st,
    foldM (caption_step t) ps st = Ok (extend st (flat_map (hit t) ps)).
Proof.
  intros Hc. induction ps as [|p ps IH]; intros st; [reflexivity|].
  cbn [foldM flat_map]. rewrite caption_step_extend by assumption.
  rewrite IH, extend_app. reflexivity.
Qed.

Lemma table_loop_extend (tables : list table) :
  Forall (fun t => caption t <> None) tables ->
  forall st,
    foldM (fun st t => foldM (caption_step t) patterns st) tables st
    = Ok (extend st (hits tables patterns)).
Proof.
  induction 1 as [|t tables Ht _ IH]; intros st; [reflexivity|].
  cbn [foldM]. rewrite pattern_loop_extend by assumption.
  unfold hits in *. cbn [flat_map]. rewrite IH, extend_app. reflexivity.
Qed.

Lemma selection_ok_extend (hs : list (table * list pystr)) :
  forall st done,
    selection_ok st done -> selection_ok (extend st hs) (done ++ hs).
Proof.
  induction hs as [|[t v] hs IH]; intros [ts names] done Hok.
  - simpl. now rewrite app_nil_r.
  - replace (done ++ (t, v) :: hs) with ((done ++ [(t, v)]) ++ hs)
      by now rewrite <- app_assoc.
    unfold extend. cbn [fold_left fst snd]. apply IH.
    destruct Hok as (Hlen & Hnd & Hfirst & Hall). cbn [fst snd] in *.
    destruct (match_in v names) eqn:Ev.
    + apply match_in_In in Ev.
      repeat split; cbn [fst snd]; try assumption.
      * intros t' v' Hin. destruct (Hfirst _ _ Hin) as (h1 & h2 & -> & Hn).
        exists h1, (h2 ++ [(t, v)]). split; [|assumption].
        now rewrite <- app_assoc.
      * intros t' v' Hin. apply in_app_or in Hin as [Hin|[Hin|[]]].
        -- eapply Hall; eassumption.
        -- now inversion Hin; subst.
    + assert (Hv : ~ In v names).
      { intros Hin. apply match_in_In in Hin. congruence. }
      repeat split; cbn [fst snd].
      * rewrite !length_app. simpl. lia.
      * now apply NoDup_snoc.
      * intros t' v' Hin.
        rewrite combine_snoc in Hin by assumption.
        apply in_app_or in Hin as [Hin|[Hin|[]]].
        -- destruct (Hfirst _ _ Hin) as (h1 & h2 & -> & Hn).
           exists h1, (h2 ++ [(t, v)]). split; [|assumption].
           now rewrite <- app_assoc.
        -- inversion Hin; subst t' v'. exists done, []. split; [reflexivity|].
           intros Hin'. apply in_map_iff in Hin' as [[t0 v0] [E Hin']].
           simpl in E. subst v0. apply Hv. eapply Hall; eassumption.
      * intros t' v' Hin. apply in_app_or in Hin as [Hin|[Hin|[]]].
        -- apply in_or_app. left. eapply Hall; eassumption.
        -- inversion Hin; subst. apply in_or_app. right. now left.
Qed.

Lemma in_hits (tables : list table) (t : table) (v : list pystr) :
  In (t, v) (hits tables patterns) <-> In t tables /\ yields patterns t v.
Proof.
  unfold hits, yields. rewrite in_flat_map. split.
  - intros [t0 [Ht0 Hin]]. apply in_flat_map in Hin as [p [Hp Hin]].
    unfold hit in Hin. destruct (caption_match p t0) as [|w ws] eqn:E;
      [contradiction|].
    destruct Hin as [Hin|[]]. inversion Hin; subst.
    split; [assumption|]. split; [discriminate|]. now exists p.
  - intros [Ht [Hne [p [Hp E]]]]. exists t. split; [assumption|].
    apply in_flat_map. exists p. split; [assumption|].
    unfold hit. rewrite E. destruct v; [congruence | now left].
Qed.

Lemma hits_split (tables : list table) (t : table) (v : list pystr)
  (h1 h2 : list (table * list pystr)) :
  hits tables patterns = h1 ++ (t, v) :: h2 ->
  exists before after,
    tables = before ++ t :: after
    /\ forall t' v', In (t', v') (hits before patterns) -> In (t', v') h1.
Proof.
  revert h1. induction tables as [|a tables IH]; intros h1 H.
  - destruct h1; discriminate.
  - unfold hits in H. cbn [flat_map] in H.
    fold (hits tables patterns) in H.
    assert (Hcase :
      (exists p2, flat_map (hit a) patterns = h1 ++ (t, v) :: p2)
      \/ (exists h1', h1 = flat_map (hit a) patterns ++ h1'
                      /\ hits tables patterns = h1' ++ (t, v) :: h2)).
    { clear IH. revert h1 H.
      induction (flat_map (hit a) patterns) as [|x xs IHx]; intros h1 H.
      - right. now exists h1.
      - destruct h1 as [|y h1]; simpl in H.
        + left. exists xs. now inversion H.
        + inversion H; subst y.
          destruct (IHx h1 H2) as [[p2 E]|[h1' [E1 E2]]].
          * left. exists p2. simpl. now rewrite E.
          * right. exists h1'. split; [simpl; now rewrite E1 | assumption]. }
    destruct Hcase as [[p2 E]|[h1' [E1 E2]]].
    + exists [], tables. split.
      * simpl. f_equal.
        assert (Hin : In (t, v) (flat_map (hit a) patterns))
          by (rewrite E; apply in_elt).
        apply in_flat_map in Hin as [p [_ Hin]]. unfold hit in Hin.
        destruct (caption_match p a); [contradiction|].
        destruct Hin as [Hin|[]]. now inversion Hin.
      * intros t' v' [].
    + destruct (IH _ E2) as (before & after & -> & Hb).
      exists (a :: before), after. split; [reflexivity|].
      intros t' v' Hin. unfold hits in Hin. cbn [flat_map] in Hin.
      subst h1. apply in_app_or in Hin as [Hin|Hin]; apply in_or_app.
      * now left.
      * right. now apply Hb.
Qed.

(** C7, as amended.  For tables that all have a caption:
    [get_tables_from_caption] returns [None] exactly when no pattern
    matches the name of any table; every match value is selected once, for
    the first table in document order that yields it, and a value that
    some table yields is always among the selected ones. *)
Theorem get_tables_from_caption_selects_first_per_value
  (all_tables : list table) :
  Forall (fun t => caption t <> None) all_tables ->
  exists tables table_names,
    select_tables all_tables patterns = Ok (tables, table_names)
    /\ get_tables_from_caption all_tables patterns
       = Ok (match tables with [] => None | _ :: _ => Some tables end)
    /\ (tables = [] <->
        forall t p, In t all_tables -> In p patterns -> caption_match p t = [])
    /\ List.length tables = List.length table_names
    /\ NoDup table_names
    /\ (forall t v, In (t, v) (combine tables table_names) ->
                    first_yielding all_tables patterns t v)
    /\ (forall t v, In t all_tables -> yields patterns t v ->
                    In v table_names).
Proof.
  intros Hcap.
  pose proof (@table_loop_extend all_tables Hcap ([], [])) as Hloop.
  assert (Hok : selection_ok (extend ([], []) (hits all_tables patterns))
                             (hits all_tables patterns)).
  { apply (@selection_ok_extend (hits all_tables patterns) ([], []) []).
    repeat split; simpl; try constructor; intros; contradiction. }
  destruct (extend ([], []) (hits all_tables patterns)) as [ts names] eqn:E.
  destruct Hok as (Hlen & Hnd & Hfirst & Hall). cbn [fst snd] in *.
  exists ts, names. split; [exact Hloop|]. split; [|split; [|split; [|split;[|split]]]].
  - unfold get_tables_from_caption, select_tables. rewrite Hloop. cbn [bind fst].
    destruct ts; reflexivity.
  - split.
    + intros -> t p Ht Hp.
      destruct (caption_match p t) as [|w ws] eqn:Em; [reflexivity|].
      assert (Hin : In (w :: ws) names).
      { apply (Hall t). apply in_hits. split; [assumption|].
        split; [discriminate|]. now exists p. }
      destruct names; [contradiction | discriminate].
    + intros Hnone. destruct ts as [|t ts]; [reflexivity|].
      destruct names as [|v names]; [discriminate|].
      destruct (Hfirst t v (or_introl eq_refl)) as (h1 & h2 & Eh & _).
      assert (Hin : In (t, v) (hits all_tables patterns))
        by (rewrite Eh; apply in_elt).
      apply in_hits in Hin as [Ht [Hne [p [Hp Em]]]].
      rewrite (Hnone t p Ht Hp) in Em. congruence.
  - assumption.
  - assumption.
  - intros t v Hin. destruct (Hfirst t v Hin) as (h1 & h2 & Eh & Hn).
    destruct (@hits_split _ _ _ _ _ Eh) as (before & after & Et & Hb).
    exists before, after. split; [assumption|]. split.
    + assert (Hin' : In (t, v) (hits all_tables patterns))
        by (rewrite Eh; apply in_elt).
      now apply in_hits in Hin'.
    + intros t' Ht' Hy. apply Hn. apply in_map_iff. exists (t', v).
      split; [reflexivity|]. apply Hb. apply in_hits. now split.
  - intros t v Ht Hy. apply (Hall t). apply in_hits. now split.
Qed.

End Captions.

(** The two standings tables of the example: each match value is
    selected once. *)
Lemma get_tables_from_caption_selects_first_per_value_witness :
  exists tables table_names,
    select_tables [regular_season_table; conference_table]
                  [regular_season_pattern; conference_pattern]
    = Ok (tables, table_names)
    /\ NoDup table_names.
Proof.
  destruct (@get_tables_from_caption_selects_first_per_value
              [regular_season_pattern; conference_pattern]
              [regular_season_table; conference_table])
    as (ts & names & Hsel & _ & _ & _ & Hnd & _).
  - repeat constructor; discriminate.
  - exists ts, names. split; assumption.
Defined.

(** C7, as stated, fails: both tables yield the match value of the first
    pattern, and the second table is selected all the same, for the value
    of the second pattern. *)
Lemma get_tables_from_caption_keeps_later_table :
  caption_match regular_season_pattern regular_season_table
  = [str "Regular season"]
  /\ caption_match regular_season_pattern conference_table
     = [str "Regular season"]
  /\ get_tables_from_caption [regular_season_table; conference_table]
                             [regular_season_pattern; conference_pattern]
     = Ok (Some [regular_season_table; conference_table]).
Proof.
  repeat split.
Qed.

(** A table without caption makes [get_tables_from_caption] raise. *)
Lemma get_tables_from_caption_raises_without_caption :
  get_tables_from_caption [captionless_table] [conference_pattern]
  = Raise TypeError.
Proof. reflexivity. Qed.

(** ** Type coercion *)

Section CoercionFacts.

Variable fb : float_builtins.

Lemma set_same {V} (k : pystr) (v : V) (d : odict V) :
  get k d = Some v -> set k v d = d.
Proof.
  induction d as [|[k' v'] d IH]; simpl; [discriminate|].
  destruct (str_eqb k k') eqn:E.
  - intros H. now inversion H.
  - intros H. now rewrite IH.
Qed.





(** The body of the loop, for a key of the dictionary. *)
Lemma dtypes_step_column (int_keys float_keys : list pystr)
  (d : odict (list pyval)) (k : pystr) (col : list pyval) :
  get k d = Some col ->
  dtypes_step fb int_keys float_keys d k =
  (col' <- convert_list_from_str fb col (convert_to_of int_keys float_keys k) ;;
   Ok (set k col' d)).
Proof.
  intros Hget. unfold dtypes_step, convert_to_of.
  destruct (str_in k int_keys); [|destruct (str_in k float_keys)];
    rewrite ?Hget; cbn [of_option bind]; try reflexivity.
  assert (E : convert_list_from_str fb col [] = Ok col) by reflexivity.
  rewrite E. cbn [bind]. now rewrite (set_same _ _ Hget).
Qed.

Lemma dtypes_loop (int_keys float_keys ks : list pystr) :
  NoDup ks ->
  forall d,
    (forall k, In k ks -> In k (keys d)) ->
    match foldM (dtypes_step fb int_keys float_keys) ks d with
    | Ok d' =>
        keys d' = keys d
        /\ (forall k, ~ In k ks -> get k d' = get k d)
        /\ (forall k col, In k ks -> get k d = Some col ->
              exists col',
                get k d' = Some col'
                /\ convert_list_from_str fb col
                     (convert_to_of int_keys float_keys k) = Ok col')
    | Raise e =>
        exists k col,
          In k ks /\ get k d = Some col
          /\ convert_list_from_str fb col
               (convert_to_of int_keys float_keys k) = Raise e
    end.
Proof.
  induction 1 as [|k ks Hk Hnd IH]; intros d Hin.
  - simpl. repeat split; [intros; contradiction].
  - cbn [foldM].
    assert (Hkd : In k (keys d)) by (apply Hin; now left).
    destruct (get k d) as [col|] eqn:Hget;
      [|apply get_None_keys in Hget; contradiction].
    rewrite (@dtypes_step_column int_keys float_keys d k col Hget).
    destruct (convert_list_from_str fb col _) as [col'|e] eqn:Hconv;
      cbn [bind].
    + assert (Hkeys : keys (set k col' d) = keys d) by now apply keys_set_in.
      specialize (IH (set k col' d)).
      destruct (foldM _ ks (set k col' d)) as [d'|e].
      * destruct IH as (Hks & Hout & Hin').
        { intros k' Hk'. rewrite Hkeys. apply Hin. now right. }
        split; [congruence|]. split.
        -- intros k' Hk'. rewrite Hout by (intros H; apply Hk'; now right).
           apply get_set_other. intros ->. apply Hk'. now left.
        -- intros k' col0 [<-|Hk''] Hget'.
           ++ exists col'. split; [|congruence].
              rewrite Hout by assumption. apply get_set_same.
           ++ apply Hin'; [assumption|].
              rewrite get_set_other; [assumption|]. intros ->. contradiction.
      * destruct IH as (k' & col0 & Hk' & Hget' & Hc').
        { intros k' Hk'. rewrite Hkeys. apply Hin. now right. }
        exists k', col0. split; [now right|]. split; [|assumption].
        rewrite get_set_other in Hget'; [assumption|].
        intros ->. contradiction.
    + exists k, col. split; [now left|]. split; assumption.
Qed.



End CoercionFacts.


(** A non-empty string that is no integer literal in a designated column
    makes the conversion raise. *)
Lemma convert_dict_dtypes_raises_on_text :
  convert_dict_dtypes example_builtins
    [(str "x", [PStr (str "3"); PStr (str "n/a")])] [str "x"] []
  = Raise ValueError.
Proof. reflexivity. Qed.

(** ** Shoot-out scores *)

Section Shootout.



Lemma space_not_digit (c : ascii) : is_space c = true -> is_digit c = false.
Proof.
  destruct c as [[] [] [] [] [] [] [] []]; vm_compute; congruence.
Qed.






Lemma clean_columns_loop
  (cm : list (pystr * (pyval -> result pyval))) :
  NoDup (map fst cm) ->
  forall d d',
    foldM clean_column_step cm d = Ok d' ->
    (forall k, ~ In k (map fst cm) -> get k d' = get k d)
    /\ (forall c m cells,
           In (c, m) cm -> get c d = Some cells ->
           exists cells', get c d' = Some cells' /\ mapM m cells = Ok cells').
Proof.
  induction cm as [|[c0 m0] cm IH]; intros Hnd d d' H.
  - simpl in H. inversion H; subst. split; [reflexivity|].
    intros c m cells [].
  - cbn [map fst] in Hnd. inversion Hnd as [|? ? Hc0 Hnd']; subst.
    cbn [foldM] in H.
    destruct (clean_column_step d (c0, m0)) as [d1|e] eqn:E1; [|discriminate].
    destruct (IH Hnd' _ _ H) as [Hout Hin].
    assert (Hd1 : forall k, k <> c0 -> get k d1 = get k d).
    { intros k Hk. unfold clean_column_step in E1.
      destruct (get c0 d) as [cells0|]; [|now inversion E1].
      destruct (mapM m0 cells0) as [cl|]; [|discriminate].
      cbn [bind] in E1. inversion E1; subst. now apply get_set_other. }
    split.
    + intros k Hk. rewrite Hout by (intros Hk'; apply Hk; now right).
      apply Hd1. intros ->. apply Hk. now left.
    + intros c m cells [Heq|Hcm] Hget.
      * inversion Heq; subst c m. rewrite (Hout c0 Hc0).
        unfold clean_column_step in E1. rewrite Hget in E1.
        destruct (mapM m0 cells) as [cl|]; [|discriminate].
        cbn [bind] in E1. inversion E1; subst.
        exists cl. split; [apply get_set_same | reflexivity].
      * apply Hin; [assumption|]. rewrite Hd1; [assumption|].
        intros ->. apply Hc0. apply in_map_iff. now exists (c0, m).
Qed.

Lemma cleaning_map_keys_distinct : NoDup (map fst cleaning_map).
Proof.
  repeat constructor; cbv; intuition discriminate.
Qed.


End Shootout.

(** The values 1 (4) and 1 (3) of [shootout_example] lose the shoot-out
    goals; the other values stay. *)
Lemma clean_stat_dict_columns_strips_shootout_example :
  clean_stat_dict_columns shootout_example
  = Ok [ (str "date", [PStr (str "2023-05-01"); PStr (str "2023-05-08")]);
         (str "gf", [PStr (str "2"); PStr (str "1")]);
         (str "ga", [PStr (str "0"); PStr (str "1")]) ].
Proof. reflexivity. Qed.

(** A value with other text around the score is changed as well. *)
Lemma clean_gf_ga_inside_text :
  clean_gf_ga (str "a1 (2)") = str "1".
Proof. reflexivity. Qed.

(** ** Top scorers *)

Section TopScorer.




End TopScorer.



(** ** Reassembly *)

Section Reassembly.

Variable meta_names : list pystr.
Variable i : nat.

Lemma str_in_cons (f k : pystr) (ks : list pystr) :
  str_in f (k :: ks) = str_eqb f k || str_in f ks.
Proof. reflexivity. Qed.

Lemma str_in_snoc (f k : pystr) (ks : list pystr) :
  str_in f (ks ++ [k]) = str_in f ks || str_eqb f k.
Proof.
  unfold str_in. rewrite existsb_app. simpl. now rewrite orb_false_r.
Qed.

(** The body of the field loop, by cases. *)
Lemma field_step_cases (category : odict (list pyval))
  (meta sub : odict pyval) (used : list pystr) (k : pystr) :
  field_step meta_names category i (meta, sub, used) k =
  if str_in k meta_names
  then (set k (cell_or_none category k i) meta, sub, used)
  else if str_in k used
  then (meta, sub, used)
  else (meta, set k (cell_or_none category k i) sub,
        if has_cell category k i then used ++ [k] else used).
Proof.
  unfold field_step, cell_or_none, has_cell.
  destruct (str_in k meta_names); [now destruct (cell_at category k i)|].
  destruct (str_in k used); [reflexivity|].
  now destruct (cell_at category k i).
Qed.

Ltac by_key f k :=
  let E := fresh "E" in
  destruct (str_eqb f k) eqn:E;
  [ apply str_eqb_eq in E; subst f;
    rewrite ?get_set_same, ?str_eqb_refl
  | pose proof E as E'; apply str_eqb_neq in E';
    rewrite ?get_set_other by assumption ].

(** The state after the loop over the fields [ks] of a category. *)
Lemma field_loop (category : odict (list pyval)) (ks : list pystr) :
  forall meta sub used meta' sub' used',
    fold_left (field_step meta_names category i) ks (meta, sub, used)
    = (meta', sub', used') ->
    (forall f, get f meta' =
               if str_in f ks && str_in f meta_names
               then Some (cell_or_none category f i) else get f meta)
    /\ (forall f, get f sub' =
                  if str_in f ks && negb (str_in f meta_names)
                     && negb (str_in f used)
                  then Some (cell_or_none category f i) else get f sub)
    /\ (forall f, str_in f used' =
                  str_in f used
                  || (str_in f ks && negb (str_in f meta_names)
                      && has_cell category f i)).
Proof.
  induction ks as [|k ks IH]; intros meta sub used meta' sub' used' H.
  - simpl in H. inversion H; subst. split; [|split]; intros f; simpl;
      [reflexivity | reflexivity | now rewrite orb_false_r].
  - cbn [fold_left] in H. rewrite field_step_cases in H.
    destruct (str_in k meta_names) eqn:Em.
    + destruct (IH _ _ _ _ _ _ H) as (Hm & Hs & Hu).
      split; [|split]; intros f; rewrite ?Hm, ?Hs, ?Hu, str_in_cons.
      * by_key f k.
        -- rewrite Em. now destruct (str_in k ks).
        -- reflexivity.
      * by_key f k; [|reflexivity].
        rewrite Em. simpl. now rewrite !andb_false_r.
      * by_key f k; [|reflexivity].
        rewrite Em. simpl. now rewrite !andb_false_r.
    + destruct (str_in k used) eqn:Eu.
      * destruct (IH _ _ _ _ _ _ H) as (Hm & Hs & Hu).
        split; [|split]; intros f; rewrite ?Hm, ?Hs, ?Hu, str_in_cons.
        -- by_key f k; [|reflexivity].
           rewrite Em. simpl. now rewrite !andb_false_r.
        -- by_key f k; [|reflexivity].
           rewrite Eu. simpl. now rewrite !andb_false_r.
        -- by_key f k; [|reflexivity]. now rewrite Eu.
      * destruct (IH _ _ _ _ _ _ H) as (Hm & Hs & Hu).
        split; [|split]; intros f; rewrite ?Hm, ?Hs, ?Hu, str_in_cons.
        -- by_key f k; [|reflexivity].
           rewrite Em. simpl. now rewrite !andb_false_r.
        -- by_key f k.
           ++ rewrite Em, Eu. simpl.
              destruct (has_cell category k i) eqn:Eh.
              ** rewrite str_in_snoc, str_eqb_refl, orb_true_r.
                 simpl. now rewrite andb_false_r.
              ** rewrite Eu. now destruct (str_in k ks).
           ++ destruct (has_cell category k i); [|reflexivity].
              rewrite str_in_snoc, E, orb_false_r. reflexivity.
        -- by_key f k.
           ++ rewrite Em, Eu. simpl.
              destruct (has_cell category k i) eqn:Eh.
              ** now rewrite str_in_snoc, str_eqb_refl, orb_true_r.
              ** rewrite Eu. simpl. now rewrite andb_false_r.
           ++ destruct (has_cell category k i); [|reflexivity].
              rewrite str_in_snoc, E, orb_false_r. reflexivity.
Qed.

(** One category: the new state. *)
Lemma entry_step_spec (meta : odict pyval) (all_stats : odict (odict pyval))
  (used : list pystr) (c : pystr) (category : odict (list pyval)) :
  exists meta' sub used',
    entry_step meta_names i (meta, all_stats, used) (c, category)
    = (meta', set c sub all_stats, used')
    /\ (forall f, get f meta' =
                  if str_in f (keys category) && str_in f meta_names
                  then Some (cell_or_none category f i) else get f meta)
    /\ (forall f, get f sub =
                  if str_in f (keys category) && negb (str_in f meta_names)
                     && negb (str_in f used)
                  then Some (cell_or_none category f i) else None)
    /\ (forall f, str_in f used' =
                  str_in f used
                  || (str_in f (keys category) && negb (str_in f meta_names)
                      && has_cell category f i)).
Proof.
  unfold entry_step. cbn [fst snd].
  destruct (fold_left (field_step meta_names category i) (keys category)
              (meta, [], used)) as [[meta' sub] used'] eqn:E.
  exists meta', sub, used'. split; [reflexivity|].
  exact (field_loop _ _ _ _ _ E).
Qed.

Lemma wf_get {V} (d : odict V) (c : pystr) (v : V) :
  wf d -> In (c, v) d -> get c d = Some v.
Proof.
  unfold wf. induction d as [|[c' v'] d IH]; intros Hwf Hin; [contradiction|].
  cbn [keys map fst] in Hwf. inversion Hwf as [|? ? Hc Hnd]; subst.
  simpl. destruct Hin as [Heq|Hin].
  - inversion Heq; subst. now rewrite str_eqb_refl.
  - destruct (str_eqb c c') eqn:E.
    + apply str_eqb_eq in E. subst c'. exfalso. apply Hc.
      apply in_map_iff. now exists (c, v).
    + now apply IH.
Qed.

(** The loop over the keys of the dictionary is the loop over its
    entries. *)
Lemma category_loop_entries (d l : odict (odict (list pyval))) :
  (forall c cat, In (c, cat) l -> get c d = Some cat) ->
  forall st,
    fold_left (category_step meta_names d i) (keys l) st
    = fold_left (entry_step meta_names i) l st.
Proof.
  induction l as [|[c cat] l IH]; intros Hl st; [reflexivity|].
  cbn [keys map fst fold_left]. fold (keys l).
  assert (E : category_step meta_names d i st c
              = entry_step meta_names i st (c, cat)).
  { unfold category_step, entry_step. destruct st as [[meta all_stats] used].
    rewrite (Hl c cat (or_introl eq_refl)). reflexivity. }
  rewrite E. apply IH. intros c' cat' Hin. apply Hl. now right.
Qed.

Lemma build_record_entries (d : odict (odict (list pyval))) :
  wf d ->
  build_record meta_names d i =
  let st := fold_left (entry_step meta_names i) d ([], [], []) in
  mk_entity (fst (fst st)) (snd (fst st)).
Proof.
  intros Hwf. unfold build_record.
  rewrite (@category_loop_entries d d (fun c cat => @wf_get _ d c cat Hwf)).
  now destruct (fold_left (entry_step meta_names i) d ([], [], []))
    as [[meta all_stats] used].
Qed.

Variable f : pystr.

Lemma not_in_keys (ks : list pystr) : ~ In f ks -> str_in f ks = false.
Proof. apply str_in_not_In. Qed.

(** Categories without the field leave its meta value alone. *)
Lemma meta_kept (l : odict (odict (list pyval))) :
  (forall e, In e l -> ~ In f (keys (snd e))) ->
  forall st,
    get f (fst (fst (fold_left (entry_step meta_names i) l st)))
    = get f (fst (fst st)).
Proof.
  induction l as [|[c cat] l IH]; intros Hl st; [reflexivity|].
  cbn [fold_left]. rewrite IH by (intros e He; apply Hl; now right).
  destruct st as [[meta all_stats] used].
  destruct (entry_step_spec meta all_stats used c cat)
    as (meta' & sub & used' & -> & Hm & _).
  cbn [fst]. rewrite Hm.
  rewrite (not_in_keys (keys cat) (Hl (c, cat) (or_introl eq_refl))).
  reflexivity.
Qed.

(** The categories never store a meta field under [stats]. *)
Lemma stats_without_meta (l : odict (odict (list pyval))) :
  str_in f meta_names = true ->
  forall st,
    (forall c s, get c (snd (fst st)) = Some s -> get f s = None) ->
    forall c s,
      get c (snd (fst (fold_left (entry_step meta_names i) l st))) = Some s ->
      get f s = None.
Proof.
  intros Hmeta. induction l as [|[c0 cat] l IH]; intros st Hst; [exact Hst|].
  cbn [fold_left]. apply IH.
  destruct st as [[meta all_stats] used].
  destruct (entry_step_spec meta all_stats used c0 cat)
    as (meta' & sub & used' & -> & _ & Hs & _).
  cbn [fst snd] in *. intros c s.
  destruct (str_eqb c c0) eqn:E.
  - apply str_eqb_eq in E. subst c. rewrite get_set_same.
    intros H. inversion H; subst s. rewrite Hs, Hmeta.
    now rewrite andb_false_r.
  - apply str_eqb_neq in E. rewrite get_set_other by assumption. apply Hst.
Qed.

(** Categories in which the field has no cell do not use it up. *)
Lemma unused_kept (l : odict (odict (list pyval))) :
  (forall e, In e l -> In f (keys (snd e)) -> cell_at (snd e) f i = None) ->
  forall st,
    str_in f (snd st) = false ->
    str_in f (snd (fold_left (entry_step meta_names i) l st)) = false.
Proof.
  induction l as [|[c cat] l IH]; intros Hl st Hst; [exact Hst|].
  cbn [fold_left]. apply IH; [intros e He; apply Hl; now right|].
  destruct st as [[meta all_stats] used].
  destruct (entry_step_spec meta all_stats used c cat)
    as (meta' & sub & used' & -> & _ & _ & Hu).
  cbn [snd] in *. rewrite Hu, Hst. simpl.
  destruct (str_in f (keys cat)) eqn:Ek; [|reflexivity].
  apply str_in_In in Ek.
  pose proof (Hl (c, cat) (or_introl eq_refl) Ek) as Hnone.
  cbn [snd] in Hnone. unfold has_cell. rewrite Hnone.
  now rewrite andb_false_r.
Qed.

(** Once the field is used, later categories do not store it, and the
    categories stored before stay as they are. *)
Lemma used_skipped (l : odict (odict (list pyval))) :
  forall st,
    str_in f (snd st) = true ->
    let st' := fold_left (entry_step meta_names i) l st in
    (forall c0, ~ In c0 (keys l) -> get c0 (snd (fst st')) = get c0 (snd (fst st)))
    /\ (forall c s, In c (keys l) -> get c (snd (fst st')) = Some s ->
                    get f s = None).
Proof.
  induction l as [|[c1 cat] l IH]; intros st Hst.
  - simpl. split; [reflexivity | intros c s []].
  - cbn [fold_left].
    destruct st as [[meta all_stats] used].
    destruct (entry_step_spec meta all_stats used c1 cat)
      as (meta' & sub & used' & E & _ & Hs & Hu).
    rewrite E. cbn [snd] in Hst.
    assert (Hused' : str_in f used' = true) by now rewrite Hu, Hst.
    destruct (IH (meta', set c1 sub all_stats, used') Hused') as [Hout Hin].
    cbn [fst snd] in *. split.
    + intros c0 Hc0. rewrite Hout by (intros H; apply Hc0; now right).
      apply get_set_other. intros ->. apply Hc0. now left.
    + intros c s Hc Hget.
      destruct (in_dec (list_eq_dec ascii_dec) c (keys l)) as [Hl|Hl].
      * now apply (Hin c s).
      * destruct Hc as [<-|Hc]; [|contradiction]. cbn [fst] in Hl, Hget.
        rewrite (Hout c1 Hl), get_set_same in Hget. inversion Hget; subst s.
        rewrite Hs, Hst. simpl. now rewrite andb_false_r.
Qed.

Lemma keys_app {V} (a b : odict V) : keys (a ++ b) = keys a ++ keys b.
Proof. apply map_app. Qed.

(** The record of row [i] under the field ownership rules. *)
Lemma build_record_ownership (d before after : odict (odict (list pyval)))
  (c : pystr) (cat : odict (list pyval)) :
  wf d ->
  d = before ++ (c, cat) :: after ->
  In f (keys cat) ->
  let r := build_record meta_names d i in
  (In f meta_names ->
   (forall c' s, get c' (stats r) = Some s -> get f s = None)
   /\ ((forall e, In e after -> ~ In f (keys (snd e))) ->
       get f (meta_data r) = Some (cell_or_none cat f i)))
  /\ (~ In f meta_names ->
      forall v,
        cell_at cat f i = Some v ->
        (forall e, In e before -> In f (keys (snd e)) ->
                   cell_at (snd e) f i = None) ->
        (exists sub, get c (stats r) = Some sub /\ get f sub = Some v)
        /\ (forall e sub', In e after -> get (fst e) (stats r) = Some sub' ->
                           get f sub' = None)).
Proof.
  intros Hwf Hd Hf r. subst r. rewrite (build_record_entries Hwf).
  cbn zeta. cbn [meta_data stats].
  assert (Hfk : str_in f (keys cat) = true) by now apply str_in_In.
  split.
  - intros Hmeta. apply str_in_In in Hmeta. split.
    + apply stats_without_meta; [assumption|]. intros c' s H. discriminate.
    + intros Hlast. rewrite Hd, fold_left_app. cbn [fold_left].
      rewrite meta_kept by assumption.
      destruct (fold_left (entry_step meta_names i) before ([], [], []))
        as [[meta all_stats] used].
      destruct (entry_step_spec meta all_stats used c cat)
        as (meta' & sub & used' & -> & Hm & _).
      cbn [fst]. now rewrite Hm, Hfk, Hmeta.
  - intros Hmeta v Hcell Hfirst. apply str_in_not_In in Hmeta.
    rewrite Hd, fold_left_app. cbn [fold_left].
    pose proof (@unused_kept before Hfirst ([], [], []) eq_refl) as Hunused.
    destruct (fold_left (entry_step meta_names i) before ([], [], []))
      as [[meta all_stats] used].
    cbn [snd] in Hunused.
    destruct (entry_step_spec meta all_stats used c cat)
      as (meta' & sub & used' & -> & _ & Hs & Hu).
    assert (Hused' : str_in f used' = true).
    { rewrite Hu, Hfk, Hmeta. unfold has_cell. rewrite Hcell.
      apply orb_true_r. }
    destruct (@used_skipped after (meta', set c sub all_stats, used') Hused')
      as [Hout Hin].
    cbn [fst snd] in *.
    assert (Hc : ~ In c (keys after)).
    { unfold wf in Hwf. rewrite Hd, keys_app in Hwf.
      apply NoDup_remove_2 in Hwf. intros H. apply Hwf.
      apply in_or_app. now right. }
    split.
    + exists sub. rewrite (Hout c Hc), get_set_same. split; [reflexivity|].
      rewrite Hs, Hfk, Hmeta, Hunused. unfold cell_or_none. now rewrite Hcell.
    + intros e sub' He. apply Hin. apply in_map. assumption.
Qed.

End Reassembly.

Lemma nth_error_map_seq {A} (g : nat -> A) (n i : nat) (r : A) :
  nth_error (map g (seq 0 n)) i = Some r -> r = g i.
Proof.
  intros H. rewrite nth_error_map in H.
  destruct (nth_error (seq 0 n) i) as [j|] eqn:E; [|discriminate].
  assert (Hi : i < n).
  { apply nth_error_Some_lt in E || idtac.
    destruct (Nat.lt_ge_cases i n) as [Hlt|Hge]; [assumption|].
    assert (Hnone : nth_error (seq 0 n) i = None)
      by (apply nth_error_None; now rewrite length_seq).
    congruence. }
  rewrite (nth_error_nth' _ 0) in E by now rewrite length_seq.
  rewrite seq_nth in E by assumption. simpl in E, H.
  inversion E; subst j. now inversion H.
Qed.

(** C2, as amended.  In the records of [change_tms_dict_orientation] and
    [change_tss_dict_orientation], for a field [f] of a category [c]: a
    meta field is in no sub-mapping of [stats], and [meta_data] holds the
    value of the last category that has the field (or [None] where that
    category has no cell at the row); a field that is no meta field is
    owned by the first category that has a cell for it at the row, and the
    categories after it omit it. *)
Theorem reassembly_field_ownership
  (meta_names : list pystr) (d before after : odict (odict (list pyval)))
  (c : pystr) (cat : odict (list pyval)) (f : pystr)
  (records : list entity) (i : nat) (r : entity) :
  wf d ->
  change_tms_dict_orientation meta_names d = Ok records
  \/ change_tss_dict_orientation meta_names d = Ok records ->
  nth_error records i = Some r ->
  d = before ++ (c, cat) :: after ->
  In f (keys cat) ->
  (In f meta_names ->
   (forall c' s, get c' (stats r) = Some s -> get f s = None)
   /\ ((forall e, In e after -> ~ In f (keys (snd e))) ->
       get f (meta_data r) = Some (cell_or_none cat f i)))
  /\ (~ In f meta_names ->
      forall v,
        cell_at cat f i = Some v ->
        (forall e, In e before -> In f (keys (snd e)) ->
                   cell_at (snd e) f i = None) ->
        (exists sub, get c (stats r) = Some sub /\ get f sub = Some v)
        /\ (forall e sub', In e after -> get (fst e) (stats r) = Some sub' ->
                           get f sub' = None)).
Proof.
  intros Hwf Hrec Hnth Hd Hf.
  assert (Hr : r = build_record meta_names d i).
  { destruct Hrec as [Hrec|Hrec];
      [unfold change_tms_dict_orientation in Hrec
      |unfold change_tss_dict_orientation in Hrec];
      destruct (reference_length d _ _) as [n|]; try discriminate;
      cbn [bind] in Hrec; inversion Hrec; subst records;
      now apply nth_error_map_seq in Hnth. }
  subst r. now apply build_record_ownership with (before := before) (after := after).
Qed.

(** The record of [two_categories]: the date of [meta_data] is that of
    the keeper category, the last one, and no sub-mapping of [stats] holds
    the date. *)
Lemma reassembly_field_ownership_witness :
  change_tms_dict_orientation two_meta_names two_categories
  = Ok [build_record two_meta_names two_categories 0]
  /\ get (str "date")
         (meta_data (build_record two_meta_names two_categories 0))
     = Some (PStr (str "2023-05-02"))
  /\ (forall c' s,
         get c' (stats (build_record two_meta_names two_categories 0)) = Some s ->
         get (str "date") s = None).
Proof.
  split; [reflexivity|].
  destruct (@reassembly_field_ownership two_meta_names two_categories
              [ (str "schedule",
                 [ (str "match_id", [PStr (str "a1b2c3d4")]);
                   (str "date", [PStr (str "2023-05-01")]);
                   (str "gf", [PInt 2]) ]) ]
              []
              (str "keeper")
              [ (str "date", [PStr (str "2023-05-02")]);
                (str "gf", [PInt 9]);
                (str "saves", [PInt 3]) ]
              (str "date")
              [build_record two_meta_names two_categories 0] 0
              (build_record two_meta_names two_categories 0))
    as [Hmeta _].
  - unfold wf. repeat constructor; cbv; intuition discriminate.
  - left. reflexivity.
  - reflexivity.
  - reflexivity.
  - cbv. tauto.
  - destruct Hmeta as [Hstats Hlast]; [cbv; tauto|].
    split; [|exact Hstats]. apply Hlast. intros e [].
Defined.

(** C2, as stated, fails: both categories of [two_categories] hold the
    meta field date, the schedule category comes first, and [meta_data]
    takes the date of the keeper category. *)
Lemma reassembly_meta_data_takes_last_category :
  change_tms_dict_orientation two_meta_names two_categories
  = Ok [ mk_entity
           [ (str "match_id", PStr (str "a1b2c3d4"));
             (str "date", PStr (str "2023-05-02")) ]
           [ (str "schedule", [(str "gf", PInt 2)]);
             (str "keeper", [(str "saves", PInt 3)]) ] ]
  /\ cell_at [ (str "match_id", [PStr (str "a1b2c3d4")]);
               (str "date", [PStr (str "2023-05-01")]);
               (str "gf", [PInt 2]) ] (str "date") 0
     = Some (PStr (str "2023-05-01"))
  /\ PStr (str "2023-05-02") <> PStr (str "2023-05-01").
Proof.
  split; [reflexivity | split; [reflexivity | discriminate]].
Qed.

(** ** The leagues of a country *)

Section LeaguesCheck.

Variable fb : float_builtins.




End LeaguesCheck.

(** ** Integer literals *)

Section IntLiterals.

Lemma uint_chars_digits (d : Decimal.uint) : forallb is_digit (uint_chars d) = true.
Proof. induction d; simpl; try reflexivity; exact IHd. Qed.

Lemma uint_chars_value (d : Decimal.uint) :
  forall acc,
    fold_left (fun a c => (a * 10 + digit_value c)%Z) (uint_chars d)
              (Z.of_nat acc)
    = Z.of_nat (Nat.of_uint_acc d acc).
Proof.
  induction d; intros acc;
    cbn [uint_chars NilEmpty.string_of_uint list_ascii_of_string fold_left
         Nat.of_uint_acc];
    try reflexivity;
    fold (uint_chars d); rewrite <- IHd; f_equal;
    rewrite Nat.tail_mul_spec;
    match goal with
    | |- context [digit_value ?c] =>
        let v := eval vm_compute in (digit_value c) in
        change (digit_value c) with v
    end; lia.
Qed.

Lemma digit_not_space (c : ascii) : is_digit c = true -> is_space c = false.
Proof.
  intros H. destruct (is_space c) eqn:E; [|reflexivity].
  apply space_not_digit in E. congruence.
Qed.

Lemma lstrip_digits (s : pystr) : forallb is_digit s = true -> lstrip s = s.
Proof.
  destruct s as [|c s]; [reflexivity|]. simpl. intros H.
  apply andb_true_iff in H as [Hc _]. now rewrite (digit_not_space _ Hc).
Qed.

Lemma strip_digits (s : pystr) : forallb is_digit s = true -> strip s = s.
Proof.
  intros H. unfold strip, rstrip. rewrite (lstrip_digits _ H).
  rewrite lstrip_digits; [apply rev_involutive|].
  rewrite forallb_forall in *. intros c Hc. apply H. now apply in_rev.
Qed.

Lemma digits_ok_digits (s : pystr) (b : bool) :
  forallb is_digit s = true ->
  digits_ok b s = match s with [] => b | _ :: _ => true end.
Proof.
  revert b. induction s as [|c s IH]; intros b H; [reflexivity|].
  simpl in *. apply andb_true_iff in H as [Hc Hs].
  rewrite Hc, IH by assumption. now destruct s.
Qed.

Lemma digit_not_sign (c : ascii) :
  is_digit c = true -> Ascii.eqb c "-" = false /\ Ascii.eqb c "+" = false.
Proof.
  destruct c as [[] [] [] [] [] [] [] []]; vm_compute; intuition congruence.
Qed.

(** [int] reads back the decimal text of a natural number: the numeric
    strings of the coercion are at least the texts that [str] prints. *)
Lemma int_of_str_decimal (n : nat) :
  int_of_str (str_of_nat n) = Some (Z.of_nat n).
Proof.
  unfold str_of_nat. fold (uint_chars (Nat.to_uint n)).
  pose proof (uint_chars_digits (Nat.to_uint n)) as Hd.
  pose proof (uint_chars_value (Nat.to_uint n) 0) as Hv.
  fold (Nat.of_uint (Nat.to_uint n)) in Hv. rewrite Unsigned.of_to in Hv.
  unfold int_of_str. rewrite (strip_digits _ Hd).
  destruct (uint_chars (Nat.to_uint n)) as [|c s] eqn:E.
  - exfalso. assert (Hn : Nat.to_uint n = Decimal.Nil).
    { destruct (Nat.to_uint n); try discriminate E. reflexivity. }
    pose proof (Unsigned.of_to n) as H. rewrite Hn in H. simpl in H. subst n.
    discriminate Hn.
  - assert (Hc : is_digit c = true)
      by (simpl in Hd; now apply andb_true_iff in Hd as [Hc _]).
    destruct (digit_not_sign _ Hc) as [-> ->].
    rewrite (digits_ok_digits _ false Hd).
    rewrite (@filter_all_true _ is_digit (c :: s)).
    + unfold decimal_value. change 0%Z with (Z.of_nat 0). now rewrite Hv.
    + apply Forall_forall. rewrite forallb_forall in Hd. exact Hd.
Qed.

End IntLiterals.

(* ================================================================== *)
(** * Further properties of the parser *)
(* ================================================================== *)

Section ParserInvariants.

Lemma heads_length {A} (rows : list (list A)) (xs : list A) :
  heads rows = Some xs -> List.length xs = List.length rows.
Proof.
  revert xs. induction rows as [|r rows IH]; intros xs H; simpl in H.
  - now inversion H.
  - destruct r as [|x r]; [discriminate|].
    destruct (heads rows) as [ys|]; [|discriminate].
    inversion H; subst. simpl. now rewrite (IH ys eq_refl).
Qed.

Lemma zip_with_first_lengths {A} (first : list A) :
  forall rest col,
    In col (zip_with_first first rest) ->
    List.length col = S (List.length rest).
Proof.
  induction first as [|x first IH]; intros rest col H; [contradiction|].
  cbn [zip_with_first] in H.
  destruct (heads rest) as [xs|] eqn:E; [|contradiction].
  destruct H as [<-|H].
  - simpl. now rewrite (heads_length _ E).
  - apply IH in H. now rewrite length_map in H.
Qed.

Lemma zip_star_lengths {A} (rows : list (list A)) (col : list A) :
  In col (zip_star rows) -> List.length col = List.length rows.
Proof.
  destruct rows as [|first rest]; [contradiction|].
  apply zip_with_first_lengths.
Qed.

Lemma set_In {V} (k k' : pystr) (v v' : V) (d : odict V) :
  In (k', v') (set k v d) -> (k', v') = (k, v) \/ In (k', v') d.
Proof.
  induction d as [|[k0 v0] d IH]; simpl.
  - intros [H|[]]. now left.
  - destruct (str_eqb k k0) eqn:E.
    + apply str_eqb_eq in E. subst k0. intros [H|H].
      * left. now inversion H.
      * right. now right.
    + intros [H|H]; [right; now left|].
      destruct (IH H) as [H'|H']; [now left | right; now right].
Qed.

Lemma assign_all_In {V} (pairs : list (pystr * V)) :
  forall d k v,
    In (k, v) (assign_all pairs d) -> In (k, v) pairs \/ In (k, v) d.
Proof.
  unfold assign_all. induction pairs as [|[k0 v0] pairs IH]; intros d k v H.
  - now right.
  - cbn [fold_left fst snd] in H. destruct (IH _ _ _ H) as [H'|H'].
    + left. now right.
    + apply set_In in H' as [H'|H']; [left; left; congruence | now right].
Qed.

Lemma get_In {V} (k : pystr) (v : V) (d : odict V) :
  get k d = Some v -> In (k, v) d.
Proof.
  induction d as [|[k0 v0] d IH]; simpl; [discriminate|].
  destruct (str_eqb k k0) eqn:E.
  - apply str_eqb_eq in E. subst. intros H. inversion H. now left.
  - intros H. right. now apply IH.
Qed.

Lemma convert_column_lengths (headers : list pystr)
  (rows : list (list pystr)) (m : odict (list pystr)) (k : pystr)
  (col : list pystr) :
  convert_row_data_to_dict (headers :: rows) = Ok m ->
  get k m = Some col ->
  List.length col = List.length rows.
Proof.
  unfold convert_row_data_to_dict. intros H Hget. inversion H; subst m.
  apply get_In in Hget. apply assign_all_In in Hget as [Hin|[]].
  apply in_combine_r in Hin. now apply zip_star_lengths.
Qed.

Lemma drop_last_length {A} (k : nat) (l : list A) :
  List.length (drop_last k l) = List.length l - k.
Proof.
  unfold drop_last. rewrite length_firstn. lia.
Qed.

(** The rows that [parse_rows] hands to [convert_row_data_to_dict]. *)
Lemma parse_rows_kept (all_row_data : list (list pystr)) (skip_row : bool)
  (drop_rows : Z) (exclude_totals : bool) (m : odict (list pystr)) :
  parse_rows all_row_data skip_row drop_rows exclude_totals = Ok m ->
  exists kept,
    convert_row_data_to_dict kept = Ok m
    /\ List.length kept <= List.length all_row_data
    /\ (skip_row = false -> exclude_totals = false -> (drop_rows <= 0)%Z ->
        kept = all_row_data).
Proof.
  unfold parse_rows. intros H.
  set (rows := if skip_row then tl all_row_data else all_row_data) in *.
  assert (Hrows : List.length rows <= List.length all_row_data).
  { subst rows. destruct skip_row; [|lia].
    destruct all_row_data; simpl; lia. }
  destruct (if exclude_totals
            then totals_rows <- detect_totals_rows rows ;;
                 Ok (Z.of_nat totals_rows)
            else Ok drop_rows) as [d|e] eqn:Ed; [|discriminate].
  cbn [bind] in H.
  exists (if (0 <? d)%Z then drop_last (Z.to_nat d) rows else rows).
  split; [assumption|]. split.
  - destruct (0 <? d)%Z; [rewrite drop_last_length|]; lia.
  - intros -> -> Hd. inversion Ed; subst d. subst rows.
    destruct (0 <? drop_rows)%Z eqn:E; [|reflexivity].
    apply Z.ltb_lt in E. lia.
Qed.

(** X1.  The mapping that [parse_table_data] returns is rectangular: all
    its columns have the same length, which is below the number of rows of
    the table that are no spacers; with the default arguments it is the
    number of those rows minus the header row. *)
Theorem parse_table_data_columns_same_length
  (t : table) (skip_row : bool) (drop_rows : Z) (exclude_totals : bool)
  (m : odict (list pystr)) :
  parse_table_data t skip_row drop_rows exclude_totals = Ok m ->
  exists n,
    n < List.length (parse_table_rows t)
    /\ (forall k col, get k m = Some col -> List.length col = n)
    /\ (skip_row = false -> exclude_totals = false -> (drop_rows <= 0)%Z ->
        S n = List.length (parse_table_rows t)).
Proof.
  unfold parse_table_data. intros H.
  destruct (parse_rows_kept _ _ _ _ H) as (kept & Hconv & Hlen & Hdef).
  unfold parse_all_row_data in *. rewrite length_map in Hlen.
  destruct kept as [|headers rows]; [discriminate|].
  exists (List.length rows). simpl in Hlen. split; [lia|]. split.
  - intros k col Hget. exact (@convert_column_lengths headers rows m k col Hconv Hget).
  - intros H1 H2 H3. specialize (Hdef H1 H2 H3).
    apply (f_equal (@List.length _)) in Hdef.
    rewrite length_map in Hdef. simpl in Hdef. exact Hdef.
Qed.

(** X2.  [parse_table_data] raises [IndexError] when no row is left for
    the header: on a table without rows, and when [drop_rows] is at least
    the number of rows. *)
Theorem parse_table_data_raises_without_header_row
  (t : table) (skip_row : bool) (drop_rows : Z) :
  let rows := if skip_row then tl (parse_table_rows t) else parse_table_rows t in
  rows = [] \/ (0 < drop_rows /\ Z.of_nat (List.length rows) <= drop_rows)%Z ->
  parse_table_data t skip_row drop_rows false = Raise IndexError.
Proof.
  intros rows H. unfold parse_table_data, parse_rows.
  assert (E : (if skip_row
               then tl (parse_all_row_data (parse_table_rows t))
               else parse_all_row_data (parse_table_rows t))
              = map row_cells rows).
  { subst rows. unfold parse_all_row_data, parse_row_data.
    destruct skip_row; [|reflexivity].
    now destruct (parse_table_rows t). }
  rewrite E. cbn [bind].
  assert (Hnil : (if (0 <? drop_rows)%Z
                  then drop_last (Z.to_nat drop_rows) (map row_cells rows)
                  else map row_cells rows) = []).
  { destruct H as [->|[Hpos Hle]].
    - now destruct (0 <? drop_rows)%Z.
    - replace (0 <? drop_rows)%Z with true by (symmetry; now apply Z.ltb_lt).
      apply length_zero_iff_nil. rewrite drop_last_length, length_map. lia. }
  now rewrite Hnil.
Qed.

End ParserInvariants.

(** The table of [totals_example], parsed plainly, has three data rows in
    each of its two columns. *)
Lemma parse_table_data_columns_same_length_witness :
  exists n,
    n < List.length (parse_table_rows totals_example)
    /\ (forall k col,
           get k [ (str "squad", [str "Arsenal"; str "Total"; str "Total2"]);
                   (str "gls", [str "3"; str "3"; str "3"]) ] = Some col ->
           List.length col = n)
    /\ (false = false -> false = false -> (0 <= 0)%Z ->
        S n = List.length (parse_table_rows totals_example)).
Proof.
  apply (@parse_table_data_columns_same_length totals_example false 0 false).
  reflexivity.
Defined.

(** Dropping five rows of the four of [totals_example] leaves none. *)
Lemma parse_table_data_raises_without_header_row_witness :
  parse_table_data totals_example false 5 false = Raise IndexError.
Proof.
  apply (@parse_table_data_raises_without_header_row totals_example false 5).
  right. split; [reflexivity|]. vm_compute. discriminate.
Defined.

Section StatParser.

Lemma In_firstn_full {A} (n : nat) (l : list A) (x : A) :
  In x (firstn n l) -> In x l.
Proof.
  revert l. induction n as [|n IH]; intros [|y l] H; try contradiction.
  destruct H as [<-|H]; [now left | right; now apply IH].
Qed.

(** The rows that [parse_stat_table_rows] keeps. *)
Lemma parse_stat_table_rows_kept (t : table) (skip_row : bool)
  (skipped : list row) (header : row) (data : list row) :
  parse_table_rows t = skipped ++ header :: data ->
  List.length skipped = (if skip_row then 1 else 0) ->
  parse_stat_table_rows t skip_row = Ok (header :: matching header data).
Proof.
  intros Ht Hs. unfold parse_stat_table_rows. rewrite Ht.
  destruct skip_row; destruct skipped as [|s [|s' skipped]];
    try discriminate; reflexivity.
Qed.

(** X3.  [parse_stat_table_data] is [parse_table_data] on the table
    without the skipped leading row and without the data rows whose cell
    count differs from the header row's, for every [drop_rows] and
    [exclude_totals]: its own later length check removes nothing more. *)
Theorem parse_stat_table_data_is_parse_of_matching_rows
  (t : table) (skip_row : bool) (drop_rows : Z) (exclude_totals : bool)
  (skipped : list row) (header : row) (data : list row) :
  parse_table_rows t = skipped ++ header :: data ->
  List.length skipped = (if skip_row then 1 else 0) ->
  parse_stat_table_data t skip_row drop_rows exclude_totals =
  parse_table_data (mk_table (caption t) (header :: matching header data))
                   false drop_rows exclude_totals.
Proof.
  intros Ht Hs. unfold parse_stat_table_data.
  rewrite (@parse_stat_table_rows_kept t skip_row skipped header data Ht Hs).
  cbn [bind].
  assert (Hclean : parse_table_rows
                     (mk_table (caption t) (header :: matching header data))
                   = header :: matching header data).
  { unfold parse_table_rows. cbn [table_rows]. apply filter_all_true.
    assert (Hall : Forall (fun r => is_clean_row r = true) (parse_table_rows t))
      by (apply Forall_forall; intros r Hr; now apply filter_In in Hr).
    rewrite Ht in Hall. apply Forall_app in Hall as [_ Hall].
    constructor; [now inversion Hall|].
    apply Forall_forall. intros r Hr. apply filter_In in Hr as [Hr _].
    inversion Hall as [|? ? _ Hdata]; subst.
    rewrite Forall_forall in Hdata. now apply Hdata. }
  unfold parse_table_data, parse_rows. rewrite Hclean.
  set (rows := parse_all_row_data (header :: matching header data)).
  assert (Huni : Forall (fun r => (List.length r =? List.length (row_cells header))
                                  = true) rows).
  { subst rows. unfold parse_all_row_data. cbn [map]. constructor.
    - apply Nat.eqb_refl.
    - pose proof (matching_cells header data) as H.
      unfold parse_row_data. revert H. apply Forall_impl.
      intros r Hr. now apply Nat.eqb_eq. }
  destruct (if exclude_totals
            then totals_rows <- detect_totals_rows rows ;;
                 Ok (Z.of_nat totals_rows)
            else Ok drop_rows) as [d|e]; [|reflexivity].
  cbn [bind].
  assert (Hkept : forall kept,
             (kept = rows \/ exists n, kept = firstn n rows) ->
             (all_row_data <- drop_mismatched kept ;;
              convert_row_data_to_dict all_row_data)
             = convert_row_data_to_dict kept).
  { intros kept Hk. destruct kept as [|h kept']; [reflexivity|].
    unfold drop_mismatched. cbn [bind].
    assert (Hh : h = row_cells header).
    { destruct Hk as [Hk|[n Hk]].
      - subst rows. now inversion Hk.
      - subst rows. destruct n; [discriminate|]. now inversion Hk. }
    subst h. f_equal. apply filter_all_true.
    destruct Hk as [Hk|[n Hk]]; rewrite Hk; [exact Huni|].
    apply Forall_forall. intros x Hx.
    rewrite Forall_forall in Huni. apply Huni.
    eapply In_firstn_full. exact Hx. }
  apply Hkept. destruct (0 <? d)%Z; [right | now left].
  unfold drop_last. now eexists.
Qed.

End StatParser.

(** [short_row_example] through the stat parser with the totals
    detection on. *)
Lemma parse_stat_table_data_is_parse_of_matching_rows_witness :
  parse_stat_table_data short_row_example false 3 true =
  parse_table_data
    (mk_table (Some (str "Scores"))
       [ mk_row None [str "A"; str "B"] [];
         mk_row None [str "1"; str "2"] [];
         mk_row None [str "4"; str "5"] [] ])
    false 3 true.
Proof.
  apply (@parse_stat_table_data_is_parse_of_matching_rows short_row_example
           false 3 true []
           (mk_row None [str "A"; str "B"] [])
           [ mk_row None [str "1"; str "2"] [];
             mk_row None [str "3"] [];
             mk_row None [str "4"; str "5"] [] ]);
    reflexivity.
Defined.

Section HeaderIdentity.

Lemma occurrences_not_in (h : pystr) (l : list pystr) :
  ~ In h l -> occurrences h l = 0.
Proof.
  unfold occurrences. induction l as [|x l IH]; intros H; [reflexivity|].
  simpl. destruct (str_eqb h x) eqn:E.
  - apply str_eqb_eq in E. subst. exfalso. apply H. now left.
  - apply IH. intros Hin. apply H. now right.
Qed.

Lemma number_repeats_distinct (headers : list pystr) :
  forall seen,
    NoDup (seen ++ headers) -> number_repeats seen headers = headers.
Proof.
  induction headers as [|h rest IH]; intros seen Hnd; [reflexivity|].
  cbn [number_repeats]. f_equal.
  - unfold numbered. rewrite occurrences_not_in; [reflexivity|].
    apply NoDup_remove_2 in Hnd. intros Hin. apply Hnd.
    apply in_or_app. now left.
  - apply IH. now rewrite <- app_assoc.
Qed.

(** X4.  Headers that are pairwise distinct pass through
    [add_suffix_to_repeat_headers] unchanged. *)
Theorem add_suffix_to_repeat_headers_keeps_distinct_headers
  (headers : list pystr) :
  NoDup headers -> add_suffix_to_repeat_headers headers = headers.
Proof.
  intros Hnd. rewrite add_suffix_refines.
  now apply number_repeats_distinct.
Qed.

End HeaderIdentity.

(** The headers of a standings table are distinct and stay as they are. *)
Lemma add_suffix_to_repeat_headers_keeps_distinct_headers_witness :
  add_suffix_to_repeat_headers [str "rk"; str "squad"; str "mp"]
  = [str "rk"; str "squad"; str "mp"].
Proof.
  apply (@add_suffix_to_repeat_headers_keeps_distinct_headers
           [str "rk"; str "squad"; str "mp"]).
  repeat constructor; cbv; intuition discriminate.
Defined.

Section TotalsCount.

Lemma detect_loop_sound (reversed : list (list pystr)) :
  forall n,
    match detect_totals_loop reversed n with
    | Ok m =>
        exists block rest,
          reversed = block ++ rest
          /\ m = n + List.length block
          /\ Forall totals_row block
          /\ (rest = [] \/ exists r rest', rest = r :: rest' /\ plain_row r)
    | Raise e =>
        e = IndexError
        /\ exists block rest,
             reversed = block ++ [] :: rest /\ Forall totals_row block
    end.
Proof.
  induction reversed as [|r reversed IH]; intros n.
  - simpl. exists [], []. repeat split; [simpl; lia | constructor | now left].
  - cbn [detect_totals_loop]. destruct r as [|check cells].
    + split; [reflexivity|]. exists [], reversed. split; [reflexivity|constructor].
    + destruct (contains (str "Total") check) eqn:Ec.
      * specialize (IH (n + 1)).
        destruct (detect_totals_loop reversed (n + 1)) as [m|e].
        -- destruct IH as (block & rest & -> & -> & Hb & Hrest).
           exists ((check :: cells) :: block), rest.
           repeat split; try assumption; [simpl; lia|].
           constructor; [|assumption]. now exists check, cells.
        -- destruct IH as [-> (block & rest & -> & Hb)].
           split; [reflexivity|].
           exists ((check :: cells) :: block), rest. split; [reflexivity|].
           constructor; [|assumption]. now exists check, cells.
      * exists [], ((check :: cells) :: reversed).
        repeat split; [simpl; lia | constructor |].
        right. exists (check :: cells), reversed. split; [reflexivity|].
        now exists check, cells.
Qed.

(** X5.  [detect_totals_rows] returns the length of the longest block of
    totals rows that ends the list, and it raises, with [IndexError],
    exactly when that block is preceded by a row without cells. *)
Theorem detect_totals_rows_counts_trailing_block
  (all_row_data : list (list pystr)) :
  match detect_totals_rows all_row_data with
  | Ok n =>
      exists rows block,
        all_row_data = rows ++ block
        /\ n = List.length block
        /\ Forall totals_row block
        /\ ends_plain rows
  | Raise e =>
      e = IndexError
      /\ exists rows block,
           all_row_data = rows ++ [] :: block /\ Forall totals_row block
  end.
Proof.
  unfold detect_totals_rows.
  pose proof (detect_loop_sound (rev all_row_data) 0) as H.
  destruct (detect_totals_loop (rev all_row_data) 0) as [m|e].
  - destruct H as (block & rest & Hrev & -> & Hb & Hrest).
    apply (f_equal (@rev _)) in Hrev.
    rewrite rev_involutive, rev_app_distr in Hrev.
    exists (rev rest), (rev block). split; [assumption|].
    split; [now rewrite length_rev|]. split; [now apply Forall_rev|].
    destruct Hrest as [->|(r & rest' & -> & Hr)]; [now left|].
    right. exists (rev rest'), r. now split.
  - destruct H as [-> (block & rest & Hrev & Hb)]. split; [reflexivity|].
    apply (f_equal (@rev _)) in Hrev.
    rewrite rev_involutive, rev_app_distr in Hrev. cbn [rev] in Hrev.
    rewrite <- app_assoc in Hrev.
    exists (rev rest), (rev block). split; [assumption|].
    now apply Forall_rev.
Qed.

End TotalsCount.

(* ------------------------------------------------------------------ *)
(** ** Dictionary helpers of the base scraper *)

Section DictHelpers.

Variable V : Type.

Lemma keys_set_notin (k : pystr) (v : V) (d : odict V) :
  ~ In k (keys d) -> keys (set k v d) = keys d ++ [k].
Proof.
  induction d as [|[k' v'] d IH]; simpl; [reflexivity|].
  intros H. destruct (str_eqb k k') eqn:E.
  - apply str_eqb_eq in E. subst. exfalso. apply H. now left.
  - simpl. f_equal. apply IH. intros Hin. apply H. now right.
Qed.

Lemma wf_set (k : pystr) (v : V) (d : odict V) : wf d -> wf (set k v d).
Proof.
  unfold wf. intros Hwf. destruct (str_in k (keys d)) eqn:E.
  - apply str_in_In in E. now rewrite keys_set_in.
  - apply str_in_not_In in E. rewrite keys_set_notin by assumption.
    now apply NoDup_snoc.
Qed.

Lemma get_remove_other (k k0 : pystr) (d : odict V) :
  k0 <> k -> get k0 (remove k d) = get k0 d.
Proof.
  intros Hne. induction d as [|[k' v'] d IH]; simpl; [reflexivity|].
  destruct (str_eqb k k') eqn:E; simpl.
  - apply str_eqb_eq in E. subst k'.
    apply str_eqb_neq in Hne. now rewrite Hne.
  - destruct (str_eqb k0 k'); [reflexivity | exact IH].
Qed.

Lemma keys_remove (k : pystr) (d : odict V) :
  wf d ->
  keys (remove k d) = filter (fun k' => negb (str_eqb k' k)) (keys d).
Proof.
  unfold wf. induction d as [|[k' v'] d IH]; simpl; [reflexivity|].
  intros Hwf. inversion Hwf as [|? ? Hk' Hnd]; subst.
  destruct (str_eqb k k') eqn:E.
  - apply str_eqb_eq in E. subst k'. rewrite str_eqb_refl. simpl.
    symmetry. apply filter_all_true. apply Forall_forall. intros x Hx.
    apply negb_true_iff, str_eqb_neq. intros ->. contradiction.
  - assert (E' : str_eqb k' k = false).
    { apply str_eqb_neq. apply str_eqb_neq in E. congruence. }
    rewrite E'. simpl. f_equal. now apply IH.
Qed.

Lemma wf_remove (k : pystr) (d : odict V) : wf d -> wf (remove k d).
Proof.
  intros Hwf. unfold wf. rewrite keys_remove by assumption.
  now apply NoDup_filter.
Qed.

Lemma get_remove_same (k : pystr) (d : odict V) :
  wf d -> get k (remove k d) = None.
Proof.
  intros Hwf. apply get_None_keys. rewrite keys_remove by assumption.
  intros Hin. apply filter_In in Hin as [_ Hin].
  now rewrite str_eqb_refl in Hin.
Qed.

(** *** [reorder_dict_keys] *)

Lemma reorder_loop_get (d : odict V) (order : list pystr) (k : pystr) :
  forall acc,
    get k (fold_left (fun acc k => match get k d with
                                   | Some v => set k v acc
                                   | None => acc
                                   end) order acc)
    = if str_in k order
      then match get k d with
           | Some v => Some v
           | None => get k acc
           end
      else get k acc.
Proof.
  induction order as [|x order IH]; intros acc; [reflexivity|].
  cbn [fold_left]. rewrite IH. unfold str_in. cbn [existsb].
  fold (str_in k order).
  destruct (str_eqb k x) eqn:E.
  - apply str_eqb_eq in E. subst x. cbn [orb].
    destruct (get k d) as [v|] eqn:Eg.
    + rewrite get_set_same. now destruct (str_in k order).
    + now destruct (str_in k order).
  - cbn [orb]. apply str_eqb_neq in E.
    assert (Hacc : get k (match get x d with
                          | Some v => set x v acc
                          | None => acc
                          end) = get k acc).
    { destruct (get x d); [now apply get_set_other | reflexivity]. }
    now rewrite Hacc.
Qed.

Lemma reorder_loop_keys (d : odict V) (order : list pystr) :
  NoDup order ->
  forall acc,
    (forall k, In k order -> ~ In k (keys acc)) ->
    keys (fold_left (fun acc k => match get k d with
                                  | Some v => set k v acc
                                  | None => acc
                                  end) order acc)
    = keys acc ++ filter (fun k => str_in k (keys d)) order.
Proof.
  induction 1 as [|x order Hx Hnd IH]; intros acc Hacc.
  - simpl. now rewrite app_nil_r.
  - cbn [fold_left filter]. destruct (get x d) as [v|] eqn:Eg.
    + assert (Hin : str_in x (keys d) = true).
      { apply str_in_In, get_In_keys. congruence. }
      rewrite Hin. rewrite IH.
      * rewrite keys_set_notin by (apply Hacc; now left).
        now rewrite <- app_assoc.
      * intros k Hk. rewrite keys_set_notin by (apply Hacc; now left).
        intros Hin'. apply in_app_or in Hin' as [Hin'|[->|[]]].
        -- revert Hin'. apply Hacc. now right.
        -- contradiction.
    + assert (Hin : str_in x (keys d) = false).
      { apply str_in_not_In, get_None_keys. assumption. }
      rewrite Hin. apply IH. intros k Hk. apply Hacc. now right.
Qed.

Lemma reorder_loop_wf (d : odict V) (order : list pystr) :
  forall acc,
    wf acc ->
    wf (fold_left (fun acc k => match get k d with
                                | Some v => set k v acc
                                | None => acc
                                end) order acc).
Proof.
  induction order as [|x order IH]; intros acc Hwf; [assumption|].
  cbn [fold_left]. apply IH. destruct (get x d); [now apply wf_set | assumption].
Qed.

(** X6.  [reorder_dict_keys] keeps exactly the entries whose key is in
    [new_order], each with its value: a key that is not listed is dropped,
    a listed key that the dictionary lacks is ignored, and no key occurs
    twice in the result. *)
Theorem reorder_dict_keys_keeps_listed_entries
  (data_dict : odict V) (new_order : list pystr) :
  wf (reorder_dict_keys data_dict new_order)
  /\ forall k,
       get k (reorder_dict_keys data_dict new_order)
       = if str_in k new_order then get k data_dict else None.
Proof.
  unfold reorder_dict_keys. split.
  - apply reorder_loop_wf. constructor.
  - intros k. rewrite reorder_loop_get. cbn [get].
    now destruct (str_in k new_order), (get k data_dict).
Qed.

(** X7.  For an order without repetition, the keys of the result of
    [reorder_dict_keys] are the keys of [new_order] that the dictionary
    has, in the order of [new_order]. *)
Theorem reorder_dict_keys_follows_new_order
  (data_dict : odict V) (new_order : list pystr) :
  NoDup new_order ->
  keys (reorder_dict_keys data_dict new_order)
  = filter (fun k => str_in k (keys data_dict)) new_order.
Proof.
  intros Hnd. unfold reorder_dict_keys.
  rewrite reorder_loop_keys; [reflexivity | assumption |].
  intros k _ [].
Qed.

(** *** [rename_dict_key] *)

(** X8.  [rename_dict_key] raises [KeyError] when the old key is missing.
    Otherwise, on a dictionary without repeated keys, the new key holds
    the value of the old key, the old key is gone unless it is the new
    key, and every other key keeps its value. *)
Theorem rename_dict_key_moves_value
  (data_dict : odict V) (old_key new_key : pystr) :
  wf data_dict ->
  match rename_dict_key data_dict old_key new_key with
  | Raise e => e = KeyError /\ get old_key data_dict = None
  | Ok d' =>
      wf d'
      /\ get new_key d' = get old_key data_dict
      /\ get old_key data_dict <> None
      /\ (old_key <> new_key -> get old_key d' = None)
      /\ (forall k, k <> old_key -> k <> new_key -> get k d' = get k data_dict)
  end.
Proof.
  intros Hwf. unfold rename_dict_key.
  destruct (get old_key data_dict) as [v|] eqn:Eg; [|now split].
  split; [apply wf_set; now apply wf_remove|].
  split; [apply get_set_same|].
  split; [discriminate|].
  split.
  - intros Hne. rewrite get_set_other by assumption.
    now apply get_remove_same.
  - intros k Hold Hnew. rewrite get_set_other by assumption.
    now apply get_remove_other.
Qed.

(** *** [delete_dict_keys] *)

Lemma delete_loop (ks : list pystr) :
  forall d : odict V,
    wf d ->
    let d' := fold_left (fun d key => match get key d with
                                      | Some _ => remove key d
                                      | None => d
                                      end) ks d in
    wf d'
    /\ keys d' = filter (fun k => negb (str_in k ks)) (keys d).
Proof.
  induction ks as [|x ks IH]; intros d Hwf.
  - cbn. split; [assumption|]. symmetry. apply filter_all_true.
    now apply Forall_forall.
  - cbn [fold_left].
    set (d1 := match get x d with Some _ => remove x d | None => d end).
    assert (H1 : wf d1
                 /\ keys d1 = filter (fun k => negb (str_eqb k x)) (keys d)).
    { subst d1. destruct (get x d) eqn:Eg.
      - split; [now apply wf_remove | now apply keys_remove].
      - split; [assumption|]. symmetry. apply filter_all_true.
        apply Forall_forall. intros k Hk.
        apply negb_true_iff, str_eqb_neq. intros ->.
        apply get_None_keys in Eg. contradiction. }
    destruct H1 as [Hwf1 Hk1]. destruct (IH d1 Hwf1) as [Hwf' Hk'].
    split; [assumption|]. cbn zeta in Hk'. rewrite Hk', Hk1.
    assert (Hin : forall k, str_in k (x :: ks) = str_eqb k x || str_in k ks)
      by reflexivity.
    clear - Hin. induction (keys d) as [|k l IHl]; [reflexivity|].
    cbn [filter]. rewrite Hin.
    destruct (str_eqb k x); cbn [negb orb]; [exact IHl|].
    cbn [filter]. destruct (negb (str_in k ks)); [now f_equal | exact IHl].
Qed.

Lemma get_filter_keys (keep : pystr -> bool) (d d' : odict V) (k : pystr) :
  wf d ->
  keys d' = filter keep (keys d) ->
  (forall k v, In (k, v) d' -> In (k, v) d) ->
  get k d' = if keep k then get k d else None.
Proof.
  intros Hwf Hkeys Hsub.
  assert (Hwf' : wf d') by (unfold wf; rewrite Hkeys; now apply NoDup_filter).
  destruct (get k d') as [v|] eqn:Eg.
  - pose proof (get_In _ _ Eg) as Hin.
    assert (Hk : In k (keys d')) by (apply get_In_keys; congruence).
    rewrite Hkeys in Hk. apply filter_In in Hk as [_ Hk]. rewrite Hk.
    symmetry. apply wf_get; [assumption | now apply Hsub].
  - apply get_None_keys in Eg. rewrite Hkeys in Eg.
    destruct (keep k) eqn:Ek; [|reflexivity].
    symmetry. apply get_None_keys. intros Hin. apply Eg.
    apply filter_In. now split.
Qed.

Lemma remove_In (k : pystr) (d : odict V) (e : pystr * V) :
  In e (remove k d) -> In e d.
Proof.
  induction d as [|[k' v'] d IH]; simpl; [tauto|].
  destruct (str_eqb k k'); [now right|].
  intros [H|H]; [now left | right; now apply IH].
Qed.

Lemma delete_loop_In (ks : list pystr) (e : pystr * V) :
  forall d : odict V,
    In e (fold_left (fun d key => match get key d with
                                  | Some _ => remove key d
                                  | None => d
                                  end) ks d) ->
    In e d.
Proof.
  induction ks as [|x ks IH]; intros d H; [assumption|].
  cbn [fold_left] in H. apply IH in H.
  destruct (get x d); [now apply remove_In in H | assumption].
Qed.

(** X9.  On a dictionary without repeated keys, [delete_dict_keys] removes
    exactly the listed keys: they are absent from the result, the other
    keys keep their values and their order, and a listed key that the
    dictionary lacks is ignored. *)
Theorem delete_dict_keys_removes_listed_keys
  (data_dict : odict V) (keys_to_delete : list pystr) :
  wf data_dict ->
  let d' := delete_dict_keys data_dict keys_to_delete in
  wf d'
  /\ keys d' = filter (fun k => negb (str_in k keys_to_delete)) (keys data_dict)
  /\ forall k,
       get k d' = if str_in k keys_to_delete then None else get k data_dict.
Proof.
  intros Hwf d'. destruct (delete_loop keys_to_delete Hwf) as [Hwf' Hkeys].
  fold (delete_dict_keys data_dict keys_to_delete) in Hwf', Hkeys.
  fold d' in Hwf', Hkeys. split; [assumption|]. split; [assumption|].
  intros k.
  rewrite (@get_filter_keys (fun k => negb (str_in k keys_to_delete))
             data_dict d' k Hwf Hkeys).
  - now destruct (str_in k keys_to_delete).
  - intros k0 v0. apply delete_loop_In.
Qed.

End DictHelpers.

(** A standings table reordered with a list that names an absent key. *)
Lemma reorder_dict_keys_follows_new_order_witness :
  keys (reorder_dict_keys [(str "w", 1); (str "notes", 2); (str "rk", 3)]
                          [str "rk"; str "mp"; str "w"])
  = [str "rk"; str "w"].
Proof.
  apply (@reorder_dict_keys_follows_new_order nat
           [(str "w", 1); (str "notes", 2); (str "rk", 3)]
           [str "rk"; str "mp"; str "w"]).
  repeat constructor; cbv; intuition discriminate.
Defined.

(** The renaming of [squad] that the standings cleaner asks for. *)
Lemma rename_dict_key_moves_value_witness :
  match rename_dict_key [(str "rk", 1); (str "squad", 2)]
                        (str "squad") (str "team_name") with
  | Raise e => e = KeyError /\ get (str "squad") [(str "rk", 1); (str "squad", 2)] = None
  | Ok d' =>
      wf d'
      /\ get (str "team_name") d' = get (str "squad") [(str "rk", 1); (str "squad", 2)]
      /\ get (str "squad") [(str "rk", 1); (str "squad", 2)] <> None
      /\ (str "squad" <> str "team_name" -> get (str "squad") d' = None)
      /\ (forall k, k <> str "squad" -> k <> str "team_name" ->
                    get k d' = get k [(str "rk", 1); (str "squad", 2)])
  end.
Proof.
  apply (@rename_dict_key_moves_value nat
           [(str "rk", 1); (str "squad", 2)] (str "squad") (str "team_name")).
  repeat constructor; cbv; intuition discriminate.
Defined.

(** Two keys deleted, one of them absent. *)
Lemma delete_dict_keys_removes_listed_keys_witness :
  let d := [(str "rk", 1); (str "notes", 2); (str "w", 3)] in
  let d' := delete_dict_keys d [str "notes"; str "matches"] in
  wf d'
  /\ keys d' = filter (fun k => negb (str_in k [str "notes"; str "matches"]))
                      (keys d)
  /\ forall k,
       get k d' = if str_in k [str "notes"; str "matches"] then None
                  else get k d.
Proof.
  apply (@delete_dict_keys_removes_listed_keys nat
           [(str "rk", 1); (str "notes", 2); (str "w", 3)]
           [str "notes"; str "matches"]).
  repeat constructor; cbv; intuition discriminate.
Defined.

(* ------------------------------------------------------------------ *)
(** ** From columns to rows: [change_dict_orientation] *)

Section Orientation.

Lemma mapM_Forall2 {A B} (f : A -> result B) (l : list A) :
  forall ys, mapM f l = Ok ys -> Forall2 (fun x y => f x = Ok y) l ys.
Proof.
  induction l as [|x l IH]; intros ys H; cbn [mapM] in H.
  - inversion H. constructor.
  - destruct (f x) as [y|] eqn:Ef; [|discriminate].
    destruct (mapM f l) as [ys'|]; [|discriminate].
    inversion H; subst. constructor; [assumption | now apply IH].
Qed.

Lemma Forall2_nth_error_l {A B} (R : A -> B -> Prop) (l : list A) (l' : list B) :
  Forall2 R l l' ->
  forall i y, nth_error l' i = Some y ->
              exists x, nth_error l i = Some x /\ R x y.
Proof.
  induction 1 as [|x y0 l l' Hxy _ IH]; intros [|i] y H;
    try discriminate; cbn in *.
  - inversion H; subst. now exists x.
  - now apply IH.
Qed.

(** The only exception of [process_value] is the one of indexing. *)
Lemma process_value_raises (i : nat) :
  forall v e, process_value i v = Raise e -> e = IndexError.
Proof.
  fix IH 1. intros [ | s | z | f | l | d] e; cbn [process_value];
    try discriminate.
  - destruct (nth_error l i); cbn [of_option]; [discriminate|].
    intros H. now inversion H.
  - assert (Hd : forall e0,
               (fix process_items (items : list (pystr * pyval))
                  : result (list (pystr * pyval)) :=
                  match items with
                  | [] => Ok []
                  | (k2, v2) :: rest =>
                      v <- process_value i v2 ;;
                      rest' <- process_items rest ;;
                      Ok ((k2, v) :: rest')
                  end) d = Raise e0 -> e0 = IndexError).
    { clear e. revert d. fix IHd 1. intros [|[k2 v2] rest] e0.
      - discriminate.
      - simpl. destruct (process_value i v2) as [v|e1] eqn:E; cbn [bind].
        + match goal with
          | |- (x <- ?c ;; _) = _ -> _ => destruct c as [rest'|e2] eqn:Er
          end; cbn [bind]; [discriminate|].
          intros H. inversion H; subst. now apply (IHd rest).
        + intros H. inversion H; subst. now apply (IH v2). }
    match goal with
    | |- (x <- ?c ;; _) = _ -> _ => destruct c as [fields|e2] eqn:Ef
    end; cbn [bind]; [discriminate|].
    intros H. inversion H; subst. now apply Hd.
Qed.

Lemma process_items_raises (i : nat) (d : odict pyval) :
  forall e, process_items i d = Raise e -> e = IndexError.
Proof.
  induction d as [|[k v] d IH]; intros e; cbn [process_items];
    [discriminate|].
  destruct (process_value i v) as [v'|e1] eqn:E; cbn [bind].
  - destruct (process_items i d) as [r|e2]; cbn [bind]; [discriminate|].
    intros H. inversion H; subst. now apply IH.
  - intros H. inversion H; subst. now apply (process_value_raises i v).
Qed.

(** One row: the keys of the mapping, each with its processed value. *)
Lemma process_items_row (i : nat) (d : odict pyval) :
  forall r,
    process_items i d = Ok r ->
    keys r = keys d
    /\ forall k v, get k d = Some v ->
                   exists v', process_value i v = Ok v' /\ get k r = Some v'.
Proof.
  induction d as [|[k0 v0] d IH]; intros r H; cbn [process_items] in H.
  - inversion H. split; [reflexivity | discriminate].
  - destruct (process_value i v0) as [v0'|] eqn:E0; [|discriminate].
    destruct (process_items i d) as [r'|] eqn:Er; [|discriminate].
    cbn [bind] in H. inversion H; subst.
    destruct (IH r' eq_refl) as [Hk Hg]. split.
    + unfold keys in *. cbn [map fst]. now rewrite Hk.
    + intros k v. cbn [get]. destruct (str_eqb k k0).
      * intros Hv. inversion Hv; subst. now exists v0'.
      * apply Hg.
Qed.

Lemma process_items_list_missing (i : nat) (k : pystr) (col : list pyval) :
  forall d,
    get k d = Some (PList col) -> List.length col <= i ->
    process_items i d = Raise IndexError.
Proof.
  induction d as [|[k0 v0] d IH]; cbn [get process_items]; [discriminate|].
  intros Hget Hlen. destruct (str_eqb k k0).
  - inversion Hget; subst. cbn [process_value].
    apply nth_error_None in Hlen. now rewrite Hlen.
  - destruct (process_value i v0) as [v0'|e] eqn:E0; cbn [bind].
    + now rewrite (IH Hget Hlen).
    + now rewrite (@process_value_raises i v0 e E0).
Qed.

Lemma mapM_raises_index {A B} (f : A -> result B) (l : list A) (x : A) :
  (forall y e, f y = Raise e -> e = IndexError) ->
  In x l -> f x = Raise IndexError ->
  mapM f l = Raise IndexError.
Proof.
  intros Hf. induction l as [|y l IH]; intros Hin Hx; [contradiction|].
  cbn [mapM]. destruct (f y) as [b|e] eqn:Ey.
  - destruct Hin as [->|Hin]; [congruence|].
    now rewrite (IH Hin Hx).
  - now rewrite (Hf y e Ey).
Qed.

Lemma skipn_nth_error {A} (l : list A) :
  forall s x, nth_error l s = Some x -> skipn s l = x :: skipn (S s) l.
Proof.
  induction l as [|y l IH]; intros [|s] x H; try discriminate; cbn in *.
  - now inversion H.
  - now apply IH.
Qed.

Lemma rows_column (d : odict pyval) (k : pystr) (col : list pyval) :
  get k d = Some (PList col) ->
  forall n s records,
    mapM (fun i => process_items i d) (seq s n) = Ok records ->
    map (get k) records = map Some (firstn n (skipn s col)).
Proof.
  intros Hget. induction n as [|n IH]; intros s records H.
  - cbn in H. now inversion H.
  - cbn [seq mapM] in H.
    destruct (process_items s d) as [r|] eqn:Er; [|discriminate].
    destruct (mapM _ (seq (S s) n)) as [rest|] eqn:Em; [|discriminate].
    inversion H; subst.
    destruct (process_items_row _ _ Er) as [_ Hrow].
    destruct (Hrow k _ Hget) as (x & Hx & Hr). cbn [process_value] in Hx.
    destruct (nth_error col s) as [x'|] eqn:Ex; [|discriminate].
    cbn [of_option] in Hx. inversion Hx; subst x'.
    rewrite (skipn_nth_error _ _ Ex). cbn [firstn map].
    now rewrite Hr, (IH (S s) rest Em).
Qed.

(** X10.  When [change_dict_orientation] returns, it returns one row for
    each element of the identifier column; every row has the keys of the
    input in the input's order; under the key of a list column, row [i]
    holds the element [i] of the list, and a value that is neither a
    list nor a dictionary is repeated in every row. *)
Theorem change_dict_orientation_rows
  (input_dict : odict pyval) (id_key : pystr) (records : list (odict pyval)) :
  change_dict_orientation input_dict id_key = Ok records ->
  exists id_key_vals,
    get id_key input_dict = Some id_key_vals
    /\ iterations id_key_vals = Ok (List.length records)
    /\ forall i r,
         nth_error records i = Some r ->
         keys r = keys input_dict
         /\ (forall k col, get k input_dict = Some (PList col) ->
               i < List.length col /\ get k r = nth_error col i)
         /\ (forall k v, get k input_dict = Some v ->
               (forall l, v <> PList l) -> (forall f, v <> PDict f) ->
               get k r = Some v).
Proof.
  unfold change_dict_orientation. intros H.
  destruct (get id_key input_dict) as [id_key_vals|]; [|discriminate].
  cbn [of_option bind] in H.
  destruct (iterations id_key_vals) as [n|] eqn:En; [|discriminate].
  cbn [bind] in H. apply mapM_Forall2 in H.
  exists id_key_vals. split; [reflexivity|].
  pose proof (Forall2_length H) as Hlen. rewrite length_seq in Hlen.
  split; [now rewrite <- Hlen|].
  intros i r Hr.
  destruct (Forall2_nth_error_l H _ Hr) as (j & Hj & Hrow).
  assert (Hij : j = i).
  { assert (Hlt : i < n).
    { rewrite Hlen. apply nth_error_Some. congruence. }
    rewrite (nth_error_nth' _ 0) in Hj by now rewrite length_seq.
    rewrite seq_nth in Hj by assumption. now inversion Hj. }
  subst j. destruct (process_items_row _ _ Hrow) as [Hkeys Hget].
  split; [assumption|]. split.
  - intros k col Hk. destruct (Hget k _ Hk) as (v' & Hv' & Hr').
    cbn [process_value] in Hv'.
    destruct (nth_error col i) as [x|] eqn:Ex; [|discriminate].
    cbn [of_option] in Hv'. inversion Hv'; subst.
    split; [apply nth_error_Some; congruence | assumption].
  - intros k v Hk Hl Hd. destruct (Hget k _ Hk) as (v' & Hv' & Hr').
    destruct v; cbn [process_value] in Hv';
      try (inversion Hv'; subst; assumption).
    + now elim (Hl l).
    + now elim (Hd d).
Qed.

(** X11.  Reading one key off the rows that [change_dict_orientation]
    returns gives back the list column of that key, cut to the number of
    rows: elements beyond the length of the identifier column are lost. *)
Theorem change_dict_orientation_column_round_trip
  (input_dict : odict pyval) (id_key k : pystr)
  (records : list (odict pyval)) (col : list pyval) :
  change_dict_orientation input_dict id_key = Ok records ->
  get k input_dict = Some (PList col) ->
  map (get k) records = map Some (firstn (List.length records) col).
Proof.
  unfold change_dict_orientation. intros H Hget.
  destruct (get id_key input_dict) as [id_key_vals|]; [|discriminate].
  cbn [of_option bind] in H.
  destruct (iterations id_key_vals) as [n|] eqn:En; [|discriminate].
  cbn [bind] in H.
  pose proof (Forall2_length (mapM_Forall2 _ _ H)) as Hlen.
  rewrite length_seq in Hlen. rewrite <- Hlen.
  exact (@rows_column input_dict k col Hget n 0 records H).
Qed.

(** X12.  [change_dict_orientation] raises [IndexError] when the mapping
    has a list column shorter than the identifier column. *)
Theorem change_dict_orientation_short_column_raises
  (input_dict : odict pyval) (id_key k : pystr)
  (id_key_vals : pyval) (n : nat) (col : list pyval) :
  get id_key input_dict = Some id_key_vals ->
  iterations id_key_vals = Ok n ->
  get k input_dict = Some (PList col) ->
  List.length col < n ->
  change_dict_orientation input_dict id_key = Raise IndexError.
Proof.
  intros Hid Hn Hget Hlt. unfold change_dict_orientation.
  rewrite Hid. cbn [of_option bind]. rewrite Hn. cbn [bind].
  apply (@mapM_raises_index _ _ (fun i => process_items i input_dict)
           (seq 0 n) (List.length col)).
  - intros i e. apply process_items_raises.
  - apply in_seq. lia.
  - now apply (@process_items_list_missing (List.length col) k col).
Qed.

End Orientation.

(** The rows of [orientation_example]. *)
Lemma change_dict_orientation_rows_witness :
  exists id_key_vals,
    get (str "league_id") orientation_example = Some id_key_vals
    /\ iterations id_key_vals = Ok (List.length orientation_example_rows)
    /\ forall i r,
         nth_error orientation_example_rows i = Some r ->
         keys r = keys orientation_example
         /\ (forall k col, get k orientation_example = Some (PList col) ->
               i < List.length col /\ get k r = nth_error col i)
         /\ (forall k v, get k orientation_example = Some v ->
               (forall l, v <> PList l) -> (forall f, v <> PDict f) ->
               get k r = Some v).
Proof.
  apply (@change_dict_orientation_rows orientation_example (str "league_id")
           orientation_example_rows).
  reflexivity.
Defined.

Lemma change_dict_orientation_column_round_trip_witness :
  map (get (str "league_name")) orientation_example_rows
  = map Some (firstn (List.length orientation_example_rows)
                     [PStr (str "Premier League"); PStr (str "La Liga")]).
Proof.
  apply (@change_dict_orientation_column_round_trip orientation_example
           (str "league_id") (str "league_name") orientation_example_rows
           [PStr (str "Premier League"); PStr (str "La Liga")]);
    reflexivity.
Defined.

(** A name column with one element for two identifiers. *)
Lemma change_dict_orientation_short_column_raises_witness :
  change_dict_orientation
    [ (str "league_id", PList [PInt 9; PInt 12]);
      (str "league_name", PList [PStr (str "Premier League")]) ]
    (str "league_id")
  = Raise IndexError.
Proof.
  apply (@change_dict_orientation_short_column_raises
           [ (str "league_id", PList [PInt 9; PInt 12]);
             (str "league_name", PList [PStr (str "Premier League")]) ]
           (str "league_id") (str "league_name")
           (PList [PInt 9; PInt 12]) 2 [PStr (str "Premier League")]);
    try reflexivity.
  simpl. lia.
Defined.

(* ------------------------------------------------------------------ *)
(** ** Edge behaviour of the table selection and of the URL items *)

Section CaptionEdges.

Lemma caption_step_captionless (t : table)
  (st : list table * list (list pystr)) (p : pattern) :
  caption t = None -> caption_step t st p = Raise TypeError.
Proof.
  intros Hc. destruct st as [ts names].
  unfold caption_step, get_table_name. now rewrite Hc.
Qed.

Lemma select_loop_outcome (patterns : list pattern) (tables : list table) :
  patterns <> [] ->
  forall st,
    match foldM (fun st t => foldM (caption_step t) patterns st) tables st with
    | Ok _ => Forall (fun t => caption t <> None) tables
    | Raise e => e = TypeError /\ exists t, In t tables /\ caption t = None
    end.
Proof.
  intros Hne. induction tables as [|t tables IH]; intros st.
  - cbn. constructor.
  - cbn [foldM]. destruct (caption t) as [text|] eqn:Hc.
    + assert (Hc' : caption t <> None) by congruence.
      rewrite (@pattern_loop_extend t patterns Hc' st).
      specialize (IH (extend st (flat_map (hit t) patterns))).
      destruct (foldM _ tables _) as [st'|e].
      * constructor; assumption.
      * destruct IH as [-> (t' & Ht' & Hc'')]. split; [reflexivity|].
        exists t'. split; [now right | assumption].
    + destruct patterns as [|p ps]; [congruence|]. cbn [foldM].
      rewrite caption_step_captionless by assumption.
      split; [reflexivity|]. exists t. split; [now left | assumption].
Qed.

Lemma select_loop_no_pattern (tables : list table) :
  forall st,
    foldM (fun st t => foldM (caption_step t) [] st) tables st = Ok st.
Proof.
  induction tables as [|t tables IH]; intros st; [reflexivity|].
  cbn [foldM]. apply IH.
Qed.

(** X13.  [get_tables_from_caption] raises, with [TypeError], exactly
    when the pattern list is not empty and some table has no caption.
    When it returns, the result is never an empty list: it is [None]
    when nothing was selected, and it is [None] for an empty pattern list
    and for an empty list of tables. *)
Theorem get_tables_from_caption_raises_iff_captionless
  (all_tables : list table) (regex_patterns : list pattern) :
  match get_tables_from_caption all_tables regex_patterns with
  | Raise e =>
      e = TypeError
      /\ regex_patterns <> []
      /\ exists t, In t all_tables /\ caption t = None
  | Ok r =>
      (regex_patterns = []
       \/ Forall (fun t => caption t <> None) all_tables)
      /\ r <> Some []
      /\ (regex_patterns = [] -> r = None)
      /\ (all_tables = [] -> r = None)
  end.
Proof.
  unfold get_tables_from_caption, select_tables.
  destruct regex_patterns as [|p ps].
  - rewrite select_loop_no_pattern. cbn.
    split; [now left|]. split; [discriminate|]. now split.
  - assert (Hne : p :: ps <> []) by discriminate.
    pose proof (@select_loop_outcome (p :: ps) all_tables Hne ([], [])) as H.
    destruct (foldM _ all_tables ([], [])) as [[ts names]|e] eqn:E.
    + cbn [bind fst]. destruct ts as [|t ts].
      * split; [now right|]. split; [discriminate|].
        split; [discriminate | reflexivity].
      * split; [now right|]. split; [discriminate|].
        split; [discriminate|]. intros ->. cbn in E. discriminate.
    + cbn [bind]. destruct H as [-> Hex]. now split.
Qed.

End CaptionEdges.

Section ItemEdges.

Variable patterns : list pattern.

Lemma href_loop_nonempty (hrefs : list pystr) (item : pystr) :
  href_loop patterns hrefs = Ok (Some item) -> item <> [].
Proof.
  induction hrefs as [|href hrefs IH]; cbn [href_loop]; [discriminate|].
  destruct (parse_pattern_from_url patterns href) as [[[|c i]|]|];
    cbn [bind]; try exact IH; try discriminate.
  intros H. inversion H. discriminate.
Qed.

Lemma items_loop_nonempty (rows : list row) :
  forall items items',
    foldM (items_step patterns) rows items = Ok items' ->
    Forall (fun item => item <> []) items ->
    Forall (fun item => item <> []) items'
    /\ List.length items' <= List.length items + List.length rows.
Proof.
  induction rows as [|r rows IH]; intros items items' H Hall.
  - cbn in H. inversion H; subst. split; [assumption | cbn; lia].
  - cbn [foldM] in H. unfold items_step at 1 in H.
    destruct (href_loop patterns (row_links r)) as [[item|]|] eqn:Eh;
      cbn [bind] in H; try discriminate.
    + apply IH in H.
      * destruct H as [Hall' Hlen]. split; [assumption|].
        rewrite length_app in Hlen. cbn in *. lia.
      * apply Forall_app. split; [assumption|]. constructor; [|constructor].
        now apply (href_loop_nonempty _ Eh).
    + apply IH in H; [|assumption]. destruct H as [Hall' Hlen].
      split; [assumption | cbn; lia].
Qed.

Lemma parse_stat_table_rows_length (t : table) (skip_row : bool)
  (rows : list row) :
  parse_stat_table_rows t skip_row = Ok rows ->
  List.length rows <= List.length (parse_table_rows t).
Proof.
  unfold parse_stat_table_rows.
  destruct skip_row; destruct (parse_table_rows t) as [|r0 l];
    cbn [bind]; try discriminate.
  - destruct l as [|r1 rest]; cbn [bind]; [discriminate|].
    intros H. injection H as <-.
    pose proof (filter_length_le
                  (fun r => List.length (row_cells r)
                            =? List.length (row_cells r1)) rest).
    cbn [List.length]. lia.
  - intros H. injection H as <-.
    pose proof (filter_length_le
                  (fun r => List.length (row_cells r)
                            =? List.length (row_cells r0)) l).
    cbn [List.length]. lia.
Qed.

(** X14.  Every item that [get_all_items_from_table_urls] and
    [get_all_items_from_stat_table_urls] return is a non-empty string:
    neither extractor puts [None] or the empty string in its list, and
    neither returns more items than the table has clean rows. *)
Theorem get_all_items_returns_nonempty_strings (t : table) :
  (forall items,
      get_all_items_from_table_urls t patterns = Ok items ->
      Forall (fun item => item <> []) items
      /\ List.length items <= List.length (parse_table_rows t))
  /\ (forall skip_row items,
        get_all_items_from_stat_table_urls t patterns skip_row = Ok items ->
        Forall (fun item => item <> []) items
        /\ List.length items <= List.length (parse_table_rows t)).
Proof.
  split.
  - unfold get_all_items_from_table_urls. intros items H.
    apply items_loop_nonempty in H; [|constructor]. exact H.
  - unfold get_all_items_from_stat_table_urls. intros skip_row items H.
    destruct (parse_stat_table_rows t skip_row) as [rows|] eqn:Er;
      [|discriminate].
    cbn [bind] in H. apply items_loop_nonempty in H; [|constructor].
    destruct H as [Hall Hlen]. split; [assumption|].
    cbn [List.length] in Hlen.
    pose proof (parse_stat_table_rows_length _ _ Er) as Hrows.
    lia.
Qed.

End ItemEdges.

Section NoPattern.

Lemma href_loop_no_pattern (hrefs : list pystr) :
  href_loop [] hrefs = match hrefs with
                       | [] => Ok None
                       | _ :: _ => Raise UnboundLocalError
                       end.
Proof. destruct hrefs; reflexivity. Qed.

Lemma items_loop_no_pattern (rows : list row) :
  forall items,
    foldM (items_step []) rows items
    = if existsb (fun r => match row_links r with
                           | [] => false
                           | _ :: _ => true
                           end) rows
      then Raise UnboundLocalError
      else Ok items.
Proof.
  induction rows as [|r rows IH]; intros items; [reflexivity|].
  cbn [foldM existsb]. unfold items_step at 1.
  rewrite href_loop_no_pattern.
  destruct (row_links r); cbn [bind orb]; [apply IH | reflexivity].
Qed.

(** X15.  With an empty pattern list, [get_all_items_from_table_urls]
    raises [UnboundLocalError] as soon as a clean row has a link with a
    non-empty [href], and returns the empty list when no clean row has
    one. *)
Theorem get_all_items_from_table_urls_without_patterns (t : table) :
  get_all_items_from_table_urls t []
  = if existsb (fun r => match row_links r with
                         | [] => false
                         | _ :: _ => true
                         end) (parse_table_rows t)
    then Raise UnboundLocalError
    else Ok [].
Proof.
  unfold get_all_items_from_table_urls. apply items_loop_no_pattern.
Qed.

End NoPattern.

(* ------------------------------------------------------------------ *)
(** ** Scalar and column cleaners *)

Section Cleaners.

Lemma split_nonempty (c : ascii) (s : pystr) : split c s <> [].
Proof.
  destruct s as [|x s]; cbn [split]; [discriminate|].
  destruct (Ascii.eqb x c); [discriminate|].
  destruct (split c s); discriminate.
Qed.

Lemma split_parts_without (c : ascii) (s : pystr) :
  Forall (without_char c) (split c s).
Proof.
  induction s as [|x s IH]; cbn [split].
  - constructor; [reflexivity | constructor].
  - destruct (Ascii.eqb x c) eqn:E.
    + constructor; [reflexivity | assumption].
    + destruct (split c s) as [|w ws].
      * constructor; [|constructor]. unfold without_char. cbn. now rewrite E.
      * inversion IH as [|? ? Hw Hws]; subst. constructor; [|assumption].
        unfold without_char in *. cbn [forallb]. now rewrite E, Hw.
Qed.

Lemma split_single_without (c : ascii) (s : pystr) :
  List.length (split c s) <= 1 -> without_char c s.
Proof.
  induction s as [|x s IH]; cbn [split]; [reflexivity|].
  destruct (Ascii.eqb x c) eqn:E.
  - pose proof (split_nonempty c s).
    destruct (split c s); [contradiction | cbn; lia].
  - intros H. unfold without_char in *. cbn [forallb]. rewrite E. cbn.
    apply IH. destruct (split c s) as [|w ws]; cbn in *; lia.
Qed.

Lemma without_char_app (c : ascii) (a b : pystr) :
  without_char c a -> without_char c b -> without_char c (a ++ b).
Proof.
  unfold without_char. intros Ha Hb. rewrite forallb_app. now rewrite Ha, Hb.
Qed.

Lemma join_without (c : ascii) (sep : pystr) (parts : list pystr) :
  without_char c sep -> Forall (without_char c) parts ->
  without_char c (join sep parts).
Proof.
  intros Hsep. induction 1 as [|w ws Hw Hws IH]; [reflexivity|].
  cbn [join]. destruct ws as [|w' ws']; [assumption|].
  apply without_char_app; [assumption|].
  apply without_char_app; assumption.
Qed.

Lemma Forall_removelast {A} (P : A -> Prop) (l : list A) :
  Forall P l -> Forall P (removelast l).
Proof.
  induction 1 as [|x l Hx Hl IH]; [constructor|].
  cbn [removelast]. destruct l; [constructor|]. now constructor.
Qed.

(** X16.  The name that [clean_team_name] returns never contains a
    dash: either the name had none, or everything from its last dash on
    is cut and the remaining dashes are replaced by spaces. *)
Theorem clean_team_name_has_no_dash (team_name : pystr) :
  without_char "-" (clean_team_name team_name).
Proof.
  unfold clean_team_name.
  set (name := match team_prefix_findall team_name with
               | g :: _ => g
               | [] => team_name
               end).
  destruct (1 <? List.length (split "-" name)) eqn:E.
  - apply join_without; [reflexivity|].
    unfold but_last. apply Forall_removelast, split_parts_without.
  - apply Nat.ltb_ge in E. now apply split_single_without.
Qed.

(** *** [format_field] *)

Lemma lower_char_idempotent (c : ascii) :
  lower_char (lower_char c) = lower_char c.
Proof.
  destruct c as [[] [] [] [] [] [] [] []]; vm_compute; reflexivity.
Qed.

Lemma lower_char_space (c : ascii) : is_space (lower_char c) = is_space c.
Proof.
  destruct c as [[] [] [] [] [] [] [] []]; vm_compute; reflexivity.
Qed.

Lemma replace_space_chars (s : pystr) :
  replace (str " ") (str "_") s
  = map (fun c => if Ascii.eqb c " " then "_"%char else c) s.
Proof.
  unfold replace. induction s as [|c s IH]; [reflexivity|].
  cbn [replace_from map].
  change (startswith (str " ") (c :: s)) with (Ascii.eqb " " c && true).
  rewrite andb_true_r, Ascii.eqb_sym.
  destruct (Ascii.eqb c " "); cbn; now rewrite <- IH.
Qed.

(** The characters of a formatted field. *)
Lemma format_field_chars (field : pystr) :
  format_field field
  = map (fun c => if Ascii.eqb (lower_char c) " " then "_"%char
                  else lower_char c) (strip field).
Proof.
  unfold format_field, lower. rewrite replace_space_chars, map_map.
  reflexivity.
Qed.

Lemma format_char_fixed (c : ascii) :
  let f := fun c => if Ascii.eqb (lower_char c) " " then "_"%char
                    else lower_char c in
  f (f c) = f c /\ f c <> " "%char /\ lower_char (f c) = f c
  /\ (is_space c = false -> is_space (f c) = false).
Proof.
  destruct c as [[] [] [] [] [] [] [] []]; vm_compute;
    (split; [reflexivity|]); (split; [discriminate|]);
    (split; [reflexivity|]); intros H; (exact H || reflexivity).
Qed.

Lemma lstrip_fixed_iff (s : pystr) :
  lstrip s = s <-> match s with
                   | [] => True
                   | c :: _ => is_space c = false
                   end.
Proof.
  destruct s as [|c s]; cbn [lstrip]; [tauto|].
  destruct (is_space c) eqn:E; split; try congruence; try reflexivity.
  intros H. exfalso.
  assert (Hlen : List.length (lstrip s) <= List.length s).
  { clear. induction s as [|x s IH]; cbn [lstrip]; [lia|].
    destruct (is_space x); cbn [List.length]; lia. }
  rewrite H in Hlen. cbn in Hlen. lia.
Qed.

Lemma lstrip_idempotent (s : pystr) : lstrip (lstrip s) = lstrip s.
Proof.
  induction s as [|c s IH]; [reflexivity|]. cbn [lstrip].
  destruct (is_space c) eqn:E; [assumption|]. cbn [lstrip]. now rewrite E.
Qed.

Lemma lstrip_suffix (s : pystr) : exists ws, s = ws ++ lstrip s.
Proof.
  induction s as [|c s [ws IH]]; [now exists []|]. cbn [lstrip].
  destruct (is_space c); [|now exists []].
  exists (c :: ws). cbn. now rewrite <- IH.
Qed.

(** A stripped string starts and ends with a character that is no white
    space. *)
Lemma strip_fixed (s : pystr) :
  lstrip (strip s) = strip s /\ lstrip (rev (strip s)) = rev (strip s).
Proof.
  unfold strip, rstrip. set (u := lstrip s).
  assert (Hu : lstrip u = u) by apply lstrip_idempotent.
  split.
  - destruct (lstrip_suffix (rev u)) as [ws Hws].
    apply (f_equal (@rev _)) in Hws.
    rewrite rev_involutive, rev_app_distr in Hws.
    set (v := rev (lstrip (rev u))) in *.
    apply lstrip_fixed_iff. apply lstrip_fixed_iff in Hu.
    rewrite Hws in Hu. destruct v as [|c v]; [exact I | exact Hu].
  - rewrite rev_involutive. apply lstrip_idempotent.
Qed.

Lemma map_fixed_ends (f : ascii -> ascii) (s : pystr) :
  (forall c, is_space c = false -> is_space (f c) = false) ->
  lstrip s = s -> lstrip (map f s) = map f s.
Proof.
  intros Hf H. apply lstrip_fixed_iff. apply lstrip_fixed_iff in H.
  destruct s as [|c s]; [exact I | cbn; now apply Hf].
Qed.

Lemma strip_of_fixed (s : pystr) :
  lstrip s = s -> lstrip (rev s) = rev s -> strip s = s.
Proof.
  intros H1 H2. unfold strip, rstrip. rewrite H1, H2. apply rev_involutive.
Qed.

(** X17.  [format_field] is idempotent, and its result contains neither
    a space nor a character that [lower] would change: formatting an
    already formatted field name changes nothing. *)
Theorem format_field_idempotent (field : pystr) :
  format_field (format_field field) = format_field field
  /\ without_char " " (format_field field)
  /\ lower (format_field field) = format_field field.
Proof.
  set (f := fun c => if Ascii.eqb (lower_char c) " " then "_"%char
                     else lower_char c).
  assert (Hff : format_field field = map f (strip field))
    by apply format_field_chars.
  destruct (strip_fixed field) as [Hl Hr].
  assert (Hstrip : strip (map f (strip field)) = map f (strip field)).
  { apply strip_of_fixed.
    - apply map_fixed_ends; [|assumption].
      intros c. apply (format_char_fixed c).
    - rewrite <- map_rev. apply map_fixed_ends; [|assumption].
      intros c. apply (format_char_fixed c). }
  split; [|split].
  - rewrite format_field_chars, Hff, Hstrip, map_map.
    apply map_ext. intros c. apply (format_char_fixed c).
  - rewrite Hff. unfold without_char. rewrite forallb_forall.
    intros x Hx. apply in_map_iff in Hx as [c [<- _]].
    apply negb_true_iff, Ascii.eqb_neq. apply (format_char_fixed c).
  - rewrite Hff. unfold lower. rewrite map_map. apply map_ext.
    intros c. apply (format_char_fixed c).
Qed.

(** *** [clean_stat_dict_columns] *)

Lemma clean_column_step_keys (d d' : odict (list pyval))
  (entry : pystr * (pyval -> result pyval)) :
  clean_column_step d entry = Ok d' -> keys d' = keys d.
Proof.
  destruct entry as [c m]. unfold clean_column_step.
  destruct (get c d) as [cells|] eqn:Eg.
  - destruct (mapM m cells); cbn [bind]; [|discriminate].
    intros H. inversion H; subst. apply keys_set_in.
    apply get_In_keys. congruence.
  - intros H. now inversion H.
Qed.

Lemma clean_columns_keys (cm : list (pystr * (pyval -> result pyval))) :
  forall d d', foldM clean_column_step cm d = Ok d' -> keys d' = keys d.
Proof.
  induction cm as [|e cm IH]; intros d d' H; cbn [foldM] in H.
  - now inversion H.
  - destruct (clean_column_step d e) as [d1|] eqn:E1; [|discriminate].
    rewrite (IH _ _ H). now apply (clean_column_step_keys _ _ E1).
Qed.

(** X18.  When [clean_stat_dict_columns] returns, the mapping has the
    same keys in the same order, every column has kept its length, and
    a column that is not named in the cleaning map is unchanged. *)
Theorem clean_stat_dict_columns_keeps_shape
  (sub_stat_dict cleaned : odict (list pyval)) :
  clean_stat_dict_columns sub_stat_dict = Ok cleaned ->
  keys cleaned = keys sub_stat_dict
  /\ (forall k col, get k sub_stat_dict = Some col ->
        exists col', get k cleaned = Some col'
                     /\ List.length col' = List.length col)
  /\ (forall k, ~ In k (map fst cleaning_map) ->
        get k cleaned = get k sub_stat_dict).
Proof.
  unfold clean_stat_dict_columns. intros H.
  destruct (@clean_columns_loop cleaning_map cleaning_map_keys_distinct
              sub_stat_dict cleaned H) as [Hother Hmapped].
  split; [now apply (clean_columns_keys _ _ H)|]. split; [|assumption].
  intros k col Hget.
  destruct (str_in k (map fst cleaning_map)) eqn:Ek.
  - apply str_in_In, in_map_iff in Ek as [[c m] [Hc Hin]]. cbn in Hc. subst c.
    destruct (Hmapped k m col Hin Hget) as (cells' & Hg & Hm).
    exists cells'. split; [assumption|].
    apply mapM_Forall2 in Hm. symmetry. now apply (Forall2_length Hm).
  - apply str_in_not_In in Ek. exists col. split; [|reflexivity].
    now rewrite Hother.
Qed.

End Cleaners.

(** A squad column is cleaned in place. *)
Lemma clean_stat_dict_columns_keeps_shape_witness :
  let d := [ (str "squad", [PStr (str "eng Arsenal"); PStr (str "Saint-Denis")]);
             (str "mp", [PStr (str "38"); PStr (str "38")]) ] in
  let d' := [ (str "squad", [PStr (str " Arsenal"); PStr (str "Saint")]);
              (str "mp", [PStr (str "38"); PStr (str "38")]) ] in
  keys d' = keys d
  /\ (forall k col, get k d = Some col ->
        exists col', get k d' = Some col'
                     /\ List.length col' = List.length col)
  /\ (forall k, ~ In k (map fst cleaning_map) -> get k d' = get k d).
Proof.
  apply (@clean_stat_dict_columns_keeps_shape
           [ (str "squad", [PStr (str "eng Arsenal"); PStr (str "Saint-Denis")]);
             (str "mp", [PStr (str "38"); PStr (str "38")]) ]
           [ (str "squad", [PStr (str " Arsenal"); PStr (str "Saint")]);
             (str "mp", [PStr (str "38"); PStr (str "38")]) ]).
  reflexivity.
Defined.

(* ------------------------------------------------------------------ *)
(** ** The column-map pipeline of the stat scrapers *)

Section Pipeline.

Variable fb : float_builtins.

Lemma convert_dict_dtypes_keys (d d' : odict (list pyval))
  (int_keys float_keys : list pystr) :
  wf d -> convert_dict_dtypes fb d int_keys float_keys = Ok d' ->
  keys d' = keys d.
Proof.
  intros Hwf H. unfold convert_dict_dtypes in H.
  pose proof (@dtypes_loop fb int_keys float_keys (keys d) Hwf d
                (fun k Hk => Hk)) as Hloop.
  rewrite H in Hloop. now destruct Hloop as [Hkeys _].
Qed.

Lemma filter_by_selection (P : pystr -> bool) (order : list pystr) :
  filter (fun k => str_in k (filter P order)) order = filter P order.
Proof.
  apply filter_ext_in. intros k Hk.
  destruct (P k) eqn:Ep.
  - apply str_in_In, filter_In. now split.
  - apply str_in_not_In. intros Hin. apply filter_In in Hin as [_ Hin].
    congruence.
Qed.

(** X19.  [delete_rename_order_convert_sub_stat_dict] raises [KeyError]
    for a stat id that the column map lacks.  When it returns, every key
    of the result is listed in the [final_order] of the stat id, no key
    occurs twice, and for a [final_order] without repetition the keys
    come in the order of [final_order]. *)
Theorem delete_rename_order_convert_keys_follow_final_order
  (sub_stat_dict : odict (list pyval)) (stat_id_key : pystr)
  (cmap : odict stat_config) :
  match get stat_id_key cmap with
  | None =>
      delete_rename_order_convert_sub_stat_dict fb sub_stat_dict stat_id_key
        cmap = Raise KeyError
  | Some config =>
      forall d',
        delete_rename_order_convert_sub_stat_dict fb sub_stat_dict
          stat_id_key cmap = Ok d' ->
        wf d'
        /\ (forall k, In k (keys d') -> In k (final_order config))
        /\ (NoDup (final_order config) ->
            keys d' = filter (fun k => str_in k (keys d'))
                             (final_order config))
  end.
Proof.
  unfold delete_rename_order_convert_sub_stat_dict,
    delete_sub_stat_dict_keys, change_name_sub_stat_dict_keys,
    reorder_sub_stat_dict_keys, convert_sub_stat_dict_keys_dtypes.
  destruct (get stat_id_key cmap) as [config|]; [|reflexivity].
  cbn [of_option bind]. intros d' H.
  destruct (foldM _ _ _) as [renamed|] eqn:Er; [|discriminate].
  cbn [bind] in H.
  set (ordered := reorder_dict_keys renamed (final_order config)) in *.
  assert (Hwf : wf ordered).
  { subst ordered. unfold reorder_dict_keys. apply reorder_loop_wf.
    constructor. }
  pose proof (convert_dict_dtypes_keys _ _ Hwf H) as Hkeys.
  split; [unfold wf; now rewrite Hkeys|]. split.
  - intros k Hk. rewrite Hkeys in Hk.
    destruct (str_in k (final_order config)) eqn:Ek;
      [now apply str_in_In|].
    exfalso. apply get_In_keys in Hk. apply Hk. subst ordered.
    unfold reorder_dict_keys. rewrite reorder_loop_get, Ek. reflexivity.
  - intros Hnd. rewrite Hkeys.
    assert (Hord : keys ordered
                   = filter (fun k => str_in k (keys renamed))
                            (final_order config)).
    { subst ordered. unfold reorder_dict_keys.
      rewrite reorder_loop_keys; [reflexivity | assumption |].
      intros k _ []. }
    rewrite Hord. symmetry. apply filter_by_selection.
Qed.

End Pipeline.

(* ------------------------------------------------------------------ *)
(** ** The squad tables of a league page *)

Section LeaguePage.

Variable sp : league_stat_patterns.

(** X20.  For a league without advanced statistics,
    [scrape_stats_from_league] raises [ValueError] whenever exactly four
    tables are selected: the special case removes the id [passing], which
    the list of the non-advanced stat ids does not contain. *)
Theorem scrape_stats_from_league_four_tables_raises
  (all_tables tables : list table) :
  get_tables_from_caption all_tables (non_advanced_stat_patterns sp)
  = Ok (Some tables) ->
  List.length tables = 4 ->
  scrape_stats_from_league sp (str "no") all_tables = Raise ValueError.
Proof.
  intros Hsel Hlen. unfold scrape_stats_from_league.
  change (get_stat_ids (str "no"))
    with (Ok (map str ["stats"; "keepers"; "shooting"; "playingtime";
                       "misc"]%string)).
  change (get_league_stat_patterns sp (str "no"))
    with (Ok (non_advanced_stat_patterns sp)).
  cbn [bind]. rewrite Hsel. cbn [bind of_option]. rewrite Hlen.
  reflexivity.
Qed.

(** X21.  When no table of the page is selected,
    [scrape_stats_from_league] raises [TypeError]: the length of the
    [None] that [get_tables_from_caption] returned is taken. *)
Theorem scrape_stats_from_league_without_tables_raises
  (has_adv_stats : pystr) (all_tables : list table)
  (stat_patterns : list pattern) :
  get_league_stat_patterns sp has_adv_stats = Ok stat_patterns ->
  get_tables_from_caption all_tables stat_patterns = Ok None ->
  scrape_stats_from_league sp has_adv_stats all_tables = Raise TypeError.
Proof.
  intros Hp Hsel.
  unfold scrape_stats_from_league, get_league_stat_patterns, get_stat_ids
    in *.
  destruct (str_eqb has_adv_stats (str "yes")) eqn:Ey;
    [|destruct (str_eqb has_adv_stats (str "no")) eqn:En; [|discriminate]];
    inversion Hp; subst; cbn [bind]; rewrite Hsel; reflexivity.
Qed.

Lemma firstn_S_nth_error {A} (l : list A) :
  forall s x, nth_error l s = Some x -> firstn (S s) l = firstn s l ++ [x].
Proof.
  induction l as [|y l IH]; intros [|s] x H; try discriminate.
  - cbn in H. inversion H. reflexivity.
  - cbn in H. cbn [firstn app]. f_equal. rewrite <- IH; [reflexivity|].
    assumption.
Qed.

Lemma NoDup_nth_error_fresh {A} (l : list A) :
  NoDup l ->
  forall s x, nth_error l s = Some x -> ~ In x (firstn s l).
Proof.
  induction 1 as [|y l Hy Hnd IH]; intros [|s] x H; try discriminate.
  - intros [].
  - cbn in H. cbn [firstn]. intros [->|Hin].
    + apply Hy. eapply nth_error_In. exact H.
    + now apply (IH s x H).
Qed.

(** The loop over the selected tables, started at the position [s]. *)
Lemma league_tables_loop (stat_ids : list pystr) :
  NoDup stat_ids ->
  forall tables s acc res,
    keys acc = firstn s stat_ids ->
    s <= List.length stat_ids ->
    foldM (league_table_step sp stat_ids)
          (combine (seq s (List.length tables)) tables) acc = Ok res ->
    s + List.length tables <= List.length stat_ids
    /\ keys res = firstn (s + List.length tables) stat_ids
    /\ (forall k, In k (firstn s stat_ids) -> get k res = get k acc)
    /\ forall j t,
         nth_error tables j = Some t ->
         exists stat_id parsed team_ids,
           nth_error stat_ids (s + j) = Some stat_id
           /\ parse_stat_table_data t true 0 false = Ok parsed
           /\ get_all_items_from_stat_table_urls t [team_id_pattern sp] true
              = Ok team_ids
           /\ get stat_id res = Some (set (str "team_id") team_ids parsed).
Proof.
  intros Hnd. induction tables as [|t tables IH]; intros s acc res Hk Hs H.
  - cbn in H. inversion H; subst. rewrite Nat.add_0_r.
    split; [cbn; lia|]. split; [assumption|]. split; [reflexivity|].
    intros [|j] t0; discriminate.
  - cbn [List.length seq combine foldM] in H.
    unfold league_table_step at 1 in H.
    destruct (parse_stat_table_data t true 0 false) as [parsed|] eqn:Ep;
      [|discriminate].
    cbn [bind] in H.
    destruct (get_all_items_from_stat_table_urls t [team_id_pattern sp] true)
      as [team_ids|] eqn:Ei; [|discriminate].
    cbn [bind] in H.
    destruct (nth_error stat_ids s) as [stat_id|] eqn:En; [|discriminate].
    cbn [of_option bind] in H.
    set (sub := set (str "team_id") team_ids parsed) in *.
    assert (Hfresh : ~ In stat_id (keys acc)).
    { rewrite Hk. now apply (NoDup_nth_error_fresh Hnd). }
    assert (Hlt : s < List.length stat_ids)
      by (apply nth_error_Some; congruence).
    assert (Hk' : keys (set stat_id sub acc) = firstn (S s) stat_ids).
    { rewrite keys_set_notin by assumption.
      now rewrite Hk, (firstn_S_nth_error _ _ En). }
    destruct (IH (S s) _ res Hk' Hlt H) as (Hlen & Hkeys & Hkept & Hall).
    cbn [List.length]. split; [lia|].
    split; [now replace (s + S (List.length tables))
              with (S s + List.length tables) by lia|].
    split.
    + intros k Hin. rewrite Hkept.
      * apply get_set_other. intros ->. apply Hfresh. now rewrite Hk.
      * rewrite (firstn_S_nth_error _ _ En). apply in_or_app. now left.
    + intros [|j] t0 Ht0.
      * cbn in Ht0. inversion Ht0; subst t0.
        exists stat_id, parsed, team_ids. rewrite Nat.add_0_r.
        split; [assumption|]. split; [assumption|]. split; [assumption|].
        rewrite Hkept.
        -- apply get_set_same.
        -- rewrite (firstn_S_nth_error _ _ En). apply in_or_app.
           right. now left.
      * cbn in Ht0. destruct (Hall j t0 Ht0) as (sid & p & ids & H1 & H2).
        exists sid, p, ids. split; [|assumption].
        now replace (s + S j) with (S s + j) by lia.
Qed.

(** X22.  When [scrape_stats_from_league] returns, the selected tables
    are labelled by position: the table number [i] of the selection is
    stored, with its team ids, under the stat id number [i] of the list
    of [get_stat_ids], whatever its caption; the keys of the result are
    the first stat ids, as many as tables were selected. *)
Theorem scrape_stats_from_league_labels_by_position
  (has_adv_stats : pystr) (all_tables : list table)
  (stats_dict : odict (odict (list pystr))) :
  scrape_stats_from_league sp has_adv_stats all_tables = Ok stats_dict ->
  exists stat_ids stat_patterns tables,
    get_stat_ids has_adv_stats = Ok stat_ids
    /\ get_league_stat_patterns sp has_adv_stats = Ok stat_patterns
    /\ get_tables_from_caption all_tables stat_patterns = Ok (Some tables)
    /\ List.length tables <= List.length stat_ids
    /\ keys stats_dict = firstn (List.length tables) stat_ids
    /\ forall i t,
         nth_error tables i = Some t ->
         exists stat_id parsed team_ids,
           nth_error stat_ids i = Some stat_id
           /\ parse_stat_table_data t true 0 false = Ok parsed
           /\ get_all_items_from_stat_table_urls t [team_id_pattern sp] true
              = Ok team_ids
           /\ get stat_id stats_dict
              = Some (set (str "team_id") team_ids parsed).
Proof.
  unfold scrape_stats_from_league. intros H.
  destruct (get_stat_ids has_adv_stats) as [stat_ids|] eqn:Eids;
    [|discriminate].
  cbn [bind] in H.
  destruct (get_league_stat_patterns sp has_adv_stats) as [ps|] eqn:Eps;
    [|discriminate].
  cbn [bind] in H.
  destruct (get_tables_from_caption all_tables ps) as [[tables|]|] eqn:Esel;
    try discriminate.
  cbn [bind of_option] in H.
  assert (Hnd : NoDup stat_ids).
  { unfold get_stat_ids in Eids.
    destruct (str_eqb has_adv_stats (str "yes"));
      [|destruct (str_eqb has_adv_stats (str "no")); [|discriminate]];
      inversion Eids; subst;
      repeat constructor; cbv; intuition discriminate. }
  destruct (str_eqb has_adv_stats (str "no") && (List.length tables =? 4))
    eqn:Especial.
  - exfalso. apply andb_true_iff in Especial as [Eno _].
    unfold get_stat_ids in Eids.
    destruct (str_eqb has_adv_stats (str "yes")) eqn:Eyes.
    + apply str_eqb_eq in Eyes, Eno. rewrite Eyes in Eno. discriminate.
    + rewrite Eno in Eids. inversion Eids; subst. discriminate.
  - cbn [bind] in H.
    destruct (@league_tables_loop stat_ids Hnd tables 0 [] stats_dict
                eq_refl (Nat.le_0_l _) H)
      as (Hlen & Hkeys & _ & Hall).
    exists stat_ids, ps, tables. cbn [Nat.add] in *.
    repeat (split; [assumption || reflexivity|]). exact Hall.
Qed.

End LeaguePage.

(** [four_tables_page]: the four squad tables are selected, and the
    scraper raises. *)
Lemma scrape_stats_from_league_four_tables_raises_witness :
  scrape_stats_from_league league_page_patterns (str "no") four_tables_page
  = Raise ValueError.
Proof.
  apply (@scrape_stats_from_league_four_tables_raises league_page_patterns
           four_tables_page
           [ mk_table (Some (str "Squad Standard Stats Table")) [];
             mk_table (Some (str "Squad Goalkeeping Table")) [];
             mk_table (Some (str "Squad Playing Time Table")) [];
             mk_table (Some (str "Squad Miscellaneous Stats Table")) [] ]);
    reflexivity.
Defined.

(** A page without tables. *)
Lemma scrape_stats_from_league_without_tables_raises_witness :
  scrape_stats_from_league league_page_patterns (str "yes") []
  = Raise TypeError.
Proof.
  apply (@scrape_stats_from_league_without_tables_raises
           league_page_patterns (str "yes") [] advanced_patterns);
    reflexivity.
Defined.

(** [two_tables_page]: the shooting table is stored under [keepers]. *)
Lemma scrape_stats_from_league_labels_by_position_witness :
  exists stat_ids stat_patterns tables,
    get_stat_ids (str "no") = Ok stat_ids
    /\ get_league_stat_patterns league_page_patterns (str "no")
       = Ok stat_patterns
    /\ get_tables_from_caption two_tables_page stat_patterns
       = Ok (Some tables)
    /\ List.length tables <= List.length stat_ids
    /\ keys two_tables_stats = firstn (List.length tables) stat_ids
    /\ forall i t,
         nth_error tables i = Some t ->
         exists stat_id parsed team_ids,
           nth_error stat_ids i = Some stat_id
           /\ parse_stat_table_data t true 0 false = Ok parsed
           /\ get_all_items_from_stat_table_urls t
                [team_id_pattern league_page_patterns] true
              = Ok team_ids
           /\ get stat_id two_tables_stats
              = Some (set (str "team_id") team_ids parsed).
Proof.
  apply (@scrape_stats_from_league_labels_by_position league_page_patterns
           (str "no") two_tables_page two_tables_stats).
  reflexivity.
Defined.
